(* ===== verification/_CoqProject ===== *)
-Q . S2P
Prelude.v
Host.v
Airport.v
Rules.v
Loader.v
Caches.v
HostLoops.v
Matcher.v
Coordination.v
State.v
TagXFL.v
TagCOP.v
Negotiation.v
Plugin.v
