(* ===== verification/Prelude.v ===== *)
(** * A verification development of the LOA plugin (EuroScope)

    The plugin (src/LOAPlugin.h, src/LOAPlugin.cpp, src/LoaMatcher.cpp,
    src/TagXFL.cpp, src/TagCOP.cpp) matches a flight plan against five
    ordered lists of Letter-of-Agreement rules and renders three tag items
    (exit flight level, detailed exit flight level, coordination point).

    Parts of the program and how they interact:
    - the airport matcher ([LOAPlugin::MatchesAirport], and the
      [processAirportList] lambda of [LoadLOAsFromJSON]) splits the raw
      airport lists of a rule into exact 4-letter codes and prefixes at load
      time and tests a code against them;
    - the rule set (the five global [std::vector<LOAEntry>]) is filled by
      [LoadLOAsFromJSON] from a JSON document, once per sector;
    - the route cache ([GetCachedRoutePoints]) and the online-controller
      cache ([GetOnlineControllersCached]) memoise host queries for 3 s and
      5 s;
    - the match engine ([MatchLoaEntry]) scans the rule lists in priority
      order, through the route cache, and memoises its answer (a rule
      pointer, or null) per callsign for 5 s;
    - [OnFlightPlanStateChange] and [CleanupCache] drop the caches of a
      flight that leaves the LOA-relevant states;
    - [OnGetTagItem] refreshes a per-frame snapshot and dispatches to the
      three renderers, which read and update the per-callsign coordination
      tracker [coordinationStates].

    Files of the development, in dependency order:
    - [Prelude] (this file): the [loa_scope] notations, 64- and 32-bit
      unsigned arithmetic of the tick counters, the C string functions the
      code calls ([tolower], [EqualsIgnoreCase], [_stricmp], [strncpy_s]
      truncation to 15 characters, [%d] and [%03d]), first-match searches
      on lists ([find_index], [first_some]) with their lemmas, the [loa]
      hint databases and the development's tactics; the interface
      [CaseInsensitiveEq] (a class that [EqualsIgnoreCase] and the
      [_stricmp] test both instantiate), the setoid [ieq] of strings equal
      up to case, and the [Proper] instance of [EqualsIgnoreCase] for it;
      the C [for] loop over a cursor ([for_loop], run on fuel), the
      relation [enumerates] of the cursors it visits, and its termination
      lemmas (exact fuel, and a decreasing variant);
    - [Host]: the EuroScope host interface the code consumes (flight-plan
      states, coordination states and types, tag colours, the flight-plan,
      radar-target and controller snapshots); these types live in
      EuroScopePlugIn.h, which is not part of the repository, and are
      modelled from the spec, as are the roster cursor
      ([ControllerSelectFirst], [ControllerSelectNext], [IsValid]) and the
      extracted route ([GetPointsNumber], [GetPointName]);
    - [Airport] (Module [AirportMatcher]): [processAirportList] and
      [MatchesAirport];
    - [Rules] (Module [Rules]): [LOAEntry] with its member initialisers,
      the five rule vectors ([RuleSet]), and a rule pointer [LoaRef] as
      (generation, category, index): the ghost generation counts the
      reloads that cleared the vectors, so that a pointer taken before a
      reload is recognisably dangling ([deref] = [None]);
    - [Loader] (Module [Loader]): the subset of nlohmann::json the loader
      uses (with [type_error] 302 as an error value of an exception monad),
      [parseLOAList] and [LoadLOAsFromJSON], with the file read and the JSON
      parse as an input [ConfigFile]; the class [JsonCodec] states what a
      typed getter ([get<std::string>], [get<bool>], [get<int>],
      [get<std::vector<std::string>>]) promises (an encoder it inverts,
      and the values it can produce), and [encode_LOAEntry] writes a rule
      back as a document;
    - [Caches] (Module [Caches]): [GetCachedRoutePoints],
      [GetOnlineControllersCached] with [HashSetOfStrings],
      [IsLOARelevantState], [CleanupCache], [OnFlightPlanStateChange];
    - [HostLoops] (Module [HostLoops]): the roster loop of
      [GetOnlineControllersCached] and the [int] index loop of
      [GetCachedRoutePoints], as [for_loop]s over the host's cursors;
      Caches.v uses the lists these loops produce, and HostLoops.v proves
      that the loops produce them;
    - [Matcher] (Module [Matcher]): [MatchLoaEntry], its abstract
      specification [Spec.governs] (the first accepted entry by category
      rank, then by index, on the raw airport lists), and the match-cache
      invariant;
    - [Coordination] (Module [Coordination]): [CoordinationInfo], the host
      callback [OnFlightPlanCoordinationStateChange] and the tracker updates
      and lookups of the renderers;
    - [State] (Module [State]): [PluginState] (the members of [LOAPlugin]
      and the global vectors), the host environment of one call, tag
      outputs, the renderers' shared [matches] lambda and fallback test, and
      what a renderer may change ([renderer_step]);
    - [TagXFL] and [TagCOP]: the three renderers, line by line;
    - [Negotiation] (Module [Negotiation]): the abstract negotiation
      machine of spec 4.6 ([spec_observe]: idle, requested, accepted), the
      tracker's two tracks as a [Track] record of operations (value,
      state, non-trivial values) with an abstraction [track_abs], and the
      renderers' observations of the host's negotiation ([point_observe]
      of [RenderCOPTagItem], [altitude_observe] of the XFL renderers);
    - [Plugin] (Module [Plugin]): [OnGetTagItem] with its frame snapshot,
      the constructor, [OnControllerPositionUpdate], the [Event]s of the
      host, the step [handle], runs, and the [reachable] states.

    What the theorems show, by group:
    - the match engine refines its specification on every cache miss
      ([Matcher.MatchLoaEntry_miss_governs]), returns fresh cached answers
      without work, replays within 5000 ms, honours category priority,
      guards invalid, irrelevant and non-IFR plans, and is cold after a
      cleanup; every memoised answer expires 5000 ms after it was
      computed, after which the engine rescans; the [DWORD] truncation
      aliases answers 2^32 ms apart;
    - the airport matcher is a lossless partition whose test equals the
      raw-list test, stated with string equality and append (a 4-letter
      raw code equal to the code, any other a prefix of it), independently
      of the helpers the code uses;
    - the loader: success, the open/parse failures that still mark the
      sector loaded, and, for every document on which it throws, the exact
      partial rule set left behind (the categories before the first
      present key whose list fails to parse hold their lists, that one and
      the later ones are empty); the round trip
      [parseLOAEntry (encode_LOAEntry e) = inr e] holds exactly for the
      loadable rules ([entry_loadable]: no sectors, 32-bit levels), and
      these are exactly the images of [parseLOAList];
    - the caches: freshness windows, the online filter, the cleanup, the
      64-bit hash bound; a second route lookup in the same tick hits;
    - the host loops: each stops after exactly one more test of its
      condition than the enumeration has elements; the roster loop returns
      the position identifiers of the sessions whose callsign contains
      "_CTR" or "_APP" (stated with append, the empty position included),
      the route loop the point list, and the route index never overflows
      an [int];
    - the coordination tracker: no callback ever removes an entry; the
      point track refines the spec 4.6 machine on every sequence of
      observations (a simulation, with the COP item's accepted display
      equal to the machine's); the altitude track refines it only up to
      acceptance: the stored track is the machine's state with acceptance
      forgotten, the XFL items show as accepted exactly what the machine
      holds requested or accepted, and the renderers store only
      [REQUESTED_BY_ME]; so an accepted level stops being shown once the
      host reports another one;
    - the renderers: labels never exceed 15 characters, the simple item's
      loop is "first match decides", neither XFL item depends on the
      fallback rules, and the renderers' [matches] lambda and the engine
      disagree on next-sector gating;
    - the plugin: an invariant of every reachable state (well-formed rules,
      cache invariants, every cached or snapshotted pointer either live or
      from an earlier generation, loadable rules), proved by induction on
      [reachable]; a tag request that refreshes the frame snapshot with no
      fresh cached answer leaves in it the rule that governs the flight on
      the snapshot's own online set and route (the composition of the
      caches, the engine and the loader's invariant); tag requests that
      alternate between two flights recompute the one-slot snapshot on
      every request; on any state of the invariant a reload keeps the
      match cache and the snapshot, whose pointers then designate no
      entry of the new rules while [MatchLoaEntry] still serves them; and,
      on any state, the coordination callback defeats the XFL promotion,
      the simple XFL item shows an accepted level uncoloured, a refusal
      after an accepted point is hidden, and a COP render leaves a tracker
      entry that the state-change cleanup never releases.

    Bounds and fuel.  All definitions but the two host loops are
    structural recursions over lists or strings, hence total.  The host
    loops walk cursors whose end only the host knows; they are [for_loop]s
    on a fuel bound, and [HostLoops] shows that fuel [n + 1] suffices
    exactly for an enumeration of [n] elements (fewer gives [None], more
    gives the same result), so the model's results do not depend on the
    bound.  The witnesses and the two scenarios of spec 8 evaluate the
    model by [vm_compute] on small documents.

    Conventions.  Integers of the C++ code are [Z]; the tick counters
    ([ULONGLONG], [DWORD]) keep their width: every subtraction of ticks is
    taken modulo 2^64 and the [DWORD] truncation of [MatchLoaEntry] modulo
    2^32; [get<int>] wraps to 32 bits.  Strings are [String.string];
    [std::unordered_map] keyed by callsign is [gmap string _] and
    [std::unordered_set<std::string>] is [gset string]; [std::vector] is
    [list]; a [const LOAEntry*] is a [LoaRef].  The host clock is an input:
    one handler call reads one tick value, where the code calls
    [GetTickCount64()] once per helper; the calls of one handler are
    microseconds apart, which matters only exactly at a window boundary.
    [HashSetOfStrings] takes the strings in iteration order as an
    argument and its bound holds for every order, but
    [GetOnlineControllersCached] feeds it stdpp's [elements] of the set:
    one fixed order, not necessarily the order of the [unordered_set].
    [size_t] is taken as 64 bits (an x64 build); a 32-bit build of the
    plugin, as EuroScope loads, wraps the hash at 2^32.  The hash is
    written to [cachedOnlineControllersHash] and never read, so no claim
    depends on either choice.  The renderers' [xfl * 100] is computed in
    [Z]: the C++ [int] product overflows (undefined behaviour) for
    |xfl| > 21474836, a value [get<int>] accepts; the model gives the
    mathematical product there.  [tolower] is the "C" locale on
    [unsigned char] values: only 'A'..'Z' change and bytes >= 128 are
    kept; the code passes a plain [char], negative for those bytes, which
    is undefined behaviour, so the theorems describe the code on names
    of 7-bit characters (ICAO identifiers are).  [PluginState] is one
    object: the handlers are members of the object the host calls and
    write [this->...], while [OnGetTagItem], [MatchLoaEntry] and the
    renderers read and write the global [LOAPlugin plugin]; the model assumes the host calls
    the handlers on that global (the instance-creating entry point is not
    in the repository).  The global's constructor runs [LoadLOAsFromJSON];
    a [type_error] escaping it would end the program, while the model
    keeps the partial rule set ([LOAPlugin_init]), so the reachable
    states over-approximate the program's and the invariant covers more
    states than occur.  The JSON object access [at_key] takes the first
    entry of a key and [items] visits an object's values in document
    order, where nlohmann keeps the last duplicate and iterates keys in
    sorted order; the two agree on documents without duplicate keys
    whose five category values are arrays, as configuration files are.

    Not modelled: the registration of tag items and the text of
    [DisplayUserMessage] (host I/O, kept as a list of message values), the
    Windows path and file API beyond the computed path, the JSON text
    parser (its outcome is an input), and [controllerFrequencies] and
    [handoffTargets], which LOAPlugin.h declares [extern] but no source
    file defines ([nextFunctionId], defined and never used, is a constant
    of State.v).  The lines of the sources no definition maps are the
    includes, the function prototypes and [extern] declarations of
    LOAPlugin.h, and the empty destructor.  nlohmann's number classes (integer, unsigned,
    float) are one [JNumber] of [Z]: the configuration files hold integers
    only, and a float in a level field would be a different document.
*)

From stdpp Require Import base gmap strings list pretty.
From Stdlib Require Import ZArith String Ascii Bool Lia.

Declare Scope loa_scope.
Delimit Scope loa_scope with loa.

Create HintDb loa discriminated.
Create Rewrite HintDb loa_simpl.

Local Open Scope Z_scope.

(** ** Unsigned machine words *)

(** [ULONGLONG] values are 64-bit unsigned: a subtraction wraps around. *)
Definition ULONGLONG_MAX_P1 : Z := 2 ^ 64.
Definition DWORD_MAX_P1 : Z := 2 ^ 32.

(** [ULONGLONG a - ULONGLONG b] *)
Definition sub_u64 (a b : Z) : Z := (a - b) mod ULONGLONG_MAX_P1.

(** [DWORD d = (ULONGLONG)x]: the implicit narrowing conversion. *)
Definition to_DWORD (x : Z) : Z := x mod DWORD_MAX_P1.

(** A value held in a [ULONGLONG] variable. *)
Definition is_u64 (x : Z) : Prop := 0 <= x < ULONGLONG_MAX_P1.

(** A value held in an [int] variable (32 bits on the plugin's target). *)
Definition is_int32 (x : Z) : Prop := - 2 ^ 31 <= x < 2 ^ 31.

Notation "a ⊖ b" := (sub_u64 a b) (at level 50, left associativity) : loa_scope.
Open Scope loa_scope.

Lemma sub_u64_range a b : 0 <= a ⊖ b < ULONGLONG_MAX_P1.
Proof. unfold sub_u64, ULONGLONG_MAX_P1. apply Z.mod_pos_bound. lia. Qed.

(** Without wrap-around the unsigned difference is the true difference. *)
Lemma sub_u64_exact a b : 0 <= b <= a -> a < ULONGLONG_MAX_P1 -> a ⊖ b = a - b.
Proof. intros. unfold sub_u64. apply Z.mod_small. lia. Qed.

(** A clock that went backwards yields a huge difference. *)
Lemma sub_u64_backwards a b :
  is_u64 a -> is_u64 b -> a < b -> a ⊖ b = ULONGLONG_MAX_P1 + (a - b).
Proof.
  unfold is_u64, sub_u64; intros Ha Hb Hlt.
  rewrite <- (Z.mod_add (a - b) 1) by (unfold ULONGLONG_MAX_P1; lia).
  rewrite Z.mod_small; lia.
Qed.

Lemma to_DWORD_range x : 0 <= to_DWORD x < DWORD_MAX_P1.
Proof. unfold to_DWORD, DWORD_MAX_P1. apply Z.mod_pos_bound. lia. Qed.

Lemma to_DWORD_is_u64 x : is_u64 (to_DWORD x).
Proof.
  pose proof (to_DWORD_range x). unfold is_u64, DWORD_MAX_P1, ULONGLONG_MAX_P1 in *. lia.
Qed.

Lemma to_DWORD_small x : 0 <= x < DWORD_MAX_P1 -> to_DWORD x = x.
Proof. apply Z.mod_small. Qed.

#[export] Hint Resolve sub_u64_range to_DWORD_range to_DWORD_is_u64 : loa.

(** ** C characters and strings *)

(** [tolower] of the "C" locale on [unsigned char] values: only 'A'..'Z'
    change.  The code passes a plain [char], negative for bytes >= 128,
    which is undefined behaviour; the model keeps those bytes. *)
Definition tolower (c : ascii) : ascii :=
  let n := N_of_ascii c in
  if ((65 <=? n)%N && (n <=? 90)%N) then ascii_of_N (n + 32) else c.

(** [EqualsIgnoreCase] (LoaMatcher.cpp): [std::equal] over both ranges, so
    the lengths must agree and the characters agree after [tolower]. *)
Fixpoint EqualsIgnoreCase (a b : string) : bool :=
  match a, b with
  | EmptyString, EmptyString => true
  | String x a', String y b' => Ascii.eqb (tolower x) (tolower y) && EqualsIgnoreCase a' b'
  | _, _ => false
  end.

(** The string a [const char*] denotes: [std::string::c_str] stops at the
    first NUL character. *)
Fixpoint c_str (s : string) : string :=
  match s with
  | EmptyString => EmptyString
  | String c s' => if Ascii.eqb c Ascii.zero then EmptyString else String c (c_str s')
  end.

(** [_stricmp(a.c_str(), b.c_str()) == 0]. *)
Definition stricmp_eq (a b : string) : bool := EqualsIgnoreCase (c_str a) (c_str b).

(** [s.find(needle) != std::string::npos]. *)
Definition str_contains (needle s : string) : bool :=
  match String.index 0 needle s with Some _ => true | None => false end.

(** [s.compare(0, a.length(), a) == 0] ([String.prefix]) and
    [s.find(n) != npos] ([str_contains]) as decompositions of [s]. *)
Lemma prefix_app_spec a s : String.prefix a s = true <-> exists suf, s = (a ++ suf)%string.
Proof.
  revert s. induction a as [|c a IH]; intros [|d s]; simpl.
  - split; [by exists ""%string|done].
  - split; [by exists (String d s)|done].
  - split; [done|intros [suf Hs]; discriminate].
  - destruct (Ascii.ascii_dec c d) as [->|Hne]; rewrite ?IH.
    + split; intros [suf Hs]; exists suf; [by rewrite Hs|by injection Hs].
    + split; [done|intros [suf Hs]; simpl in Hs; injection Hs; congruence].
Qed.

Lemma append_empty_inv (p q : string) : (p ++ q)%string = ""%string -> p = ""%string /\ q = ""%string.
Proof. destruct p; [done|discriminate]. Qed.

Lemma str_contains_spec n s :
  str_contains n s = true <-> exists p q, s = (p ++ n ++ q)%string.
Proof.
  unfold str_contains. induction s as [|b s IH].
  - simpl. split.
    + destruct n; [|done]. intros _. by exists ""%string, ""%string.
    + intros (p & q & Hs). symmetry in Hs. apply append_empty_inv in Hs as [-> Hs].
      apply append_empty_inv in Hs as [-> ->]. done.
  - assert (E : String.index 0 n (String b s) =
      if String.prefix n (String b s) then Some 0%nat else S <$> String.index 0 n s)
      by reflexivity.
    rewrite E. destruct (String.prefix n (String b s)) eqn:Hp.
    + split; [intros _|done]. apply prefix_app_spec in Hp as [q Hq]. by exists ""%string, q.
    + split.
      * destruct (String.index 0 n s) eqn:Hi; [|done]. intros _.
        destruct (proj1 IH eq_refl) as (p & q & ->). by exists (String b p), q.
      * intros ([|c p] & q & Hs); simpl in Hs.
        { exfalso. assert (String.prefix n (String b s) = true) by (apply prefix_app_spec; eauto). congruence. }
        injection Hs as -> Hs.
        assert (Hi : match String.index 0 n s with Some _ => true | None => false end = true)
          by (apply IH; eauto).
        destruct (String.index 0 n s); [done|discriminate].
Qed.

(** [strncpy_s(dst, 16, src, _TRUNCATE)] and [snprintf(dst, 16, ...)]: at
    most 15 characters of the C string, and a terminating NUL. *)
Definition tag_copy (s : string) : string := substring 0 15 (c_str s).

(** [std::to_string(n)] and [printf("%d", n)]. *)
Definition int_to_string (n : Z) : string := pretty n.

(** [printf("%03d", n)] for the non-negative [n] the renderers print. *)
Definition pad3 (n : Z) : string :=
  let s := pretty n in
  match String.length s with
  | 1%nat => "00" +:+ s
  | 2%nat => "0" +:+ s
  | _ => s
  end.

(** The lower-case image of a string. *)
Fixpoint lower (s : string) : string :=
  match s with
  | EmptyString => EmptyString
  | String c s' => String (tolower c) (lower s')
  end.

Lemma EqualsIgnoreCase_lower a b : EqualsIgnoreCase a b = true <-> lower a = lower b.
Proof.
  revert b; induction a as [|x a IH]; intros [|y b]; simpl; try (split; congruence).
  rewrite andb_true_iff, Ascii.eqb_eq, IH. split.
  - intros [-> ->]. reflexivity.
  - intros H. injection H as -> ->. auto.
Qed.

(** Case-insensitive equality of strings, as a relation. *)
Definition ieq (a b : string) : Prop := EqualsIgnoreCase a b = true.

Notation "a =ci= b" := (ieq a b) (at level 70, no associativity) : loa_scope.

#[export] Instance ieq_equivalence : Equivalence ieq.
Proof.
  unfold ieq; split.
  - intros a. by apply EqualsIgnoreCase_lower.
  - intros a b. rewrite !EqualsIgnoreCase_lower. done.
  - intros a b c. rewrite !EqualsIgnoreCase_lower. congruence.
Qed.

#[export] Instance EqualsIgnoreCase_proper : Proper (ieq ==> ieq ==> eq) EqualsIgnoreCase.
Proof.
  intros a a' Ha b b' Hb. unfold ieq in *. rewrite EqualsIgnoreCase_lower in Ha, Hb.
  apply eq_true_iff_eq. rewrite !EqualsIgnoreCase_lower. by rewrite Ha, Hb.
Qed.

Lemma tag_copy_length s : (String.length (tag_copy s) <= 15)%nat.
Proof.
  unfold tag_copy. generalize (c_str s). clear s.
  assert (H : forall n s, (String.length (substring 0 n s) <= n)%nat).
  { induction n as [|n IH]; intros [|c s]; simpl; try lia. specialize (IH s). lia. }
  intros s. apply H.
Qed.

(** A string without NUL is its own C string. *)
Fixpoint no_nul (s : string) : bool :=
  match s with
  | EmptyString => true
  | String c s' => negb (Ascii.eqb c Ascii.zero) && no_nul s'
  end.

Lemma c_str_no_nul s : no_nul s = true -> c_str s = s.
Proof.
  induction s as [|c s IH]; simpl; [done|].
  rewrite andb_true_iff, negb_true_iff. intros [-> H]. by rewrite IH.
Qed.

Lemma stricmp_eq_no_nul a b :
  no_nul a = true -> no_nul b = true -> stricmp_eq a b = EqualsIgnoreCase a b.
Proof. intros Ha Hb. unfold stricmp_eq. by rewrite !c_str_no_nul. Qed.

#[export] Hint Resolve tag_copy_length c_str_no_nul : loa.

(** ** Case-insensitive comparison, as an interface

    The engine compares names with [EqualsIgnoreCase], the renderers with
    [_stricmp]; both promise the same thing of C strings without NUL: two
    names are equal when their lower-case images are.  Clients are proved
    against the class, the two comparisons discharge it. *)
Class CaseInsensitiveEq (eqb : string -> string -> bool) : Prop :=
  ci_spec : forall a b, no_nul a = true -> no_nul b = true -> eqb a b = true <-> lower a = lower b.

#[export] Instance EqualsIgnoreCase_ci : CaseInsensitiveEq EqualsIgnoreCase.
Proof. intros a b _ _. apply EqualsIgnoreCase_lower. Qed.

#[export] Instance stricmp_eq_ci : CaseInsensitiveEq stricmp_eq.
Proof. intros a b Ha Hb. rewrite stricmp_eq_no_nul by done. apply EqualsIgnoreCase_lower. Qed.

Section CaseInsensitive.
Context (eq1 eq2 : string -> string -> bool) `{!CaseInsensitiveEq eq1} `{!CaseInsensitiveEq eq2}.

Lemma ci_agree a b : no_nul a = true -> no_nul b = true -> eq1 a b = eq2 a b.
Proof.
  intros Ha Hb. apply eq_true_iff_eq. by rewrite (ci_spec (eqb:=eq1)), (ci_spec (eqb:=eq2)).
Qed.

(** Every [wp] is [eq]-equal to some route point: the shape of both
    waypoint tests. *)
Lemma ci_all_any_agree (route wps : list string) :
  Forall (fun s => no_nul s = true) route -> Forall (fun s => no_nul s = true) wps ->
  forallb (fun wp => existsb (fun r => eq1 r wp) route) wps =
  forallb (fun wp => existsb (fun r => eq2 r wp) route) wps.
Proof.
  intros Hr Hw. induction Hw as [|wp wps Hwp _ IH]; [done|]. simpl. f_equal; [|exact IH].
  clear IH. induction Hr as [|r route Hr0 _ IH]; [done|]. simpl. by rewrite (ci_agree r wp), IH.
Qed.

End CaseInsensitive.

(** ** First match in a list

    The range-for loops of the code that [return] on the first entry
    satisfying a test.  [find_index p l] is the index of that entry. *)

Fixpoint find_index {A} (p : A -> bool) (l : list A) : option nat :=
  match l with
  | [] => None
  | x :: l' => if p x then Some 0%nat else S <$> find_index p l'
  end.

Section FindIndex.
Context {A : Type} (p : A -> bool).

(** [i] is the first index whose element passes [p]. *)
Definition first_index (l : list A) (i : nat) : Prop :=
  (exists x, l !! i = Some x /\ p x = true) /\
  (forall j y, (j < i)%nat -> l !! j = Some y -> p y = false).

Lemma find_index_Some l i : find_index p l = Some i -> first_index l i.
Proof.
  revert i; induction l as [|x l IH]; intros i; simpl; [done|].
  destruct (p x) eqn:Hx.
  - intros [= <-]. split; [eauto|]. intros j y Hj. lia.
  - destruct (find_index p l) as [k|] eqn:Hk; simpl; [|done].
    intros [= <-]. destruct (IH k eq_refl) as [[y [Hy Hpy]] Hbefore].
    split; [eauto|]. intros [|j] z Hj Hz; simpl in Hz; [congruence|].
    apply (Hbefore j); [lia|done].
Qed.

Lemma find_index_None l : find_index p l = None <-> forall x, x ∈ l -> p x = false.
Proof.
  induction l as [|x l IH]; simpl.
  - split; [|done]. intros _ y Hy. by apply elem_of_nil in Hy.
  - destruct (p x) eqn:Hx; split.
    + done.
    + intros H. rewrite H in Hx; [done|]. apply list_elem_of_here.
    + destruct (find_index p l); simpl; [done|]. intros _ y Hy.
      apply elem_of_cons in Hy as [->|Hy]; [done|]. by apply IH.
    + intros H. rewrite (proj2 IH); [done|]. intros y Hy. apply H. by apply list_elem_of_further.
Qed.

Lemma first_index_find l i : first_index l i -> find_index p l = Some i.
Proof.
  revert i; induction l as [|x l IH]; intros i [[y [Hy Hpy]] Hbefore]; [done|].
  simpl. destruct i as [|i]; simpl in Hy.
  - injection Hy as ->. by rewrite Hpy.
  - rewrite (Hbefore 0%nat x); [|lia|done].
    rewrite (IH i); [done|]. split; [eauto|].
    intros j z Hj Hz. apply (Hbefore (S j)); [lia|done].
Qed.

Lemma find_index_spec l i : find_index p l = Some i <-> first_index l i.
Proof. split; [apply find_index_Some|apply first_index_find]. Qed.

Lemma find_index_lookup l i : find_index p l = Some i -> exists x, l !! i = Some x /\ p x = true.
Proof. intros H. apply find_index_Some in H. apply H. Qed.
End FindIndex.

(** The search only depends on the test's answers on the list. *)
Lemma find_index_ext {A} (p q : A -> bool) l :
  (forall x, x ∈ l -> p x = q x) -> find_index p l = find_index q l.
Proof.
  induction l as [|x l IH]; intros H; simpl; [done|].
  rewrite (H x) by apply list_elem_of_here. rewrite IH; [done|]. intros y Hy. apply H. by right.
Qed.

#[export] Hint Resolve find_index_Some first_index_find find_index_lookup : loa.

(** ** First answer of a chain

    [if (tryA()) return; if (tryB()) return; ...]: the first step that
    answers wins.  The steps the code chains this way do not change any
    state, so the chain is a list of their answers. *)
Definition first_some {A} (l : list (option A)) : option A :=
  foldr (fun o acc => match o with Some x => Some x | None => acc end) None l.

Lemma first_some_cons_Some {A} (x : A) l : first_some (Some x :: l) = Some x.
Proof. reflexivity. Qed.

Lemma first_some_cons_None {A} (l : list (option A)) : first_some (None :: l) = first_some l.
Proof. reflexivity. Qed.

Lemma first_some_None {A} (l : list (option A)) : first_some l = None <-> Forall (fun o => o = None) l.
Proof.
  induction l as [|[x|] l IH]; simpl.
  - split; constructor.
  - split; [discriminate|]. intros H. inversion H. discriminate.
  - rewrite IH, Forall_cons. naive_solver.
Qed.

(** What holds of every answer of the chain holds of the one chosen. *)
Lemma first_some_Forall {A} (P : A -> Prop) l x :
  Forall (fun o => forall y, o = Some y -> P y) l -> first_some l = Some x -> P x.
Proof.
  induction 1 as [|[y|] l Hy _ IH]; simpl; [discriminate| |exact IH]. intros [= <-]. by apply Hy.
Qed.

#[export] Hint Rewrite @first_some_cons_Some @first_some_cons_None : loa_simpl.

(** ** C [for] loops over a cursor

    [for (c = first; valid(c); c = next(c)) s = body(c, s);] as the plugin
    writes its loops over host enumerations.  The loop runs on a fuel bound
    and gives [None] when the bound is exhausted before [valid] fails;
    [enumerates c l] says that the loop started at [c] visits exactly the
    cursors [l] and then stops. *)
Fixpoint for_loop {C St} (valid : C -> bool) (next : C -> C) (body : C -> St -> St)
    (fuel : nat) (c : C) (s : St) : option St :=
  match fuel with
  | O => None
  | S fuel' => if valid c then for_loop valid next body fuel' (next c) (body c s) else Some s
  end.

Section ForLoop.
Context {C St : Type} (valid : C -> bool) (next : C -> C) (body : C -> St -> St).

Inductive enumerates : C -> list C -> Prop :=
| enumerates_stop c : valid c = false -> enumerates c []
| enumerates_step c l : valid c = true -> enumerates (next c) l -> enumerates c (c :: l).

Lemma enumerates_functional c l1 l2 : enumerates c l1 -> enumerates c l2 -> l1 = l2.
Proof.
  intros H1; revert l2; induction H1 as [c Hc|c l Hc _ IH]; inversion 1; subst;
    [done|congruence|congruence|f_equal; auto].
Qed.

(** On an enumeration of [n] cursors the loop needs [n + 1] tests of its
    condition, and computes the left fold of its body. *)
Lemma for_loop_enumerates c l fuel s :
  enumerates c l ->
  for_loop valid next body fuel c s =
    if decide (List.length l < fuel)%nat then Some (fold_left (fun s c => body c s) l s) else None.
Proof.
  intros H; revert fuel s; induction H as [c Hc|c l Hc _ IH]; intros [|fuel] s; simpl;
    rewrite ?Hc, ?IH; repeat case_decide; auto with lia.
Qed.

(** A loop that returns has an enumeration. *)
Lemma for_loop_Some_enumerates fuel c s r :
  for_loop valid next body fuel c s = Some r -> exists l, enumerates c l.
Proof.
  revert c s; induction fuel as [|fuel IH]; intros c s; simpl; [done|].
  destruct (valid c) eqn:Hc.
  - intros H. destruct (IH _ _ H) as [l Hl]. eexists. by constructor.
  - intros _. eexists. by constructor.
Qed.

(** A variant: a measure that every iteration decreases. *)
Lemma enumerates_variant (measure : C -> nat) :
  (forall c, valid c = true -> (measure (next c) < measure c)%nat) ->
  forall c, exists l, enumerates c l /\ (List.length l <= measure c)%nat.
Proof.
  intros Hdec c. remember (measure c) as m eqn:Hm. revert c Hm.
  induction m as [m IH] using (well_founded_induction lt_wf). intros c ->.
  destruct (valid c) eqn:Hc.
  - destruct (IH (measure (next c)) (Hdec c Hc) (next c) eq_refl) as [l [Hl Hlen]].
    exists (c :: l). split; [by constructor|]. specialize (Hdec c Hc). simpl. lia.
  - exists []. split; [by constructor|]. simpl. lia.
Qed.
End ForLoop.

(** ** Tactics *)

(** Turn the boolean tests of the code into propositions. *)
Ltac bool_props :=
  repeat match goal with
  | H : (_ && _) = true |- _ => apply andb_true_iff in H as [? ?]
  | H : (_ || _) = false |- _ => apply orb_false_iff in H as [? ?]
  | H : negb _ = true |- _ => apply negb_true_iff in H
  | H : negb _ = false |- _ => apply negb_false_iff in H
  | |- (_ && _) = true => apply andb_true_iff; split
  | |- negb _ = true => apply negb_true_iff
  end.
