(* ===== verification/Host.v ===== *)
(** * The EuroScope host interface

    The types the plugin consumes from EuroScopePlugIn.h: flight-plan
    states, coordination states and types, tag colours, and snapshots of the
    [CFlightPlan], [CRadarTarget] and [CController] objects, and the two
    enumerations the code walks with [for] loops (the controller roster and
    the extracted route).  The header is
    not part of the repository: these definitions follow the spec (sections
    3 and 6).  A snapshot record holds what the accessors the code calls
    return during one handler call. *)

From stdpp Require Import base strings list.
From Stdlib Require Import ZArith String.
From S2P Require Import Prelude.

Module Host.

(** [FLIGHT_PLAN_STATE_*]. *)
Inductive FlightPlanState :=
| FLIGHT_PLAN_STATE_NON_CONCERNED
| FLIGHT_PLAN_STATE_NOTIFIED
| FLIGHT_PLAN_STATE_COORDINATED
| FLIGHT_PLAN_STATE_TRANSFER_TO_ME_INITIATED
| FLIGHT_PLAN_STATE_TRANSFER_FROM_ME_INITIATED
| FLIGHT_PLAN_STATE_ASSUMED
| FLIGHT_PLAN_STATE_REDUNDANT.

#[export] Instance FlightPlanState_eq_dec : EqDecision FlightPlanState.
Proof. solve_decision. Defined.

(** [COORDINATION_STATE_*]; an [int] field of [CoordinationInfo] starts at
    0, which is [COORDINATION_STATE_NONE]. *)
Inductive CoordinationState :=
| COORDINATION_STATE_NONE
| COORDINATION_STATE_REQUESTED_BY_ME
| COORDINATION_STATE_REQUESTED_BY_OTHER
| COORDINATION_STATE_ACCEPTED
| COORDINATION_STATE_REFUSED
| COORDINATION_STATE_MANUAL_ACCEPTED.

#[export] Instance CoordinationState_eq_dec : EqDecision CoordinationState.
Proof. solve_decision. Defined.

(** The [coordinationType] argument of [OnFlightPlanCoordinationStateChange]. *)
Inductive CoordinationType :=
| TAG_ITEM_TYPE_COPN_COPX_ALTITUDE
| TAG_ITEM_TYPE_COPN_COPX_NAME
| TAG_ITEM_TYPE_OTHER_COORDINATION.

(** [TAG_COLOR_*] values a renderer writes to [*pColorCode]. *)
Inductive TagColor :=
| TAG_COLOR_ONGOING_REQUEST_FROM_ME
| TAG_COLOR_ONGOING_REQUEST_TO_ME
| TAG_COLOR_ONGOING_REQUEST_ACCEPTED
| TAG_COLOR_ONGOING_REQUEST_REFUSED.

#[export] Instance TagColor_eq_dec : EqDecision TagColor.
Proof. solve_decision. Defined.

(** A [CFlightPlan] as its accessors return it. *)
Record FlightPlan := mkFlightPlan {
  fp_IsValid : bool;
  fp_GetCallsign : string;
  fp_GetState : FlightPlanState;
  fp_GetPlanType : string;                     (* GetFlightPlanData().GetPlanType() *)
  fp_GetOrigin : string;                       (* GetFlightPlanData().GetOrigin() *)
  fp_GetDestination : string;                  (* GetFlightPlanData().GetDestination() *)
  fp_GetClearedAltitude : Z;
  fp_GetFinalAltitude : Z;
  fp_GetExtractedRoute : list string;          (* GetPointName(i), i < GetPointsNumber() *)
  fp_GetTrackingControllerId : string;
  fp_GetExitCoordinationAltitude : Z;
  fp_GetExitCoordinationAltitudeState : CoordinationState;
  fp_GetExitCoordinationPointName : string;
  fp_GetExitCoordinationNameState : CoordinationState
}.

(** A [CRadarTarget]: its validity and that of its correlated flight plan. *)
Record RadarTarget := mkRadarTarget {
  rt_IsValid : bool;
  rt_CorrelatedIsValid : bool
}.

(** A [CController] of the roster [ControllerSelectFirst]/[ControllerSelectNext]. *)
Record Controller := mkController {
  ctr_GetCallsign : string;
  ctr_GetPositionId : string
}.

(** The host's roster walk (spec 6, "enumerable active sessions"):
    [ControllerSelectFirst()] and [ControllerSelectNext(c)] return a
    [CController] handle designating a session of the host's roster, and
    [IsValid()] fails past its end.  A handle is its position in the
    roster; an invalid handle reads as an empty controller. *)
Definition ControllerSelectFirst : nat := 0.

Definition ControllerSelectNext (c : nat) : nat := S c.

Definition ctr_IsValid (roster : list Controller) (c : nat) : bool :=
  bool_decide (c < List.length roster)%nat.

Definition ctr_at (roster : list Controller) (c : nat) : Controller :=
  default (mkController "" "") (roster !! c).

(** [CFlightPlanExtractedRoute]: [GetPointsNumber()] and [GetPointName(i)].
    [route_of_points] is the route whose points a [FlightPlan] snapshot
    lists in [fp_GetExtractedRoute]. *)
Record ExtractedRoute := mkExtractedRoute {
  GetPointsNumber : Z;
  GetPointName : Z -> string
}.

Definition route_of_points (pts : list string) : ExtractedRoute :=
  mkExtractedRoute (Z.of_nat (List.length pts)) (fun i => default "" (pts !! Z.to_nat i)).

End Host.
