(* ===== verification/Airport.v ===== *)
(** * The airport matcher

    [processAirportList] (the lambda of [LoadLOAsFromJSON], LOAPlugin.cpp)
    splits the raw origin or destination list of a rule into a set of exact
    4-character codes and a list of prefixes; [LOAPlugin::MatchesAirport]
    tests an airport code against both.  The theorems show that the split
    is a lossless partition of the raw list and characterise a match in
    terms of the raw list alone (spec 4.1). *)

From stdpp Require Import base gmap strings list.
From Stdlib Require Import ZArith String Bool Lia.
From S2P Require Import Prelude.

Module AirportMatcher.

(** [a.length() == 4]. *)
Definition is_exact_code (a : string) : bool := (String.length a =? 4)%nat.

(** [processAirportList(list, exact, prefixes)]: each code of length 4 is
    inserted in [exact], every other one is pushed back on [prefixes]. *)
Fixpoint processAirportList (l : list string) (exact : gset string) (prefixes : list string)
  : gset string * list string :=
  match l with
  | [] => (exact, prefixes)
  | a :: l' =>
      if is_exact_code a then processAirportList l' ({[a]} ∪ exact) prefixes
      else processAirportList l' exact (prefixes ++ [a])
  end.

(** [MatchesAirport(exactSet, prefixes, airport)]: [exactSet.count(airport)],
    else some prefix with [airport.compare(0, prefix.length(), prefix) == 0],
    which holds exactly when [prefix] is a prefix of [airport]. *)
Definition MatchesAirport (exactSet : gset string) (prefixes : list string) (airport : string) : bool :=
  bool_decide (airport ∈ exactSet) || existsb (fun prefix => String.prefix prefix airport) prefixes.

(** The split the loader computes from a raw list, starting from the empty
    containers of a fresh [LOAEntry]. *)
Definition split_airports (raw : list string) : gset string * list string :=
  processAirportList raw ∅ [].

(** A code of the raw list accepts [code] (spec 4.1 and 8): verbatim when
    it has 4 characters, as a literal prefix ([code] is [a] followed by
    anything) otherwise. *)
Definition raw_accepts (a code : string) : Prop :=
  (String.length a = 4%nat /\ a = code) \/ (String.length a <> 4%nat /\ exists suf, code = (a ++ suf)%string).

(** ** Lemmas *)

Lemma processAirportList_eq l exact prefixes :
  processAirportList l exact prefixes =
    (list_to_set (filter (fun a => is_exact_code a = true) l) ∪ exact,
     prefixes ++ filter (fun a => is_exact_code a = false) l).
Proof.
  revert exact prefixes; induction l as [|a l IH]; intros exact prefixes; simpl.
  - by rewrite app_nil_r, (left_id_L ∅ union).
  - destruct (is_exact_code a) eqn:Ha; rewrite IH.
    + rewrite filter_cons_True, filter_cons_False by (rewrite Ha; discriminate || done).
      f_equal. set_solver.
    + rewrite filter_cons_False, filter_cons_True by (rewrite Ha; discriminate || done).
      by rewrite <- app_assoc.
Qed.

Lemma MatchesAirport_true exactSet prefixes airport :
  MatchesAirport exactSet prefixes airport = true <->
  airport ∈ exactSet \/ exists p, p ∈ prefixes /\ String.prefix p airport = true.
Proof.
  unfold MatchesAirport. rewrite orb_true_iff, bool_decide_eq_true, existsb_exists.
  setoid_rewrite list_elem_of_In. naive_solver.
Qed.

(** The split of a raw list is a lossless partition by length. *)
Lemma split_airports_spec raw :
  (forall a, a ∈ (split_airports raw).1 <-> a ∈ raw /\ is_exact_code a = true) /\
  (split_airports raw).2 = filter (fun a => is_exact_code a = false) raw.
Proof.
  unfold split_airports. rewrite processAirportList_eq. simpl. split; [|done].
  intros a. rewrite elem_of_union, elem_of_list_to_set, list_elem_of_filter. set_solver.
Qed.

Lemma split_airports_raw_accepts raw code :
  MatchesAirport (split_airports raw).1 (split_airports raw).2 code = true <->
  exists a, a ∈ raw /\ raw_accepts a code.
Proof.
  destruct (split_airports_spec raw) as [Hex Hpre].
  rewrite MatchesAirport_true, Hex, Hpre. unfold raw_accepts, is_exact_code.
  setoid_rewrite list_elem_of_filter. setoid_rewrite prefix_app_spec.
  setoid_rewrite Nat.eqb_eq. setoid_rewrite Nat.eqb_neq. split.
  - intros [[Hin H4]|(p & [H4 Hin] & Hp)].
    + exists code. naive_solver.
    + exists p. naive_solver.
  - intros (a & Hin & [[H4 <-]|[H4 Hp]]); [left|right]; eauto.
Qed.

(** ** Theorems *)

(** C15: refinement of the airport contract of spec 4.1.  For the split
    the loader builds, [MatchesAirport] accepts a code exactly when some
    code of the raw list accepts it: verbatim for a 4-character code, as a
    literal prefix for any other length. *)
Theorem MatchesAirport_refines_raw raw code :
  let '(exactSet, prefixes) := split_airports raw in
  MatchesAirport exactSet prefixes code = true <-> exists a, a ∈ raw /\ raw_accepts a code.
Proof.
  pose proof (split_airports_raw_accepts raw code) as H.
  destruct (split_airports raw) as [e p]. exact H.
Qed.

(** the split is a lossless partition of the raw list: every raw code
    lands in exactly one of the two containers, the exact set holds only
    4-character codes and the prefix list none. *)
Theorem split_airports_lossless raw :
  let '(exactSet, prefixes) := split_airports raw in
  (forall a, a ∈ raw <-> a ∈ exactSet \/ a ∈ prefixes) /\
  (forall a, a ∈ exactSet -> String.length a = 4%nat) /\
  (forall a, a ∈ prefixes -> String.length a <> 4%nat) /\
  (forall a, ~ (a ∈ exactSet /\ a ∈ prefixes)).
Proof.
  destruct (split_airports_spec raw) as [Hex Hpre].
  destruct (split_airports raw) as [e p]; simpl in *. subst p.
  unfold is_exact_code in *. split; [|split; [|split]]; intros a.
  - rewrite Hex, list_elem_of_filter. destruct (String.length a =? 4)%nat; naive_solver.
  - rewrite Hex. intros [_ H]. by apply Nat.eqb_eq.
  - rewrite list_elem_of_filter. intros [H _]. by apply Nat.eqb_neq.
  - rewrite Hex, list_elem_of_filter. intros [[_ H1] [H2 _]]. congruence.
Qed.

(** a 4-character code listed verbatim always matches; and when every
    raw code has 4 characters the match is plain membership: a listed
    4-character code is never used as a prefix (spec 8). *)
Theorem MatchesAirport_exact_codes raw code :
  (forall a, a ∈ raw -> String.length a = 4%nat) ->
  MatchesAirport (split_airports raw).1 (split_airports raw).2 code = true <-> code ∈ raw.
Proof.
  intros H4. rewrite split_airports_raw_accepts. unfold raw_accepts. split.
  - intros (a & Hin & [[_ <-]|[Hne _]]); [done|]. by apply H4 in Hin.
  - intros Hin. exists code. split; [done|left]. auto.
Qed.

Lemma MatchesAirport_exact_codes_witness :
  (forall a, a ∈ ["EGLL"; "EGKK"] -> String.length a = 4%nat) /\
  MatchesAirport (split_airports ["EGLL"; "EGKK"]).1 (split_airports ["EGLL"; "EGKK"]).2 "EGKK" = true.
Proof.
  assert (H : forall a, a ∈ ["EGLL"; "EGKK"] -> String.length a = 4%nat).
  { intros a Ha. repeat (apply elem_of_cons in Ha as [->|Ha]; [reflexivity|]). by apply elem_of_nil in Ha. }
  split; [exact H|]. apply (proj2 (MatchesAirport_exact_codes _ _ H)).
  apply list_elem_of_further, list_elem_of_here.
Defined.

(** C35: a raw entry that is the empty string is stored as a prefix and
    makes every airport code match: the loader does not reject codes
    outside the 2-4 characters the spec describes. *)
Theorem empty_code_matches_every_airport raw code :
  "" ∈ raw -> MatchesAirport (split_airports raw).1 (split_airports raw).2 code = true.
Proof.
  intros Hin. apply split_airports_raw_accepts. exists "". split; [done|].
  right. split; [discriminate|]. by exists code.
Qed.

Lemma empty_code_matches_every_airport_witness :
  "" ∈ ["EG"; ""] /\ MatchesAirport (split_airports ["EG"; ""]).1 (split_airports ["EG"; ""]).2 "KJFK" = true.
Proof.
  assert (H : "" ∈ ["EG"; ""]) by (apply list_elem_of_further, list_elem_of_here).
  split; [exact H|]. apply (empty_code_matches_every_airport _ _ H).
Defined.

End AirportMatcher.
