(* ===== verification/Rules.v ===== *)
(** * The rule set and its loader

    [LOAEntry] (LOAPlugin.h) and the five global rule vectors, filled by
    [LOAPlugin::LoadLOAsFromJSON] (LOAPlugin.cpp).  The JSON document is a
    value of [json]; reading the file is an input of the loader
    ([FileMissing], [FileUnparsable] or the parsed document), because
    [std::ifstream] and the nlohmann parser are outside the repository.
    The nlohmann accessors the loader calls ([contains], [operator[]],
    iteration, [get<T>]) are modelled with the exceptions they throw.

    A pointer to a rule is a [LoaRef]: the category and index of the entry
    in its vector, and the generation of the rule vectors it was taken
    from.  The generation is ghost state that counts the reloads that
    cleared the vectors: a pointer of an older generation dangles. *)

From stdpp Require Import base gmap strings list.
From Stdlib Require Import ZArith String Bool Lia.
From S2P Require Import Prelude Airport.
Import AirportMatcher.

Module Rules.

(** ** Rules *)

Record LOAEntry := mkLOAEntry {
  sectors : list string;
  waypoints : list string;
  originAirports : list string;
  destinationAirports : list string;
  nextSectors : list string;
  xfl : Z;
  copText : string;
  requireNextSectorOnline : bool;
  minAltitudeFt : Z;
  originAirportSet : gset string;
  originAirportPrefixes : list string;
  destinationAirportSet : gset string;
  destinationAirportPrefixes : list string
}.

(** [LOAEntry loa;]: the member initialisers. *)
Definition default_LOAEntry : LOAEntry := {|
  sectors := []; waypoints := []; originAirports := []; destinationAirports := [];
  nextSectors := []; xfl := 0; copText := "COPX"; requireNextSectorOnline := false;
  minAltitudeFt := 0; originAirportSet := ∅; originAirportPrefixes := [];
  destinationAirportSet := ∅; destinationAirportPrefixes := []
|}.

(** The five vectors [destinationLoas], [departureLoas], [lorArrivals],
    [lorDepartures], [fallbackLoas]. *)
Inductive LoaCategory :=
| DestinationLoas | DepartureLoas | LorArrivals | LorDepartures | FallbackLoas.

#[export] Instance LoaCategory_eq_dec : EqDecision LoaCategory.
Proof. solve_decision. Defined.

Record RuleSet := mkRuleSet {
  destinationLoas : list LOAEntry;
  departureLoas : list LOAEntry;
  lorArrivals : list LOAEntry;
  lorDepartures : list LOAEntry;
  fallbackLoas : list LOAEntry
}.

Definition empty_RuleSet : RuleSet := mkRuleSet [] [] [] [] [].

Definition category_entries (rs : RuleSet) (c : LoaCategory) : list LOAEntry :=
  match c with
  | DestinationLoas => destinationLoas rs
  | DepartureLoas => departureLoas rs
  | LorArrivals => lorArrivals rs
  | LorDepartures => lorDepartures rs
  | FallbackLoas => fallbackLoas rs
  end.

(** [destinationLoas = ...] and the like. *)
Definition set_category (c : LoaCategory) (l : list LOAEntry) (rs : RuleSet) : RuleSet :=
  match c with
  | DestinationLoas => mkRuleSet l (departureLoas rs) (lorArrivals rs) (lorDepartures rs) (fallbackLoas rs)
  | DepartureLoas => mkRuleSet (destinationLoas rs) l (lorArrivals rs) (lorDepartures rs) (fallbackLoas rs)
  | LorArrivals => mkRuleSet (destinationLoas rs) (departureLoas rs) l (lorDepartures rs) (fallbackLoas rs)
  | LorDepartures => mkRuleSet (destinationLoas rs) (departureLoas rs) (lorArrivals rs) l (fallbackLoas rs)
  | FallbackLoas => mkRuleSet (destinationLoas rs) (departureLoas rs) (lorArrivals rs) (lorDepartures rs) l
  end.

(** The rule vectors and the ghost generation of their storage. *)
Record RuleStore := mkRuleStore {
  rules : RuleSet;
  rules_generation : nat
}.

(** A [const LOAEntry*] into one of the vectors. *)
Record LoaRef := mkLoaRef {
  ref_generation : nat;
  ref_category : LoaCategory;
  ref_index : nat
}.

#[export] Instance LoaRef_eq_dec : EqDecision LoaRef.
Proof. solve_decision. Defined.

(** Dereferencing a pointer: [None] when it dangles. *)
Definition deref (st : RuleStore) (r : LoaRef) : option LOAEntry :=
  if decide (ref_generation r = rules_generation st)
  then category_entries (rules st) (ref_category r) !! ref_index r
  else None.

(** ** Well-formed rules: the derived airport structures are the split of
    the raw lists (spec 3, "derived sets are a lossless partition"). *)
Definition entry_wf (e : LOAEntry) : Prop :=
  (originAirportSet e, originAirportPrefixes e) = split_airports (originAirports e) /\
  (destinationAirportSet e, destinationAirportPrefixes e) = split_airports (destinationAirports e).

Definition ruleset_wf (rs : RuleSet) : Prop :=
  forall c e, e ∈ category_entries rs c -> entry_wf e.

(** What the loader can produce: well formed, no [sectors] (no key of the
    document fills them), and the two [int] fields within 32 bits. *)
Definition entry_loadable (e : LOAEntry) : Prop :=
  entry_wf e /\ sectors e = [] /\ is_int32 (xfl e) /\ is_int32 (minAltitudeFt e).

Definition ruleset_loadable (rs : RuleSet) : Prop :=
  forall c e, e ∈ category_entries rs c -> entry_loadable e.

Lemma ruleset_loadable_wf rs : ruleset_loadable rs -> ruleset_wf rs.
Proof. intros H c e He. apply (H c e He). Qed.

End Rules.
