(* ===== verification/Loader.v ===== *)
(** * Loading the rule set: [LOAPlugin::LoadLOAsFromJSON]

    The JSON document is a [json] value (numbers are integers: the rule
    fields the loader reads are integers, booleans, strings and arrays of
    strings).  The nlohmann accessors are modelled as the library behaves:
    - [j.contains(k)] is false unless [j] is an object with key [k];
    - a range-for over [j] visits the elements of an array, the values of
      an object, nothing for [null] and [j] itself for any other value;
    - [get<std::vector<std::string>>], [get<std::string>] and [get<bool>]
      throw [type_error] 302 on a value of another type; [get<int>] accepts
      numbers and booleans and narrows to 32 bits.
    A thrown [type_error] is not caught by the loader: it leaves the
    function, with the rule vectors as far as they were assigned.  The
    theorems state each outcome: success, open failure, parse failure,
    the escaping exception, and the well-formedness of every loaded rule.
    [JsonCodec] is the contract of a typed getter: it inverts an encoder
    and produces only representable values.  With [encode_LOAEntry] it
    gives the round trip of [parseLOAEntry] on the loadable rules and the
    exact image of [parseLOAList]. *)

From stdpp Require Import base gmap strings list.
From Stdlib Require Import ZArith String Ascii Bool Lia.
From S2P Require Import Prelude Airport Rules.
Import AirportMatcher Rules.

Module Loader.

Local Open Scope Z_scope.

(** ** JSON values and accessors *)

Inductive json :=
| JNull
| JBool (b : bool)
| JNumber (z : Z)
| JString (s : string)
| JArray (elems : list json)
| JObject (fields : list (string * json)).

(** [nlohmann::json::type_error] 302: the expected type and the value. *)
Inductive json_error := type_error_302 (expected : string) (actual : json).

(** A computation that may throw. *)
Definition except (A : Type) : Type := (json_error + A)%type.

Declare Scope except_scope.
Delimit Scope except_scope with except.
Notation "x <- m ;; k" := (match m with inl e => inl e | inr x => k end)
  (at level 60, m at next level, right associativity) : except_scope.
Local Open Scope except_scope.

Definition key_is (key : string) (f : string * json) : bool := String.eqb f.1 key.

(** [j.contains(key)] *)
Definition contains (j : json) (key : string) : bool :=
  match j with JObject fs => existsb (key_is key) fs | _ => false end.

(** [j[key]] on a [const json&]; every call is guarded by [contains].
    The first entry of a duplicated key is taken, where nlohmann keeps the
    last one: the two agree on documents without duplicate keys. *)
Definition at_key (j : json) (key : string) : json :=
  match j with
  | JObject fs => match List.find (key_is key) fs with Some (_, v) => v | None => JNull end
  | _ => JNull
  end.

(** [for (const auto& item : j)]: an object's values are visited in
    document order, where nlohmann visits them in key order; the loader
    iterates the category values, which are arrays. *)
Definition items (j : json) : list json :=
  match j with
  | JNull => []
  | JArray l => l
  | JObject fs => map snd fs
  | _ => [j]
  end.

Definition get_string (j : json) : except string :=
  match j with JString s => inr s | _ => inl (type_error_302 "string" j) end.

Definition get_bool (j : json) : except bool :=
  match j with JBool b => inr b | _ => inl (type_error_302 "boolean" j) end.

(** [static_cast<int>] of a 64-bit JSON integer. *)
Definition wrap_int32 (z : Z) : Z := ((z + 2 ^ 31) mod 2 ^ 32) - 2 ^ 31.

Definition get_int (j : json) : except Z :=
  match j with
  | JNumber z => inr (wrap_int32 z)
  | JBool b => inr (if b then 1 else 0)
  | _ => inl (type_error_302 "number" j)
  end.

Fixpoint get_strings (l : list json) : except (list string) :=
  match l with
  | [] => inr []
  | j :: l' => s <- get_string j ;; ss <- get_strings l' ;; inr (s :: ss)
  end.

Definition get_string_vector (j : json) : except (list string) :=
  match j with JArray l => get_strings l | _ => inl (type_error_302 "array" j) end.

(** [if (item.contains(key)) field = item[key].get<T>();] *)
Definition opt_field {A} (item : json) (key : string) (get : json -> except A) (dflt : A) : except A :=
  if contains item key then get (at_key item key) else inr dflt.

(** ** [parseLOAList] *)

(** The body of the loop of [parseLOAList]: one [LOAEntry], the airport
    lists split by [processAirportList] when they are present. *)
Definition parseLOAEntry (item : json) : except LOAEntry :=
  let d := default_LOAEntry in
  origins <- opt_field item "origins" get_string_vector (originAirports d) ;;
  dests <- opt_field item "destinations" get_string_vector (destinationAirports d) ;;
  wps <- opt_field item "waypoints" get_string_vector (waypoints d) ;;
  nexts <- opt_field item "nextSectors" get_string_vector (nextSectors d) ;;
  cop <- opt_field item "copText" get_string (copText d) ;;
  req <- opt_field item "requireNextSectorOnline" get_bool (requireNextSectorOnline d) ;;
  x <- opt_field item "xfl" get_int (xfl d) ;;
  minalt <- opt_field item "minAltitudeFt" get_int (minAltitudeFt d) ;;
  let osplit :=
    if contains item "origins"
    then processAirportList origins (originAirportSet d) (originAirportPrefixes d)
    else (originAirportSet d, originAirportPrefixes d) in
  let dsplit :=
    if contains item "destinations"
    then processAirportList dests (destinationAirportSet d) (destinationAirportPrefixes d)
    else (destinationAirportSet d, destinationAirportPrefixes d) in
  inr {| sectors := sectors d; waypoints := wps; originAirports := origins;
         destinationAirports := dests; nextSectors := nexts; xfl := x; copText := cop;
         requireNextSectorOnline := req; minAltitudeFt := minalt;
         originAirportSet := osplit.1; originAirportPrefixes := osplit.2;
         destinationAirportSet := dsplit.1; destinationAirportPrefixes := dsplit.2 |}.

Fixpoint parseLOAItems (l : list json) : except (list LOAEntry) :=
  match l with
  | [] => inr []
  | item :: l' => e <- parseLOAEntry item ;; es <- parseLOAItems l' ;; inr (e :: es)
  end.

(** [parseLOAList(array, isFallback)]: [isFallback] is not read. *)
Definition parseLOAList (array : json) : except (list LOAEntry) := parseLOAItems (items array).

(** ** Writing a rule back as JSON

    The document a rule would be loaded from: one key per field the loader
    reads.  The loader has no writer; this is the reference against which
    the parser's round trip is stated. *)
Definition encode_strings (l : list string) : json := JArray (map JString l).

Definition encode_LOAEntry (e : LOAEntry) : json :=
  JObject [("origins", encode_strings (originAirports e));
           ("destinations", encode_strings (destinationAirports e));
           ("waypoints", encode_strings (waypoints e));
           ("nextSectors", encode_strings (nextSectors e));
           ("copText", JString (copText e));
           ("requireNextSectorOnline", JBool (requireNextSectorOnline e));
           ("xfl", JNumber (xfl e));
           ("minAltitudeFt", JNumber (minAltitudeFt e))].

(** ** [LoadLOAsFromJSON] *)

(** What [std::ifstream] and [inFile >> config] produce. *)
Inductive ConfigFile :=
| FileMissing
| FileUnparsable (what : string)
| FileJson (config : json).

(** The messages of [DisplayUserMessage]. *)
Inductive UserMessage :=
| MsgJsonLoadError (filePath : string)
| MsgJsonParseError (what : string)
| MsgLoadSuccess (sector : string).

Inductive LoadOutcome :=
| LoadSkipped
| LoadOpenFailed
| LoadParseFailed
| LoadThrew (e : json_error)
| LoadSucceeded.

Record LoaderState := mkLoaderState {
  loadedSector : string;
  store : RuleStore
}.

(** [basePath]: the directory of the DLL path, or ["."]. *)
Fixpoint last_slash (s : string) (i : nat) (acc : option nat) : option nat :=
  match s with
  | EmptyString => acc
  | String c s' =>
      let acc' := if (Ascii.eqb c "\"%char || Ascii.eqb c "/"%char) then Some i else acc in
      last_slash s' (S i) acc'
  end.

Definition base_path (dllPath : string) : string :=
  match last_slash dllPath 0%nat None with
  | Some k => substring 0 k dllPath
  | None => "."
  end.

Definition config_path (dllPath mySector : string) : string :=
  base_path dllPath +:+ "\loa_configs_json\" +:+ mySector +:+ ".json".

(** The five assignments of lines 146-150, in order; an exception stops
    them with the vectors assigned so far. *)
Definition category_keys : list (string * LoaCategory) :=
  [("destinationLoas", DestinationLoas); ("departureLoas", DepartureLoas);
   ("lorArrivals", LorArrivals); ("lorDepartures", LorDepartures);
   ("fallbackLoas", FallbackLoas)].

Fixpoint assign_categories (config : json) (keys : list (string * LoaCategory)) (rs : RuleSet)
  : RuleSet * option json_error :=
  match keys with
  | [] => (rs, None)
  | (k, c) :: ks =>
      if contains config k then
        match parseLOAList (at_key config k) with
        | inr l => assign_categories config ks (set_category c l rs)
        | inl e => (rs, Some e)
        end
      else assign_categories config ks rs
  end.

Definition LoadLOAsFromJSON (dllPath mySector : string) (file : ConfigFile) (st : LoaderState)
  : LoaderState * LoadOutcome * list UserMessage :=
  if String.eqb mySector "" || String.eqb mySector (loadedSector st) then (st, LoadSkipped, [])
  else
    let st1 := mkLoaderState mySector (store st) in
    match file with
    | FileMissing => (st1, LoadOpenFailed, [MsgJsonLoadError (config_path dllPath mySector)])
    | FileUnparsable what => (st1, LoadParseFailed, [MsgJsonParseError what])
    | FileJson config =>
        (* the five clear() calls end the lifetime of every entry *)
        let gen := S (rules_generation (store st)) in
        match assign_categories config category_keys empty_RuleSet with
        | (rs, None) => (mkLoaderState mySector (mkRuleStore rs gen), LoadSucceeded, [MsgLoadSuccess mySector])
        | (rs, Some e) => (mkLoaderState mySector (mkRuleStore rs gen), LoadThrew e, [])
        end
    end.

(** ** Sample documents *)

(** One destination rule (spec 8), and a departure rule whose [xfl] is a
    string. *)
Definition sample_destination_rule : json :=
  JObject [("destinations", JArray [JString "KJFK"]); ("waypoints", JArray [JString "LENDY"]);
           ("xfl", JNumber 140); ("copText", JString "LENDY")].

Definition sample_config : json :=
  JObject [("destinationLoas", JArray [sample_destination_rule]);
           ("fallbackLoas", JArray [JObject [("minAltitudeFt", JNumber 24500)]])].

Definition mistyped_config : json :=
  JObject [("destinationLoas", JArray [sample_destination_rule]);
           ("departureLoas", JArray [JObject [("xfl", JString "350")]])].

(** ** Lemmas *)

(** Case on the first [match] on an [except] value in a hypothesis. *)
Ltac except_cases H :=
  repeat match type of H with
  | context [match ?m with inl _ => _ | inr _ => _ end] =>
      let E := fresh "E" in destruct m eqn:E; [discriminate H|]
  end.

Lemma processAirportList_default l :
  processAirportList l ∅ [] = split_airports l.
Proof. reflexivity. Qed.

Lemma parseLOAEntry_wf item e : parseLOAEntry item = inr e -> entry_wf e.
Proof.
  unfold parseLOAEntry, opt_field. intros H. except_cases H.
  injection H as <-. unfold entry_wf; simpl.
  destruct (contains item "origins"), (contains item "destinations");
    simpl in *; try injection E as <-; try injection E0 as <-;
    split; rewrite <- ?surjective_pairing; reflexivity.
Qed.

Lemma wrap_int32_range z : is_int32 (wrap_int32 z).
Proof. unfold wrap_int32, is_int32. pose proof (Z.mod_pos_bound (z + 2 ^ 31) (2 ^ 32)). lia. Qed.

Lemma wrap_int32_small z : is_int32 z -> wrap_int32 z = z.
Proof. unfold wrap_int32, is_int32. intros. rewrite Z.mod_small; lia. Qed.

(** ** The field readers as codecs

    Each [get<T>] the loader calls has an encoding it reads back, on the
    values it can represent, and yields only such values. *)
Class JsonCodec {A : Type} (get : json -> except A) := {
  encode : A -> json;
  representable : A -> Prop;
  get_encode x : representable x -> get (encode x) = inr x;
  get_representable j x : get j = inr x -> representable x
}.
Arguments encode {A} get {_} _.
Arguments representable {A} get {_} _.

#[export] Instance get_string_codec : JsonCodec get_string.
Proof. refine {| encode := JString; representable _ := True |}; done. Defined.

#[export] Instance get_bool_codec : JsonCodec get_bool.
Proof. refine {| encode := JBool; representable _ := True |}; done. Defined.

#[export] Instance get_int_codec : JsonCodec get_int.
Proof.
  refine {| encode := JNumber; representable := is_int32 |}.
  - intros x Hx. simpl. by rewrite wrap_int32_small.
  - intros [| [] | z | | |] x; simpl; intros [= <-]; [unfold is_int32; lia..|apply wrap_int32_range].
Defined.

Lemma get_strings_map l : get_strings (map JString l) = inr l.
Proof. induction l as [|s l IH]; simpl; [done|]. by rewrite IH. Qed.

#[export] Instance get_string_vector_codec : JsonCodec get_string_vector.
Proof. refine {| encode := encode_strings; representable _ := True |}; [intros l _; apply get_strings_map|done]. Defined.

(** [if (item.contains(key)) field = item[key].get<T>();] keeps a
    representable default representable. *)
Lemma opt_field_representable {A} (get : json -> except A) `{!JsonCodec get} item key d x :
  representable get d -> opt_field item key get d = inr x -> representable get x.
Proof. intros Hd. unfold opt_field. destruct (contains item key); [apply get_representable|by intros [= <-]]. Qed.

(** [get<int>] only ever yields an [int]. *)
Lemma opt_field_int32 item key d x :
  is_int32 d -> opt_field item key get_int d = inr x -> is_int32 x.
Proof. exact (opt_field_representable get_int item key d x). Qed.

Lemma parseLOAEntry_loadable item e : parseLOAEntry item = inr e -> entry_loadable e.
Proof.
  intros H. split; [by eapply parseLOAEntry_wf|].
  unfold parseLOAEntry in H. except_cases H. injection H as <-. simpl.
  split; [done|]. split; eapply opt_field_int32; eauto; unfold is_int32; simpl; lia.
Qed.

Lemma parseLOAItems_loadable l es : parseLOAItems l = inr es -> Forall entry_loadable es.
Proof.
  revert es; induction l as [|item l IH]; intros es H; simpl in H.
  - injection H as <-. constructor.
  - except_cases H. injection H as <-. constructor; eauto using parseLOAEntry_loadable.
Qed.

Lemma set_category_entries c l rs c' :
  category_entries (set_category c l rs) c' = if decide (c = c') then l else category_entries rs c'.
Proof. destruct c, c'; reflexivity. Qed.

Lemma empty_RuleSet_loadable : ruleset_loadable empty_RuleSet.
Proof. intros [] e He; by apply elem_of_nil in He. Qed.

Lemma set_category_loadable c l rs :
  ruleset_loadable rs -> Forall entry_loadable l -> ruleset_loadable (set_category c l rs).
Proof.
  intros Hrs Hl c' e. rewrite set_category_entries. case_decide.
  - rewrite Forall_forall in Hl. intros He. by apply Hl.
  - apply Hrs.
Qed.

Lemma assign_categories_loadable config keys rs :
  ruleset_loadable rs -> ruleset_loadable (assign_categories config keys rs).1.
Proof.
  revert rs; induction keys as [|[k c] keys IH]; intros rs Hrs; simpl; [done|].
  destruct (contains config k); [|auto].
  destruct (parseLOAList (at_key config k)) as [e|l] eqn:Hp; simpl; [done|].
  apply IH, set_category_loadable; [done|]. by apply parseLOAItems_loadable in Hp.
Qed.

(** A category whose key is not in the list is left as it was. *)
Lemma assign_categories_other config keys rs c :
  c ∉ keys.*2 -> category_entries (assign_categories config keys rs).1 c = category_entries rs c.
Proof.
  revert rs; induction keys as [|[k c'] keys IH]; intros rs Hc; simpl; [done|].
  rewrite fmap_cons, not_elem_of_cons in Hc. destruct Hc as [Hne Hc].
  destruct (contains config k); [|auto].
  destruct (parseLOAList (at_key config k)); simpl; [done|].
  rewrite IH, set_category_entries by done. by rewrite decide_False.
Qed.

(** The categories a run of [assign_categories] without exception leaves:
    the parsed list when the key is present, the initial one otherwise. *)
Lemma assign_categories_ok config keys rs rs' :
  NoDup keys.*2 ->
  assign_categories config keys rs = (rs', None) ->
  forall k c, (k, c) ∈ keys ->
  (contains config k = true /\ parseLOAList (at_key config k) = inr (category_entries rs' c))
  \/ (contains config k = false /\ category_entries rs' c = category_entries rs c).
Proof.
  revert rs; induction keys as [|[k c] keys IH]; intros rs Hnd Hrun k' c' Hin;
    [by apply elem_of_nil in Hin|].
  rewrite fmap_cons, NoDup_cons in Hnd. destruct Hnd as [Hc Hnd]. simpl in Hrun.
  apply elem_of_cons in Hin as [[= -> ->]|Hin].
  - pose proof (assign_categories_other config keys) as Hother.
    destruct (contains config k) eqn:Hk.
    + destruct (parseLOAList (at_key config k)) as [e|l] eqn:Hp; [discriminate|].
      left. split; [done|]. rewrite <- Hp. specialize (Hother (set_category c l rs) c Hc).
      rewrite Hrun in Hother. simpl in Hother. rewrite Hother, set_category_entries, decide_True; done.
    + right. split; [done|]. specialize (Hother rs c Hc). by rewrite Hrun in Hother.
  - destruct (contains config k).
    + destruct (parseLOAList (at_key config k)) as [e|l]; [discriminate|].
      destruct (IH _ Hnd Hrun k' c' Hin) as [H|[H1 H2]]; [by left|right].
      split; [done|]. rewrite H2, set_category_entries, decide_False; [done|].
      intros ->. apply Hc. apply list_elem_of_fmap. exists (k', c'). done.
    + exact (IH _ Hnd Hrun k' c' Hin).
Qed.

(** A run of [assign_categories] that throws: some key's list threw, the
    categories of the keys before it are assigned as in a successful run,
    and the category of that key and of every later one is untouched. *)
Lemma assign_categories_error config keys rs rs' e :
  NoDup keys.*2 ->
  assign_categories config keys rs = (rs', Some e) ->
  exists pre k c post, keys = pre ++ (k, c) :: post /\ contains config k = true /\
    parseLOAList (at_key config k) = inl e /\
    (forall k' c', (k', c') ∈ pre ->
       (contains config k' = true /\ parseLOAList (at_key config k') = inr (category_entries rs' c'))
       \/ (contains config k' = false /\ category_entries rs' c' = category_entries rs c')) /\
    (forall k' c', (k', c') ∈ (k, c) :: post -> category_entries rs' c' = category_entries rs c').
Proof.
  revert rs; induction keys as [|[k c] keys IH]; intros rs Hnd Hrun; [discriminate|].
  rewrite fmap_cons, NoDup_cons in Hnd. destruct Hnd as [Hc Hnd]. simpl in Hrun.
  assert (Hne : forall k' c', (k', c') ∈ keys -> c' <> c).
  { intros k' c' Hin ->. apply Hc, list_elem_of_fmap. by exists (k', c). }
  assert (Hrest : forall rs0, assign_categories config keys rs0 = (rs', Some e) ->
            category_entries rs' c = category_entries rs0 c).
  { intros rs0 H0. pose proof (assign_categories_other config keys rs0 c Hc) as Ho. by rewrite H0 in Ho. }
  destruct (contains config k) eqn:Hk; [destruct (parseLOAList (at_key config k)) as [e0|l] eqn:Hp|].
  - injection Hrun as <- <-. exists [], k, c, keys. split_and!; [done..| |done].
    intros k' c' Hin. by apply elem_of_nil in Hin.
  - destruct (IH _ Hnd Hrun) as (pre & k0 & c0 & post & -> & Hk0 & Hp0 & Hpre & Hpost).
    exists ((k, c) :: pre), k0, c0, post. split_and!; [done..| |].
    + intros k' c' [[= -> ->]|Hin]%elem_of_cons.
      * left. split; [done|]. by rewrite Hp, (Hrest _ Hrun), set_category_entries, decide_True.
      * assert (c' <> c) by (apply (Hne k'), elem_of_app; by left).
        destruct (Hpre k' c' Hin) as [Hl|[H1 H2]]; [by left|right].
        split; [done|]. by rewrite H2, set_category_entries, decide_False.
    + intros k' c' Hin. assert (c' <> c) by (apply (Hne k'), elem_of_app; by right).
      by rewrite (Hpost k' c' Hin), set_category_entries, decide_False.
  - destruct (IH _ Hnd Hrun) as (pre & k0 & c0 & post & -> & Hk0 & Hp0 & Hpre & Hpost).
    exists ((k, c) :: pre), k0, c0, post. split_and!; [done..| |done].
    intros k' c' [[= -> ->]|Hin]%elem_of_cons; [right; split; [done|by apply Hrest]|by apply Hpre].
Qed.

(** A rule the loader could have produced is read back from its JSON
    form. *)
Lemma parseLOAEntry_encode e : entry_loadable e -> parseLOAEntry (encode_LOAEntry e) = inr e.
Proof.
  intros ([Ho Hd] & Hsec & Hx & Hm).
  unfold parseLOAEntry, opt_field. simpl. rewrite !get_strings_map.
  rewrite !wrap_int32_small by done.
  rewrite !processAirportList_default, <- Ho, <- Hd.
  destruct e; simpl in *; by subst.
Qed.

#[export] Hint Resolve parseLOAEntry_loadable parseLOAItems_loadable empty_RuleSet_loadable
  set_category_loadable assign_categories_loadable wrap_int32_range : loa.

(** A call either leaves the rule store as it was (the sector guard, an
    open or a parse failure) or installs a new generation of the vectors,
    well formed whatever the document, including the runs cut short by an
    exception. *)
Lemma LoadLOAsFromJSON_store dllPath mySector file st :
  let st' := (LoadLOAsFromJSON dllPath mySector file st).1.1 in
  store st' = store st \/
  (rules_generation (store st') = S (rules_generation (store st)) /\ ruleset_loadable (rules (store st'))).
Proof.
  unfold LoadLOAsFromJSON.
  destruct (String.eqb mySector "" || String.eqb mySector (loadedSector st)); [by left|].
  destruct file as [|what|config]; [by left|by left|right].
  pose proof (assign_categories_loadable config category_keys empty_RuleSet empty_RuleSet_loadable) as H.
  destruct (assign_categories config category_keys empty_RuleSet) as [rs [e|]]; by split.
Qed.

(** A configuration file read for a new, non-empty sector always ends
    the lifetime of the previous rules, whatever the document holds. *)
Lemma LoadLOAsFromJSON_json_generation dllPath mySector config st :
  mySector <> ""%string -> mySector <> loadedSector st ->
  rules_generation (store (LoadLOAsFromJSON dllPath mySector (FileJson config) st).1.1) =
    S (rules_generation (store st)).
Proof.
  intros Hne Hnl. unfold LoadLOAsFromJSON.
  rewrite (proj2 (String.eqb_neq _ _) Hne), (proj2 (String.eqb_neq _ _) Hnl). cbn [orb].
  by destruct (assign_categories config category_keys empty_RuleSet) as [rs [e|]].
Qed.

(** ** Theorems *)

(** C16: a load that succeeds records the sector, reports success, starts
    a new generation of the rule vectors, and sets each of the five
    vectors to the parsed list of its key, or to the empty vector when the
    document lacks the key. *)
Theorem LoadLOAsFromJSON_success dllPath mySector config st st' msgs :
  LoadLOAsFromJSON dllPath mySector (FileJson config) st = (st', LoadSucceeded, msgs) ->
  loadedSector st' = mySector /\ msgs = [MsgLoadSuccess mySector] /\
  rules_generation (store st') = S (rules_generation (store st)) /\
  forall k c, (k, c) ∈ category_keys ->
    (contains config k = true /\ parseLOAList (at_key config k) = inr (category_entries (rules (store st')) c))
    \/ (contains config k = false /\ category_entries (rules (store st')) c = []).
Proof.
  unfold LoadLOAsFromJSON.
  destruct (String.eqb mySector "" || String.eqb mySector (loadedSector st)); [congruence|].
  destruct (assign_categories config category_keys empty_RuleSet) as [rs [e|]] eqn:Hrun;
    [congruence|].
  intros [= <- <-]. simpl. split_and!; [done..|].
  intros k c Hin. destruct (assign_categories_ok config category_keys empty_RuleSet rs) with (k := k) (c := c)
    as [H|[H1 H2]]; [by vm_compute; repeat constructor; set_solver|done|done|by left|].
  right. split; [done|]. rewrite H2. by destruct c.
Qed.

Lemma LoadLOAsFromJSON_success_witness :
  let st0 := mkLoaderState "" (mkRuleStore empty_RuleSet 0) in
  let '(st', out, msgs) := LoadLOAsFromJSON "C:\es\LOA.dll" "LON_S" (FileJson sample_config) st0 in
  loadedSector st' = "LON_S" /\ msgs = [MsgLoadSuccess "LON_S"] /\
  rules_generation (store st') = 1%nat /\ List.length (destinationLoas (rules (store st'))) = 1%nat.
Proof.
  simpl.
  destruct (LoadLOAsFromJSON_success "C:\es\LOA.dll" "LON_S" sample_config
              (mkLoaderState "" (mkRuleStore empty_RuleSet 0))
              (LoadLOAsFromJSON "C:\es\LOA.dll" "LON_S" (FileJson sample_config)
                 (mkLoaderState "" (mkRuleStore empty_RuleSet 0))).1.1
              [MsgLoadSuccess "LON_S"]) as [H1 [H2 [H3 _]]]; [reflexivity|].
  split_and!; [exact H1|reflexivity|exact H3|reflexivity].
Defined.

(** C18: when the file cannot be opened or parsed, the rule vectors are
    left as they were, but the sector is already recorded as loaded: any
    later reload for the same sector returns at once, whatever the file
    holds by then.  Spec 7 asks that a failed load leave the sector
    "not-yet-loaded so a later retry is possible". *)
Theorem LoadLOAsFromJSON_failure_blocks_retry dllPath mySector file file' st :
  mySector <> "" -> mySector <> loadedSector st ->
  (file = FileMissing \/ exists what, file = FileUnparsable what) ->
  let '(st1, _, _) := LoadLOAsFromJSON dllPath mySector file st in
  store st1 = store st /\ loadedSector st1 = mySector /\
  LoadLOAsFromJSON dllPath mySector file' st1 = (st1, LoadSkipped, []).
Proof.
  intros Hne Hnl Hfile. unfold LoadLOAsFromJSON.
  rewrite (proj2 (String.eqb_neq _ _) Hne), (proj2 (String.eqb_neq _ _) Hnl). simpl.
  destruct Hfile as [->|[what ->]]; simpl; split_and!; try done;
    rewrite ?String.eqb_refl, ?orb_true_r; done.
Qed.

Lemma LoadLOAsFromJSON_failure_blocks_retry_witness :
  let st0 := mkLoaderState "" (mkRuleStore empty_RuleSet 0) in
  "LON_S" <> "" /\ "LON_S" <> loadedSector st0 /\
  (let '(st1, _, _) := LoadLOAsFromJSON "C:\es\LOA.dll" "LON_S" FileMissing st0 in
   store st1 = store st0 /\ loadedSector st1 = "LON_S" /\
   LoadLOAsFromJSON "C:\es\LOA.dll" "LON_S" (FileJson sample_config) st1 = (st1, LoadSkipped, [])).
Proof.
  simpl. split; [discriminate|]. split; [discriminate|].
  exact (LoadLOAsFromJSON_failure_blocks_retry "C:\es\LOA.dll" "LON_S" FileMissing
           (FileJson sample_config) (mkLoaderState "" (mkRuleStore empty_RuleSet 0))
           ltac:(discriminate) ltac:(discriminate) (or_introl eq_refl)).
Defined.

(** C17: a field of the wrong type throws out of the loader after the
    vectors were cleared, whatever the rules were before: when the reload
    ends with a [type_error], the sector is recorded, no message is shown,
    the generation moves on, and for the key whose list threw the
    categories of the keys before it hold their parsed lists (or nothing)
    while its own category and all later ones are empty: a partial rule
    set replaces the previous rules.  Spec 6-7 require that a failed
    reload install no partial rule collection and leave the prior rules in
    place. *)
Theorem LoadLOAsFromJSON_type_error_partial dllPath mySector config st st' e msgs :
  LoadLOAsFromJSON dllPath mySector (FileJson config) st = (st', LoadThrew e, msgs) ->
  msgs = [] /\ loadedSector st' = mySector /\
  rules_generation (store st') = S (rules_generation (store st)) /\
  exists pre k c post, category_keys = pre ++ (k, c) :: post /\
    contains config k = true /\ parseLOAList (at_key config k) = inl e /\
    (forall k' c', (k', c') ∈ pre ->
       (contains config k' = true /\ parseLOAList (at_key config k') = inr (category_entries (rules (store st')) c'))
       \/ (contains config k' = false /\ category_entries (rules (store st')) c' = [])) /\
    (forall k' c', (k', c') ∈ (k, c) :: post -> category_entries (rules (store st')) c' = []).
Proof.
  unfold LoadLOAsFromJSON.
  destruct (String.eqb mySector "" || String.eqb mySector (loadedSector st)); [congruence|].
  destruct (assign_categories config category_keys empty_RuleSet) as [rs [e'|]] eqn:Hrun; [|congruence].
  intros [= <- <- <-]. simpl. split_and!; [done..|].
  destruct (assign_categories_error config category_keys empty_RuleSet rs e') as
    (pre & k & c & post & Hkeys & Hk & Hp & Hpre & Hpost); [by vm_compute; repeat constructor; set_solver|done|].
  exists pre, k, c, post. split_and!; [done..| |].
  - intros k' c' Hin. destruct (Hpre k' c' Hin) as [H|[H1 H2]]; [by left|right].
    split; [done|]. rewrite H2. by destruct c'.
  - intros k' c' Hin. rewrite (Hpost k' c' Hin). by destruct c'.
Qed.

Lemma LoadLOAsFromJSON_type_error_partial_witness :
  let st0 := mkLoaderState "LON_N" (mkRuleStore (mkRuleSet [] [default_LOAEntry] [] [] []) 3) in
  let r := LoadLOAsFromJSON "C:\es\LOA.dll" "LON_S" (FileJson mistyped_config) st0 in
  r = (r.1.1, LoadThrew (type_error_302 "number" (JString "350")), r.2) /\
  (r.2 = [] /\ loadedSector r.1.1 = "LON_S" /\
   rules_generation (store r.1.1) = S (rules_generation (store st0)) /\
   exists pre k c post, category_keys = pre ++ (k, c) :: post /\
     contains mistyped_config k = true /\
     parseLOAList (at_key mistyped_config k) = inl (type_error_302 "number" (JString "350")) /\
     (forall k' c', (k', c') ∈ pre ->
        (contains mistyped_config k' = true /\
         parseLOAList (at_key mistyped_config k') = inr (category_entries (rules (store r.1.1)) c'))
        \/ (contains mistyped_config k' = false /\ category_entries (rules (store r.1.1)) c' = [])) /\
     (forall k' c', (k', c') ∈ (k, c) :: post -> category_entries (rules (store r.1.1)) c' = [])).
Proof.
  intros st0 r.
  assert (H : r = (r.1.1, LoadThrew (type_error_302 "number" (JString "350")), r.2)) by (vm_compute; reflexivity).
  split; [exact H|]. exact (LoadLOAsFromJSON_type_error_partial _ _ _ _ _ _ _ H).
Defined.


(** C14: Round trip of the parser: a rule written back as JSON is read as
    itself exactly when the loader could have produced it (its derived
    airport sets are the split of its lists, it has no sectors, and its
    [int] fields fit in 32 bits); every rule the parser returns is such a
    rule. *)
Theorem parseLOAEntry_roundtrip e :
  parseLOAEntry (encode_LOAEntry e) = inr e <-> entry_loadable e.
Proof. split; [apply parseLOAEntry_loadable|apply parseLOAEntry_encode]. Qed.

(** C19: The lists [parseLOAList] can return are exactly the lists of rules
    the loader can produce: 32-bit [int] fields, no sectors, derived
    airport sets equal to the split of the raw lists. *)
Theorem parseLOAList_image es :
  (exists j, parseLOAList j = inr es) <-> Forall entry_loadable es.
Proof.
  split; [intros [j Hj]; by eapply parseLOAItems_loadable|].
  intros Hes. exists (JArray (encode_LOAEntry <$> es)). unfold parseLOAList; cbn [items].
  induction Hes as [|e es He _ IH]; [done|].
  rewrite fmap_cons. cbn [parseLOAItems]. by rewrite parseLOAEntry_encode, IH.
Qed.

End Loader.
