(* ===== verification/Caches.v ===== *)
(** * The plugin's caches (LOAPlugin.cpp)

    - [RouteCache]: [routeCache] and [routeCacheTime], read through
      [GetCachedRoutePoints] (3000 ms validity);
    - [MatchCache]: [matchedLOACache] and [matchTimestamps], written by
      [MatchLoaEntry] (Matcher.v) and pruned by [CleanupCache];
    - [OnlineCache]: [cachedOnlineControllers], [lastOnlineFetchTime] and
      [cachedOnlineControllersHash], read through
      [GetOnlineControllersCached] (5000 ms validity);
    - [IsLOARelevantState], [CleanupCache] and [OnFlightPlanStateChange],
      the relevance state machine of spec 4.5.
    Each handler takes the tick [GetTickCount64()] returns as an argument.
    The roster and the route are the lists the code's host loops produce;
    HostLoops.v models those loops and proves that they produce them. *)

From stdpp Require Import base gmap strings list.
From Stdlib Require Import ZArith String Ascii Bool Lia.
From S2P Require Import Prelude Host Rules.
Import Host Rules.

Module Caches.

Local Open Scope Z_scope.

Record RouteCache := mkRouteCache {
  routeCache : gmap string (list string);
  routeCacheTime : gmap string Z
}.

Record MatchCache := mkMatchCache {
  matchedLOACache : gmap string (option LoaRef);   (* nullptr is None *)
  matchTimestamps : gmap string Z
}.

Record OnlineCache := mkOnlineCache {
  cachedOnlineControllers : gset string;
  lastOnlineFetchTime : Z;
  cachedOnlineControllersHash : Z
}.

(** ** [IsLOARelevantState] *)

Definition IsLOARelevantState (state : FlightPlanState) : bool :=
  match state with
  | FLIGHT_PLAN_STATE_NOTIFIED | FLIGHT_PLAN_STATE_COORDINATED
  | FLIGHT_PLAN_STATE_TRANSFER_TO_ME_INITIATED | FLIGHT_PLAN_STATE_TRANSFER_FROM_ME_INITIATED
  | FLIGHT_PLAN_STATE_ASSUMED => true
  | FLIGHT_PLAN_STATE_NON_CONCERNED | FLIGHT_PLAN_STATE_REDUNDANT => false
  end.

(** ** [GetCachedRoutePoints] *)

(** [routeCache.count(callsign) && now - routeCacheTime[callsign] < 3000]:
    [operator[]] inserts a zero time when the key is missing. *)
Definition route_time (callsign : string) (rc : RouteCache) : Z * gmap string Z :=
  match routeCacheTime rc !! callsign with
  | Some t => (t, routeCacheTime rc)
  | None => (0, <[callsign := 0]> (routeCacheTime rc))
  end.

Definition GetCachedRoutePoints (fp : FlightPlan) (now : Z) (rc : RouteCache)
  : list string * RouteCache :=
  let callsign := fp_GetCallsign fp in
  let refresh :=
    let routePoints := fp_GetExtractedRoute fp in
    (routePoints, mkRouteCache (<[callsign := routePoints]> (routeCache rc))
                               (<[callsign := now]> (routeCacheTime rc))) in
  match routeCache rc !! callsign with
  | Some pts =>
      let '(t, times) := route_time callsign rc in
      if now ⊖ t <? 3000 then (pts, mkRouteCache (routeCache rc) times) else refresh
  | None => refresh
  end.

(** ** [GetOnlineControllersCached] *)

(** [HashSetOfStrings]: [size_t] arithmetic on 64 bits (an x64 build; a
    32-bit build wraps at 2^32); [c + 0x9e3779b9] adds a signed [char] to
    an [unsigned int], so it wraps at 32 bits.  The hash is stored and
    never read. *)
Definition signed_char (c : ascii) : Z :=
  let n := Z.of_N (N_of_ascii c) in if n <? 128 then n else n - 256.

Definition hash_step (seed : Z) (c : ascii) : Z :=
  let t := (signed_char c + 2654435769) mod 2 ^ 32 in
  Z.lxor seed ((t + (Z.shiftl seed 6 mod 2 ^ 64) + Z.shiftr seed 2) mod 2 ^ 64).

Definition hash_string (seed : Z) (s : string) : Z := fold_left hash_step (list_ascii_of_string s) seed.

(** [HashVectorOfStrings], not called by the plugin. *)
Definition HashVectorOfStrings (vec : list string) : Z :=
  fold_left hash_string vec (Z.of_nat (List.length vec)).

(** The strings in the set's iteration order, an argument here;
    [GetOnlineControllersCached] passes stdpp's [elements], one fixed
    order that need not be the [unordered_set]'s. *)
Definition HashSetOfStrings (elems : list string) : Z :=
  fold_left hash_string elems (Z.of_nat (List.length elems)).

(** The positions of the controllers whose callsign is not empty and
    contains "_CTR" or "_APP". *)
Definition is_online_sample (c : Controller) : bool :=
  negb (String.eqb (ctr_GetCallsign c) "") &&
  (str_contains "_CTR" (ctr_GetCallsign c) || str_contains "_APP" (ctr_GetCallsign c)).

Definition online_positions (roster : list Controller) : gset string :=
  list_to_set (ctr_GetPositionId <$> filter (fun c => is_online_sample c = true) roster).

Definition GetOnlineControllersCached (roster : list Controller) (currentTime : Z) (oc : OnlineCache)
  : gset string * OnlineCache :=
  if (5000 <? currentTime ⊖ lastOnlineFetchTime oc) || bool_decide (cachedOnlineControllers oc = ∅)
  then
    let s := online_positions roster in
    (s, mkOnlineCache s currentTime (HashSetOfStrings (elements s)))
  else (cachedOnlineControllers oc, oc).

(** [IsControllerOnlineCached] (not called by the code). *)
Definition IsControllerOnlineCached (controllerId : string) (onlineControllers : gset string) : bool :=
  bool_decide (controllerId ∈ onlineControllers).

(** ** [CleanupCache] and [OnFlightPlanStateChange] *)

Definition CleanupCache (callsign : string) (rc : RouteCache) (mc : MatchCache) : RouteCache * MatchCache :=
  (mkRouteCache (delete callsign (routeCache rc)) (delete callsign (routeCacheTime rc)),
   mkMatchCache (delete callsign (matchedLOACache mc)) (matchTimestamps mc)).

Definition OnFlightPlanStateChange (fp : FlightPlan) (rc : RouteCache) (mc : MatchCache)
  : RouteCache * MatchCache :=
  if negb (fp_IsValid fp) then (rc, mc)
  else match fp_GetState fp with
       | FLIGHT_PLAN_STATE_NON_CONCERNED | FLIGHT_PLAN_STATE_REDUNDANT =>
           CleanupCache (fp_GetCallsign fp) rc mc
       | _ => (rc, mc)
       end.

(** ** Invariant of the route cache: a route is cached with its time. *)
Definition route_cache_inv (rc : RouteCache) : Prop :=
  forall cs, is_Some (routeCache rc !! cs) <-> is_Some (routeCacheTime rc !! cs).

(** ** Lemmas *)

Lemma route_time_lookup cs rc t :
  routeCacheTime rc !! cs = Some t -> route_time cs rc = (t, routeCacheTime rc).
Proof. unfold route_time. by intros ->. Qed.

Lemma route_cache_inv_insert rc cs pts now :
  route_cache_inv rc ->
  route_cache_inv (mkRouteCache (<[cs := pts]> (routeCache rc)) (<[cs := now]> (routeCacheTime rc))).
Proof.
  intros Hinv cs'. simpl. destruct (decide (cs = cs')) as [->|Hne].
  - rewrite !lookup_insert_eq. split; eauto.
  - rewrite !lookup_insert_ne by done. apply Hinv.
Qed.

Lemma online_positions_spec roster x :
  x ∈ online_positions roster <->
  exists c, c ∈ roster /\ is_online_sample c = true /\ ctr_GetPositionId c = x.
Proof.
  unfold online_positions. rewrite elem_of_list_to_set, list_elem_of_fmap.
  setoid_rewrite list_elem_of_filter. naive_solver.
Qed.

Lemma log2_lt_64 x : 0 <= x < 2 ^ 64 -> Z.log2 x < 64.
Proof.
  intros Hx. destruct (Z.eq_dec x 0) as [->|Hnz]; [simpl; lia|].
  apply Z.log2_lt_pow2; lia.
Qed.

Lemma hash_step_bounds seed c : 0 <= seed < 2 ^ 64 -> 0 <= hash_step seed c < 2 ^ 64.
Proof.
  intros Hs. unfold hash_step.
  set (v := (_ + _ + _) mod 2 ^ 64).
  assert (Hv : 0 <= v < 2 ^ 64) by (apply Z.mod_pos_bound; lia).
  assert (H0 : 0 <= Z.lxor seed v) by (apply Z.lxor_nonneg; lia).
  split; [done|].
  destruct (Z.eq_dec (Z.lxor seed v) 0) as [->|Hnz]; [lia|].
  apply Z.log2_lt_pow2; [lia|].
  eapply Z.le_lt_trans; [apply Z.log2_lxor; lia|].
  apply Z.max_lub_lt; apply log2_lt_64; lia.
Qed.

Lemma hash_string_bounds seed s : 0 <= seed < 2 ^ 64 -> 0 <= hash_string seed s < 2 ^ 64.
Proof.
  unfold hash_string. generalize (list_ascii_of_string s) as cs. intros cs.
  revert seed; induction cs as [|c cs IH]; intros seed Hs; simpl; [done|].
  apply IH, hash_step_bounds, Hs.
Qed.

Lemma GetCachedRoutePoints_inv fp now rc :
  route_cache_inv rc -> route_cache_inv (GetCachedRoutePoints fp now rc).2.
Proof.
  intros Hinv. unfold GetCachedRoutePoints.
  destruct (routeCache rc !! fp_GetCallsign fp) as [pts|] eqn:Hc; [|by apply route_cache_inv_insert].
  destruct (proj1 (Hinv _) ltac:(eauto)) as [t Ht]. rewrite (route_time_lookup _ _ _ Ht).
  destruct (_ <? 3000); [|by apply route_cache_inv_insert]. by destruct rc.
Qed.

Lemma CleanupCache_inv cs rc mc : route_cache_inv rc -> route_cache_inv (CleanupCache cs rc mc).1.
Proof.
  intros Hinv cs'; simpl. destruct (decide (cs = cs')) as [->|Hne].
  - rewrite !lookup_delete_eq. done.
  - rewrite !lookup_delete_ne by done. apply Hinv.
Qed.

Lemma OnFlightPlanStateChange_inv fp rc mc :
  route_cache_inv rc -> route_cache_inv (OnFlightPlanStateChange fp rc mc).1.
Proof.
  intros Hinv. unfold OnFlightPlanStateChange.
  destruct (negb (fp_IsValid fp)); [done|]. destruct (fp_GetState fp); auto using CleanupCache_inv.
Qed.

#[export] Hint Resolve route_cache_inv_insert hash_step_bounds hash_string_bounds
  GetCachedRoutePoints_inv CleanupCache_inv OnFlightPlanStateChange_inv : loa.

(** ** Theorems *)

(** A route cached with a time less than 3000 ms old is returned as it
    is, and nothing changes. *)
Lemma GetCachedRoutePoints_cached fp now rc pts t :
  routeCache rc !! fp_GetCallsign fp = Some pts -> routeCacheTime rc !! fp_GetCallsign fp = Some t ->
  now ⊖ t < 3000 -> GetCachedRoutePoints fp now rc = (pts, rc).
Proof.
  intros Hc Ht Hfresh. unfold GetCachedRoutePoints. rewrite Hc, (route_time_lookup _ _ _ Ht).
  apply Z.ltb_lt in Hfresh. rewrite Hfresh. by destruct rc.
Qed.

(** After a call the returned route is cached, with a time less than 3000
    ms old. *)
Lemma GetCachedRoutePoints_post fp now rc :
  route_cache_inv rc ->
  let '(pts, rc') := GetCachedRoutePoints fp now rc in
  route_cache_inv rc' /\ routeCache rc' !! fp_GetCallsign fp = Some pts /\
  (exists t, routeCacheTime rc' !! fp_GetCallsign fp = Some t /\ now ⊖ t < 3000).
Proof.
  intros Hinv. pose proof (GetCachedRoutePoints_inv fp now rc Hinv) as Hinv'.
  unfold GetCachedRoutePoints in *. set (cs := fp_GetCallsign fp) in *.
  assert (Hnow : now ⊖ now < 3000).
  { unfold sub_u64. rewrite Z.sub_diag, Z.mod_0_l; [lia|unfold ULONGLONG_MAX_P1; lia]. }
  destruct (routeCache rc !! cs) as [pts|] eqn:Hc.
  - destruct (proj1 (Hinv cs) ltac:(eauto)) as [t Ht]. rewrite (route_time_lookup _ _ _ Ht) in *.
    destruct (now ⊖ t <? 3000) eqn:Hfresh; simpl; rewrite ?lookup_insert_eq;
      split_and!; eauto; apply Z.ltb_lt in Hfresh; eauto.
  - simpl. rewrite !lookup_insert_eq. split_and!; eauto.
Qed.

(** Within one tick a second call returns the same route and changes
    nothing: the frame snapshot and [MatchLoaEntry] see one route. *)
Lemma GetCachedRoutePoints_twice fp now rc :
  route_cache_inv rc ->
  let '(pts, rc') := GetCachedRoutePoints fp now rc in GetCachedRoutePoints fp now rc' = (pts, rc').
Proof.
  intros Hinv. pose proof (GetCachedRoutePoints_post fp now rc Hinv) as Hpost.
  destruct (GetCachedRoutePoints fp now rc) as [pts rc']. destruct Hpost as (_ & Hc & t & Ht & Hf).
  exact (GetCachedRoutePoints_cached _ _ _ _ _ Hc Ht Hf).
Qed.

(** [GetCachedRoutePoints] keeps the route cache's invariant and
    returns either the cached route, when it was stored less than 3000 ms
    before (in 64-bit unsigned tick arithmetic), or the route the flight
    plan extracts now; afterwards the returned route is the cached one and
    its time is less than 3000 ms old. *)
Theorem GetCachedRoutePoints_fresh fp now rc :
  route_cache_inv rc ->
  let cs := fp_GetCallsign fp in
  let '(pts, rc') := GetCachedRoutePoints fp now rc in
  route_cache_inv rc' /\ routeCache rc' !! cs = Some pts /\
  (exists t, routeCacheTime rc' !! cs = Some t /\ now ⊖ t < 3000) /\
  ((routeCache rc !! cs = Some pts /\ rc' = rc) \/ pts = fp_GetExtractedRoute fp).
Proof.
  intros Hinv cs. pose proof (GetCachedRoutePoints_post fp now rc Hinv) as Hpost.
  assert (Hsrc : let '(pts, rc') := GetCachedRoutePoints fp now rc in
                 (routeCache rc !! cs = Some pts /\ rc' = rc) \/ pts = fp_GetExtractedRoute fp).
  { unfold GetCachedRoutePoints. fold cs. destruct (routeCache rc !! cs) as [pts|] eqn:Hc; [|by right].
    destruct (proj1 (Hinv cs) ltac:(eauto)) as [t Ht]. rewrite (route_time_lookup _ _ _ Ht).
    destruct (now ⊖ t <? 3000); [left; by destruct rc|by right]. }
  destruct (GetCachedRoutePoints fp now rc). tauto.
Qed.

Lemma GetCachedRoutePoints_fresh_witness :
  let fp := mkFlightPlan true "BAW1" FLIGHT_PLAN_STATE_ASSUMED "I" "EGLL" "KJFK" 35000 35000
              ["LENDY"] "LON_S" 0 COORDINATION_STATE_NONE "" COORDINATION_STATE_NONE in
  let rc := mkRouteCache {[ "BAW1" := ["DVR"] ]} {[ "BAW1" := 1000 ]} in
  route_cache_inv rc /\
  (let '(pts, rc') := GetCachedRoutePoints fp 2500 rc in
   route_cache_inv rc' /\ routeCache rc' !! "BAW1" = Some pts /\
   (exists t, routeCacheTime rc' !! "BAW1" = Some t /\ 2500 ⊖ t < 3000) /\
   ((routeCache rc !! "BAW1" = Some pts /\ rc' = rc) \/ pts = fp_GetExtractedRoute fp)).
Proof.
  assert (H : route_cache_inv (mkRouteCache {[ "BAW1" := ["DVR"] ]} {[ "BAW1" := 1000 ]})).
  { intros cs; simpl. destruct (decide (cs = "BAW1")) as [->|Hne].
    - rewrite !lookup_singleton_eq. split; eauto.
    - rewrite !lookup_singleton_ne by congruence. done. }
  split; [exact H|].
  exact (GetCachedRoutePoints_fresh
    (mkFlightPlan true "BAW1" FLIGHT_PLAN_STATE_ASSUMED "I" "EGLL" "KJFK" 35000 35000
       ["LENDY"] "LON_S" 0 COORDINATION_STATE_NONE "" COORDINATION_STATE_NONE) 2500 _ H).
Defined.

(** a refresh of the online-controller cache holds exactly the
    position identifiers of the roster's controllers whose callsign is not
    empty and contains "_CTR" or "_APP"; otherwise the cached set is
    returned unchanged.  A refresh happens when more than 5000 ms passed
    since the last one or when the cached set is empty. *)
Theorem GetOnlineControllersCached_spec roster now oc x :
  let '(s, oc') := GetOnlineControllersCached roster now oc in
  if (5000 <? now ⊖ lastOnlineFetchTime oc) || bool_decide (cachedOnlineControllers oc = ∅)
  then (x ∈ s <-> exists c, c ∈ roster /\ ctr_GetCallsign c <> "" /\
                   (str_contains "_CTR" (ctr_GetCallsign c) = true \/ str_contains "_APP" (ctr_GetCallsign c) = true) /\
                   ctr_GetPositionId c = x) /\
       lastOnlineFetchTime oc' = now /\ cachedOnlineControllers oc' = s
  else s = cachedOnlineControllers oc /\ oc' = oc.
Proof.
  unfold GetOnlineControllersCached.
  destruct (_ || _); [|done]. split_and!; [|done|done].
  rewrite online_positions_spec. unfold is_online_sample.
  setoid_rewrite andb_true_iff. setoid_rewrite negb_true_iff. setoid_rewrite String.eqb_neq.
  setoid_rewrite orb_true_iff. naive_solver.
Qed.

(** the hash of the online set stays a 64-bit [size_t] value. *)
Theorem HashSetOfStrings_bounds elems :
  Z.of_nat (List.length elems) < 2 ^ 64 -> 0 <= HashSetOfStrings elems < 2 ^ 64.
Proof.
  intros Hlen. unfold HashSetOfStrings.
  assert (Hs : 0 <= Z.of_nat (List.length elems) < 2 ^ 64) by lia.
  revert Hs. generalize (Z.of_nat (List.length elems)) as seed. clear Hlen.
  induction elems as [|s elems IH]; intros seed Hs; simpl; [lia|].
  apply IH. by apply hash_string_bounds.
Qed.

Lemma HashSetOfStrings_bounds_witness :
  Z.of_nat (List.length ["LON_S"; "LON_N"]) < 2 ^ 64 /\ 0 <= HashSetOfStrings ["LON_S"; "LON_N"] < 2 ^ 64.
Proof. split; [simpl; lia|]. apply HashSetOfStrings_bounds. simpl. lia. Defined.

(** C34: a flight plan that turns non-concerned or redundant loses its
    cached route, route time and match result, and no other callsign's
    entries change; its match timestamp stays ([CleanupCache] does not
    erase [matchTimestamps]). *)
Theorem OnFlightPlanStateChange_cleanup fp rc mc :
  fp_IsValid fp = true ->
  IsLOARelevantState (fp_GetState fp) = false ->
  let cs := fp_GetCallsign fp in
  let '(rc', mc') := OnFlightPlanStateChange fp rc mc in
  routeCache rc' !! cs = None /\ routeCacheTime rc' !! cs = None /\ matchedLOACache mc' !! cs = None /\
  matchTimestamps mc' = matchTimestamps mc /\
  (forall cs', cs' <> cs -> routeCache rc' !! cs' = routeCache rc !! cs' /\
     routeCacheTime rc' !! cs' = routeCacheTime rc !! cs' /\
     matchedLOACache mc' !! cs' = matchedLOACache mc !! cs').
Proof.
  intros Hv Hrel cs. subst cs. unfold OnFlightPlanStateChange. rewrite Hv. simpl.
  destruct (fp_GetState fp); try discriminate; simpl;
    (split_and!; [apply lookup_delete_eq..|done|]);
    intros cs' Hne; rewrite !lookup_delete_ne by congruence; done.
Qed.

Lemma OnFlightPlanStateChange_cleanup_witness :
  let fp := mkFlightPlan true "BAW1" FLIGHT_PLAN_STATE_NON_CONCERNED "I" "EGLL" "KJFK" 35000 35000
              ["LENDY"] "LON_S" 0 COORDINATION_STATE_NONE "" COORDINATION_STATE_NONE in
  fp_IsValid fp = true /\ IsLOARelevantState (fp_GetState fp) = false /\
  (let '(rc', mc') := OnFlightPlanStateChange fp (mkRouteCache {[ "BAW1" := ["LENDY"] ]} {[ "BAW1" := 7 ]})
                         (mkMatchCache {[ "BAW1" := None ]} {[ "BAW1" := 7 ]}) in
   routeCache rc' !! "BAW1" = None /\ routeCacheTime rc' !! "BAW1" = None /\
   matchedLOACache mc' !! "BAW1" = None /\ matchTimestamps mc' = {[ "BAW1" := 7 ]} /\
   (forall cs', cs' <> "BAW1" -> routeCache rc' !! cs' = ({[ "BAW1" := ["LENDY"] ]} : gmap string (list string)) !! cs' /\
      routeCacheTime rc' !! cs' = ({[ "BAW1" := 7 ]} : gmap string Z) !! cs' /\
      matchedLOACache mc' !! cs' = ({[ "BAW1" := None ]} : gmap string (option LoaRef)) !! cs')).
Proof.
  split; [reflexivity|]. split; [reflexivity|].
  exact (OnFlightPlanStateChange_cleanup
           (mkFlightPlan true "BAW1" FLIGHT_PLAN_STATE_NON_CONCERNED "I" "EGLL" "KJFK" 35000 35000
              ["LENDY"] "LON_S" 0 COORDINATION_STATE_NONE "" COORDINATION_STATE_NONE)
           (mkRouteCache {[ "BAW1" := ["LENDY"] ]} {[ "BAW1" := 7 ]})
           (mkMatchCache {[ "BAW1" := None ]} {[ "BAW1" := 7 ]}) eq_refl eq_refl).
Defined.


End Caches.
