(* ===== verification/HostLoops.v ===== *)
(** * The plugin's loops over host enumerations (LOAPlugin.cpp)

    [GetOnlineControllersCached] walks the controller roster with
    [ControllerSelectFirst], [IsValid] and [ControllerSelectNext];
    [GetCachedRoutePoints] copies the extracted route with an [int] index
    [i < route.GetPointsNumber()].  Caches.v models both by the lists they
    produce.  Here each loop is the [for_loop] of the code, and the theorems
    show that it stops after exactly one more test of its condition than the
    enumeration has elements, that it computes the list model of Caches.v,
    and that the route index never overflows an [int]. *)

From stdpp Require Import base gmap strings list.
From Stdlib Require Import ZArith String Bool Lia.
From S2P Require Import Prelude Host Caches.
Import Host Caches.

Module HostLoops.

Local Open Scope Z_scope.

(** ** The roster loop of [GetOnlineControllersCached]

    [cachedOnlineControllers.clear()], then for every valid handle: read the
    callsign, and insert the position identifier of a non-empty callsign
    containing "_CTR" or "_APP". *)
Definition online_loop_body (roster : list Controller) (c : nat) (acc : gset string) : gset string :=
  let ctr := ctr_at roster c in
  if is_online_sample ctr then {[ctr_GetPositionId ctr]} ∪ acc else acc.

Definition collect_online_controllers (roster : list Controller) (fuel : nat) : option (gset string) :=
  for_loop (ctr_IsValid roster) ControllerSelectNext (online_loop_body roster)
           fuel ControllerSelectFirst ∅.

(** ** The copy loop of [GetCachedRoutePoints]

    [for (int i = 0; i < route.GetPointsNumber(); ++i)
       routePoints.emplace_back(route.GetPointName(i));] *)
Definition route_index_valid (route : ExtractedRoute) (i : Z) : bool := i <? GetPointsNumber route.

Definition route_index_next (i : Z) : Z := i + 1.

Definition route_points_loop (route : ExtractedRoute) (fuel : nat) : option (list string) :=
  for_loop (route_index_valid route) route_index_next
           (fun i pts => pts ++ [GetPointName route i]) fuel 0 [].

(** ** Enumerations *)

(** The handles from [k] on are [k], ..., [length roster - 1]. *)
Lemma roster_enumerates roster k :
  enumerates (ctr_IsValid roster) ControllerSelectNext k (seq k (List.length roster - k)).
Proof.
  remember (List.length roster - k)%nat as m eqn:Hm. revert k Hm.
  induction m as [|m IH]; intros k Hm; simpl; constructor; unfold ctr_IsValid.
  - apply bool_decide_eq_false. lia.
  - apply bool_decide_eq_true. lia.
  - apply IH. lia.
Qed.

(** The indices from [k >= 0] on are [k], ..., [GetPointsNumber - 1]. *)
Lemma route_enumerates route k :
  0 <= k ->
  enumerates (route_index_valid route) route_index_next k (seqZ k (GetPointsNumber route - k)).
Proof.
  remember (Z.to_nat (GetPointsNumber route - k)) as m eqn:Hm. revert k Hm.
  induction m as [|m IH]; intros k Hm Hk.
  - rewrite seqZ_nil by lia. constructor. unfold route_index_valid. apply Z.ltb_ge. lia.
  - rewrite seqZ_cons by lia. constructor; [unfold route_index_valid; apply Z.ltb_lt; lia|].
    replace (Z.succ k) with (route_index_next k) by (unfold route_index_next; lia).
    replace (Z.pred (GetPointsNumber route - k))
      with (GetPointsNumber route - route_index_next k) by (unfold route_index_next; lia).
    apply IH; unfold route_index_next; lia.
Qed.

(** ** Folds of the loop bodies *)

(** From handle [k] on, [m] iterations insert the online positions of the
    next [m] sessions; a handle past the end reads as an empty callsign,
    which is not a sample. *)
Lemma online_loop_fold roster k m acc :
  fold_left (fun s c => online_loop_body roster c s) (seq k m) acc =
    acc ∪ list_to_set (ctr_GetPositionId <$> filter (fun c => is_online_sample c = true)
                                                    (take m (drop k roster))).
Proof.
  revert k acc. induction m as [|m IH]; intros k acc; simpl.
  - set_solver.
  - rewrite IH. unfold online_loop_body, ctr_at.
    destruct (roster !! k) as [c|] eqn:Hk; simpl.
    + rewrite (drop_S _ _ _ Hk). simpl. rewrite filter_cons.
      destruct (is_online_sample c); simpl; set_solver.
    + apply lookup_ge_None in Hk. by rewrite !drop_ge, !take_nil by lia.
Qed.

Lemma fold_left_snoc {A B} (f : A -> B) (l : list A) acc :
  fold_left (fun pts x => pts ++ [f x]) l acc = acc ++ (f <$> l).
Proof.
  revert acc. induction l as [|x l IH]; intros acc; simpl; [by rewrite app_nil_r|].
  by rewrite IH, <- app_assoc.
Qed.

(** ** Theorems *)

(** The loop stops after [length roster + 1] tests and computes
    [online_positions], the set Caches.v stores. *)
Lemma collect_online_controllers_exact roster fuel :
  collect_online_controllers roster fuel =
    if decide (List.length roster < fuel)%nat then Some (online_positions roster) else None.
Proof.
  unfold collect_online_controllers, ControllerSelectFirst.
  rewrite (for_loop_enumerates _ _ _ _ _ _ _ (roster_enumerates roster 0)).
  rewrite length_seq, Nat.sub_0_r, online_loop_fold, drop_0, take_ge by lia.
  case_decide; [|done]. f_equal. unfold online_positions. set_solver.
Qed.

(** The filter of the loop body, as a statement about the callsign: it
    contains "_CTR" or "_APP" (which makes it non-empty). *)
Lemma is_online_sample_spec c :
  is_online_sample c = true <->
  exists p q, ctr_GetCallsign c = (p ++ "_CTR" ++ q)%string \/ ctr_GetCallsign c = (p ++ "_APP" ++ q)%string.
Proof.
  unfold is_online_sample. rewrite andb_true_iff, negb_true_iff, orb_true_iff, !str_contains_spec.
  split.
  - intros [_ [(p & q & H)|(p & q & H)]]; eauto.
  - intros (p & q & [H|H]); (split; [|eauto]); apply String.eqb_neq; rewrite H; by destruct p.
Qed.

(** C20: termination and result of the roster loop of
    [GetOnlineControllersCached]: with more fuel than the roster has
    sessions the loop returns, and the set it returns holds exactly the
    position identifiers of the sessions whose callsign contains "_CTR" or
    "_APP" (whatever the position identifier, the empty one included);
    with less it has not reached the invalid handle. *)
Theorem collect_online_controllers_terminates roster fuel :
  ((List.length roster < fuel)%nat ->
   exists S, collect_online_controllers roster fuel = Some S /\
     forall x, x ∈ S <-> exists c, c ∈ roster /\ ctr_GetPositionId c = x /\
       exists p q, ctr_GetCallsign c = (p ++ "_CTR" ++ q)%string \/ ctr_GetCallsign c = (p ++ "_APP" ++ q)%string) /\
  ((fuel <= List.length roster)%nat -> collect_online_controllers roster fuel = None).
Proof.
  rewrite collect_online_controllers_exact. split; intros Hf; [|by rewrite decide_False by lia].
  rewrite decide_True by done. eexists; split; [done|]. intros x.
  rewrite online_positions_spec. setoid_rewrite is_online_sample_spec. naive_solver.
Qed.

Lemma collect_online_controllers_terminates_witness :
  (List.length [mkController "LON_S_CTR" "L"; mkController "EGLL_TWR" "T"] < 3)%nat /\
  exists S, collect_online_controllers [mkController "LON_S_CTR" "L"; mkController "EGLL_TWR" "T"] 3 = Some S /\
     forall x, x ∈ S <-> exists c, c ∈ [mkController "LON_S_CTR" "L"; mkController "EGLL_TWR" "T"] /\
       ctr_GetPositionId c = x /\
       exists p q, ctr_GetCallsign c = (p ++ "_CTR" ++ q)%string \/ ctr_GetCallsign c = (p ++ "_APP" ++ q)%string.
Proof.
  assert (H : (List.length [mkController "LON_S_CTR" "L"; mkController "EGLL_TWR" "T"] < 3)%nat)
    by (simpl; lia).
  split; [exact H|]. exact (proj1 (collect_online_controllers_terminates _ 3) H).
Defined.

(** C21: The copy loop stops after [GetPointsNumber + 1] tests (one when the
    count is not positive) and copies the names of points [0 .. n-1]. *)
Theorem route_points_loop_terminates route fuel :
  route_points_loop route fuel =
    if decide (Z.to_nat (GetPointsNumber route) < fuel)%nat
    then Some (GetPointName route <$> seqZ 0 (GetPointsNumber route)) else None.
Proof.
  unfold route_points_loop.
  rewrite (for_loop_enumerates _ _ _ _ _ _ _ (route_enumerates route 0 ltac:(lia))).
  by rewrite length_seqZ, Z.sub_0_r, fold_left_snoc.
Qed.

(** The loop over the route of a snapshot copies its point list: the list
    [fp_GetExtractedRoute] that [GetCachedRoutePoints] caches. *)
Theorem route_points_loop_points pts :
  route_points_loop (route_of_points pts) (S (List.length pts)) = Some pts.
Proof.
  unfold route_points_loop.
  rewrite (for_loop_enumerates _ _ _ _ _ _ _ (route_enumerates _ 0 ltac:(lia))).
  rewrite length_seqZ, Z.sub_0_r, fold_left_snoc. simpl. rewrite Nat2Z.id.
  rewrite decide_True by lia. f_equal.
  apply list_eq. intros i. rewrite list_lookup_fmap.
  destruct (decide (i < List.length pts)%nat) as [Hi|Hi].
  - rewrite lookup_seqZ_lt by lia. simpl. replace (Z.to_nat (0 + Z.of_nat i)) with i by lia.
    destruct (pts !! i) eqn:Hp; [done|]. apply lookup_ge_None in Hp. lia.
  - rewrite lookup_seqZ_ge, lookup_ge_None_2 by lia. done.
Qed.

(** C23: [++i] never overflows: on a route whose count is an [int], every index
    the loop visits is in [0, count) and its successor is an [int]. *)
Theorem route_index_bounds route l :
  is_int32 (GetPointsNumber route) ->
  enumerates (route_index_valid route) route_index_next 0 l ->
  Forall (fun i => 0 <= i < GetPointsNumber route /\ is_int32 (route_index_next i)) l.
Proof.
  unfold is_int32, route_index_next. intros Hn Hl.
  rewrite (enumerates_functional _ _ _ _ _ Hl (route_enumerates route 0 ltac:(lia))).
  apply Forall_forall. intros i Hi. apply elem_of_seqZ in Hi. lia.
Qed.

Lemma route_index_bounds_witness :
  let route := route_of_points ["DVR"; "KONAN"] in
  is_int32 (GetPointsNumber route) /\
  enumerates (route_index_valid route) route_index_next 0 [0; 1] /\
  Forall (fun i => 0 <= i < GetPointsNumber route /\ is_int32 (route_index_next i)) [0; 1].
Proof.
  simpl. assert (Hn : is_int32 2) by (unfold is_int32; lia).
  assert (He : enumerates (route_index_valid (route_of_points ["DVR"; "KONAN"])) route_index_next 0 [0; 1])
    by (repeat constructor).
  split; [exact Hn|]. split; [exact He|]. exact (route_index_bounds (route_of_points ["DVR"; "KONAN"]) _ Hn He).
Defined.

End HostLoops.
