(* ===== verification/Matcher.v ===== *)
(** * The match engine: [MatchLoaEntry] (LoaMatcher.cpp)

    [MatchLoaEntry] returns the governing rule of a flight: after the
    relevance and flight-rules guards, a result cached less than 5000 ms
    before is returned as it is; otherwise the route comes from the route
    cache, the four primary categories are scanned with the [matchIn]
    lambda, then the fallback rules, and the result (a pointer or null) is
    cached with the current tick truncated to a [DWORD].

    [Spec] states what a governing rule is on the raw rule lists: the
    first accepted entry in the order of the categories, then of the list.
    The theorems show that the code computes it on every cache miss
    (a refinement that relies on the loader's well-formedness invariant and
    on the airport matcher's refinement), that a fresh cache entry is
    returned without a new scan, that it expires 5000 ms after it was
    computed, and what the [DWORD] truncation does; the waypoint test is
    invariant under a change of case in the route ([route_ieq], a setoid
    with a [Proper] instance for [wpMatch]).
    [match_cache_inv] is the invariant of the match cache the plugin-wide
    invariant of Plugin.v builds on. *)

From stdpp Require Import base gmap strings list.
From Stdlib Require Import ZArith String Ascii Bool Lia.
From S2P Require Import Prelude Host Airport Rules Caches.
Import Host AirportMatcher Rules Caches.

Module Matcher.

Local Open Scope Z_scope.

Definition is_nil {A} (l : list A) : bool := match l with [] => true | _ => false end.

(** [std::all_of(waypoints, wp => std::any_of(routePoints,
    r => EqualsIgnoreCase(r, wp)))] *)
Definition wpMatch (routePoints waypoints : list string) : bool :=
  forallb (fun wp => existsb (fun r => EqualsIgnoreCase r wp) routePoints) waypoints.

(** [!list.empty() && !MatchesAirport(set, prefixes, code)]: the test
    whose success makes the loop [continue]. *)
Definition airport_rejects (raw : list string) (exactSet : gset string) (prefixes : list string)
    (code : string) : bool :=
  negb (is_nil raw) && negb (MatchesAirport exactSet prefixes code).

(** The body of the [matchIn] lambda for one entry: [true] when it
    returns [&entry]. *)
Definition matchIn_accepts (onlineControllers : gset string) (origin destination controller : string)
    (routePoints : list string) (entry : LOAEntry) : bool :=
  if airport_rejects (originAirports entry) (originAirportSet entry) (originAirportPrefixes entry) origin
  then false
  else if airport_rejects (destinationAirports entry) (destinationAirportSet entry)
            (destinationAirportPrefixes entry) destination
  then false
  else if requireNextSectorOnline entry && negb (is_nil (nextSectors entry)) &&
          negb (existsb (fun ns => bool_decide (ns ∈ onlineControllers)) (nextSectors entry))
  then false
  else
    let wp := wpMatch routePoints (waypoints entry) in
    let nextSectorMatch :=
      is_nil (nextSectors entry) || existsb (fun ns => EqualsIgnoreCase ns controller) (nextSectors entry) in
    wp && nextSectorMatch.

(** The body of the fallback loop for one entry. *)
Definition fallback_accepts (clearedAltitude : Z) (destination : string) (routePoints : list string)
    (entry : LOAEntry) : bool :=
  if clearedAltitude <? minAltitudeFt entry then false
  else if airport_rejects (destinationAirports entry) (destinationAirportSet entry)
            (destinationAirportPrefixes entry) destination
  then false
  else wpMatch routePoints (waypoints entry).

(** What a category's loop tests. *)
Definition category_accepts (onlineControllers : gset string) (origin destination controller : string)
    (clearedAltitude : Z) (routePoints : list string) (c : LoaCategory) : LOAEntry -> bool :=
  match c with
  | FallbackLoas => fallback_accepts clearedAltitude destination routePoints
  | _ => matchIn_accepts onlineControllers origin destination controller routePoints
  end.

(** [matchIn(destinationLoas) || matchIn(departureLoas) ||
    matchIn(lorArrivals) || matchIn(lorDepartures)], then the fallback
    loop: the first category with an accepted entry wins. *)
Definition match_order : list LoaCategory :=
  [DestinationLoas; DepartureLoas; LorArrivals; LorDepartures; FallbackLoas].

Fixpoint scan_categories (accepts : LoaCategory -> LOAEntry -> bool) (rs : RuleSet)
    (cats : list LoaCategory) : option (LoaCategory * nat) :=
  match cats with
  | [] => None
  | c :: cs =>
      match find_index (accepts c) (category_entries rs c) with
      | Some i => Some (c, i)
      | None => scan_categories accepts rs cs
      end
  end.

(** The pointer the scan returns, into the current vectors. *)
Definition to_ref (gen : nat) (ci : LoaCategory * nat) : LoaRef := mkLoaRef gen ci.1 ci.2.

(** [tsIt != end && now - tsIt->second < 5000], then the cached pointer
    when [matchedLOACache] has the callsign. *)
Definition cached_match (callsign : string) (now : Z) (mc : MatchCache) : option (option LoaRef) :=
  match matchTimestamps mc !! callsign with
  | Some ts => if now ⊖ ts <? 5000 then matchedLOACache mc !! callsign else None
  | None => None
  end.

(** [matchedLOACache[callsign] = result; matchTimestamps[callsign] = now;] *)
Definition store_match (callsign : string) (result : option LoaRef) (now : Z) (mc : MatchCache) : MatchCache :=
  mkMatchCache (<[callsign := result]> (matchedLOACache mc)) (<[callsign := now]> (matchTimestamps mc)).

Definition MatchLoaEntry (st : RuleStore) (fp : FlightPlan) (onlineControllers : gset string)
    (tick : Z) (rc : RouteCache) (mc : MatchCache) : option LoaRef * RouteCache * MatchCache :=
  if negb (fp_IsValid fp) || negb (IsLOARelevantState (fp_GetState fp)) then (None, rc, mc)
  else if negb (stricmp_eq (fp_GetPlanType fp) "I") then (None, rc, mc)
  else
    let callsign := fp_GetCallsign fp in
    let now := to_DWORD tick in        (* DWORD now = GetTickCount64(); *)
    match cached_match callsign now mc with
    | Some r => (r, rc, mc)
    | None =>
        let '(routePoints, rc') := GetCachedRoutePoints fp tick rc in
        let accepts := category_accepts onlineControllers (fp_GetOrigin fp) (fp_GetDestination fp)
                         (fp_GetTrackingControllerId fp) (fp_GetClearedAltitude fp) routePoints in
        let result := to_ref (rules_generation st) <$> scan_categories accepts (rules st) match_order in
        (result, rc', store_match callsign result now mc)
    end.

(** ** The governing rule, on the raw rule lists (spec 4.4) *)
Module Spec.

Record FlightContext := mkFlightContext {
  fc_origin : string;
  fc_destination : string;
  fc_controller : string;
  fc_cleared : Z;
  fc_route : list string;
  fc_online : gset string
}.

(** An airport list accepts a code when it is empty or one of its codes
    accepts it (spec 4.1). *)
Definition airport_ok (raw : list string) (code : string) : Prop :=
  raw = [] \/ exists a, a ∈ raw /\ raw_accepts a code.

(** Every listed waypoint is on the route, ignoring case. *)
Definition waypoints_ok (route wps : list string) : Prop :=
  forall wp, wp ∈ wps -> exists r, r ∈ route /\ r =ci= wp.

(** Steps 1-4 of spec 4.4.  The online gate applies to an entry with a
    non-empty next-sector list, as in the code. *)
Definition primary_ok (ctx : FlightContext) (e : LOAEntry) : Prop :=
  airport_ok (originAirports e) (fc_origin ctx) /\
  airport_ok (destinationAirports e) (fc_destination ctx) /\
  (requireNextSectorOnline e = true -> nextSectors e <> [] ->
     exists ns, ns ∈ nextSectors e /\ ns ∈ fc_online ctx) /\
  waypoints_ok (fc_route ctx) (waypoints e) /\
  (nextSectors e <> [] -> exists ns, ns ∈ nextSectors e /\ ns =ci= fc_controller ctx).

(** Step 5: altitude threshold, destination and waypoints only. *)
Definition fallback_ok (ctx : FlightContext) (e : LOAEntry) : Prop :=
  minAltitudeFt e <= fc_cleared ctx /\
  airport_ok (destinationAirports e) (fc_destination ctx) /\
  waypoints_ok (fc_route ctx) (waypoints e).

Definition category_ok (c : LoaCategory) (ctx : FlightContext) (e : LOAEntry) : Prop :=
  match c with FallbackLoas => fallback_ok ctx e | _ => primary_ok ctx e end.

Definition category_rank (c : LoaCategory) : nat :=
  match c with
  | DestinationLoas => 0 | DepartureLoas => 1 | LorArrivals => 2 | LorDepartures => 3
  | FallbackLoas => 4
  end.

(** Entry [j] of [c'] is scanned before entry [i] of [c]. *)
Definition precedes (c' : LoaCategory) (j : nat) (c : LoaCategory) (i : nat) : Prop :=
  (category_rank c' < category_rank c)%nat \/ (c' = c /\ (j < i)%nat).

(** [governs rs ctx r]: [r] is the first accepted entry, or [None] when no
    entry of any category is accepted. *)
Definition governs (rs : RuleSet) (ctx : FlightContext) (r : option (LoaCategory * nat)) : Prop :=
  match r with
  | Some (c, i) =>
      (exists e, category_entries rs c !! i = Some e /\ category_ok c ctx e) /\
      (forall c' j e', precedes c' j c i -> category_entries rs c' !! j = Some e' -> ~ category_ok c' ctx e')
  | None => forall c j e, category_entries rs c !! j = Some e -> ~ category_ok c ctx e
  end.

End Spec.

(** The context of a scan: what [MatchLoaEntry] reads from the flight. *)
Definition flight_context (fp : FlightPlan) (onlineControllers : gset string) (routePoints : list string)
  : Spec.FlightContext :=
  Spec.mkFlightContext (fp_GetOrigin fp) (fp_GetDestination fp) (fp_GetTrackingControllerId fp)
    (fp_GetClearedAltitude fp) routePoints onlineControllers.

Definition ref_pos (r : LoaRef) : LoaCategory * nat := (ref_category r, ref_index r).

(** Two routes with the same points up to case. *)
Definition route_ieq : list string -> list string -> Prop := Forall2 ieq.

(** ** Lemmas: the code's tests against [Spec] *)

Section Reflect.
Import Spec.

Lemma is_nil_true {A} (l : list A) : is_nil l = true <-> l = [].
Proof. destruct l; simpl; split; congruence. Qed.

Lemma wpMatch_spec route wps : wpMatch route wps = true <-> waypoints_ok route wps.
Proof.
  unfold wpMatch, waypoints_ok. rewrite forallb_forall.
  setoid_rewrite existsb_exists. setoid_rewrite <- list_elem_of_In. unfold ieq. naive_solver.
Qed.

Lemma airport_rejects_false raw exactSet prefixes code :
  (exactSet, prefixes) = split_airports raw ->
  airport_rejects raw exactSet prefixes code = false <-> airport_ok raw code.
Proof.
  intros Hsplit. unfold airport_rejects, airport_ok.
  pose proof (split_airports_raw_accepts raw code) as H. rewrite <- Hsplit in H. simpl in H.
  rewrite andb_false_iff, !negb_false_iff, is_nil_true, H. done.
Qed.

Lemma online_gate_false (req : bool) (ns : list string) (online : gset string) :
  req && negb (is_nil ns) && negb (existsb (fun n => bool_decide (n ∈ online)) ns) = false <->
  (req = true -> ns <> [] -> exists n, n ∈ ns /\ n ∈ online).
Proof.
  rewrite !andb_false_iff, !negb_false_iff, is_nil_true, existsb_exists.
  setoid_rewrite bool_decide_eq_true. setoid_rewrite <- list_elem_of_In.
  destruct req, ns; naive_solver.
Qed.

Lemma next_sector_match_spec (ns : list string) (controller : string) :
  is_nil ns || existsb (fun n => EqualsIgnoreCase n controller) ns = true <->
  (ns <> [] -> exists n, n ∈ ns /\ n =ci= controller).
Proof.
  rewrite orb_true_iff, is_nil_true, existsb_exists. setoid_rewrite <- list_elem_of_In.
  unfold ieq. destruct ns; naive_solver.
Qed.

Lemma matchIn_accepts_spec ctx e :
  entry_wf e ->
  matchIn_accepts (fc_online ctx) (fc_origin ctx) (fc_destination ctx) (fc_controller ctx) (fc_route ctx) e = true
  <-> primary_ok ctx e.
Proof.
  intros [Ho Hd]. unfold matchIn_accepts, primary_ok.
  rewrite <- (airport_rejects_false _ _ _ (fc_origin ctx) Ho),
          <- (airport_rejects_false _ _ _ (fc_destination ctx) Hd),
          <- online_gate_false, <- wpMatch_spec, <- next_sector_match_spec.
  destruct (airport_rejects _ _ _ (fc_origin ctx)), (airport_rejects _ _ _ (fc_destination ctx)),
    (_ && _ && _); simpl; rewrite ?andb_true_iff; naive_solver.
Qed.

Lemma fallback_accepts_spec ctx e :
  entry_wf e ->
  fallback_accepts (fc_cleared ctx) (fc_destination ctx) (fc_route ctx) e = true <-> fallback_ok ctx e.
Proof.
  intros [_ Hd]. unfold fallback_accepts, fallback_ok.
  rewrite <- (airport_rejects_false _ _ _ (fc_destination ctx) Hd), <- wpMatch_spec.
  destruct (fc_cleared ctx <? minAltitudeFt e) eqn:Hlt.
  - apply Z.ltb_lt in Hlt. split; [discriminate|lia].
  - apply Z.ltb_ge in Hlt. destruct (airport_rejects _ _ _ _); naive_solver.
Qed.

Lemma category_accepts_spec ctx c e :
  entry_wf e ->
  category_accepts (fc_online ctx) (fc_origin ctx) (fc_destination ctx) (fc_controller ctx)
    (fc_cleared ctx) (fc_route ctx) c e = true <-> category_ok c ctx e.
Proof. intros Hwf. destruct c; simpl; auto using matchIn_accepts_spec, fallback_accepts_spec. Qed.

End Reflect.

(** ** Lemmas: the scan *)

Section Scan.
Context (acc : LoaCategory -> LOAEntry -> bool) (rs : RuleSet).

Lemma scan_categories_Some cats c i :
  scan_categories acc rs cats = Some (c, i) ->
  exists pre post, cats = pre ++ c :: post /\
    find_index (acc c) (category_entries rs c) = Some i /\
    forall c', c' ∈ pre -> find_index (acc c') (category_entries rs c') = None.
Proof.
  induction cats as [|c0 cats IH]; simpl; [discriminate|].
  destruct (find_index (acc c0) (category_entries rs c0)) as [k|] eqn:Hk.
  - intros [= <- <-]. exists [], cats. split_and!; [done|done|]. intros c' Hc'. by apply elem_of_nil in Hc'.
  - intros H. destruct (IH H) as (pre & post & -> & Hi & Hpre).
    exists (c0 :: pre), post. split_and!; [done|done|].
    intros c' [->|Hc']%elem_of_cons; auto.
Qed.

Lemma scan_categories_None cats :
  scan_categories acc rs cats = None ->
  forall c, c ∈ cats -> find_index (acc c) (category_entries rs c) = None.
Proof.
  induction cats as [|c0 cats IH]; simpl; intros H c Hc; [by apply elem_of_nil in Hc|].
  destruct (find_index (acc c0) (category_entries rs c0)) eqn:Hk; [discriminate|].
  apply elem_of_cons in Hc as [->|Hc]; auto.
Qed.

End Scan.

Lemma scan_categories_ext acc acc' rs cats :
  (forall c e, acc c e = acc' c e) -> scan_categories acc rs cats = scan_categories acc' rs cats.
Proof.
  intros H. induction cats as [|c cats IH]; simpl; [done|].
  rewrite (find_index_ext (acc c) (acc' c)) by auto. by rewrite IH.
Qed.

(** ** The engine up to the case of route points *)

#[export] Instance route_ieq_equivalence : Equivalence route_ieq.
Proof.
  unfold route_ieq. split.
  - intros l. induction l; constructor; [reflexivity|done].
  - intros l l' H. induction H; constructor; [by symmetry|done].
  - intros l1 l2 l3 H12. revert l3. induction H12 as [|x y l1 l2 Hxy _ IH]; intros l3 H23;
      inversion H23; subst; constructor; [by etransitivity|auto].
Qed.

#[export] Instance wpMatch_proper : Proper (route_ieq ==> eq ==> eq) wpMatch.
Proof.
  intros r r' Hr wps ? <-. unfold wpMatch. induction wps as [|wp wps IH]; simpl; [done|].
  f_equal; [|exact IH]. clear IH. induction Hr as [|x y r r' Hxy _ IH]; simpl; [done|].
  by rewrite Hxy, IH.
Qed.

Lemma category_accepts_route_ieq online origin destination controller cleared r r' c e :
  route_ieq r r' ->
  category_accepts online origin destination controller cleared r c e =
  category_accepts online origin destination controller cleared r' c e.
Proof.
  intros Hr. destruct c; unfold category_accepts, matchIn_accepts, fallback_accepts;
    by rewrite (wpMatch_proper r r' Hr _ _ eq_refl).
Qed.

Lemma match_order_all c : c ∈ match_order.
Proof. destruct c; unfold match_order; set_solver. Qed.

(** A category ranked before [c] is scanned before it. *)
Lemma match_order_before pre post c c' :
  match_order = pre ++ c :: post -> (Spec.category_rank c' < Spec.category_rank c)%nat -> c' ∈ pre.
Proof.
  intros Hsplit Hrank.
  destruct pre as [|p1 [|p2 [|p3 [|p4 [|p5 pre]]]]]; simpl in Hsplit; injection Hsplit as <-;
    repeat match goal with H : _ = _ |- _ => first [subst | discriminate H | injection H as <- ] end;
    destruct c'; simpl in Hrank; try lia; set_solver.
Qed.

(** The scan computes the governing rule of a well-formed rule set. *)
Lemma scan_governs rs ctx :
  ruleset_wf rs ->
  Spec.governs rs ctx (scan_categories (category_accepts (Spec.fc_online ctx) (Spec.fc_origin ctx)
    (Spec.fc_destination ctx) (Spec.fc_controller ctx) (Spec.fc_cleared ctx) (Spec.fc_route ctx)) rs match_order).
Proof.
  intros Hwf. set (acc := category_accepts _ _ _ _ _ _).
  assert (Hrefl : forall c j e, category_entries rs c !! j = Some e -> acc c e = true <-> Spec.category_ok c ctx e).
  { intros c j e Hj. apply category_accepts_spec, (Hwf c). by eapply list_elem_of_lookup_2. }
  assert (Hrej : forall c j e, find_index (acc c) (category_entries rs c) = None ->
                 category_entries rs c !! j = Some e -> ~ Spec.category_ok c ctx e).
  { intros c j e Hnone Hj Hok. apply (Hrefl c j e Hj) in Hok.
    rewrite (proj1 (find_index_None _ _) Hnone e) in Hok; [discriminate|]. by eapply list_elem_of_lookup_2. }
  destruct (scan_categories acc rs match_order) as [[c i]|] eqn:Hscan; simpl.
  - destruct (scan_categories_Some _ _ _ _ _ Hscan) as (pre & post & Hsplit & Hfind & Hpre).
    destruct (find_index_Some _ _ _ Hfind) as [[e [He Hacc]] Hbefore]. split.
    + exists e. split; [done|]. by apply (Hrefl c i e He).
    + intros c' j e' [Hrank|[-> Hj]] Hj' Hok.
      * apply (Hrej c' j e'); [apply Hpre; by eapply match_order_before|done|done].
      * apply (Hrefl c j e' Hj') in Hok. by rewrite (Hbefore j e') in Hok.
  - intros c j e. apply Hrej. apply (scan_categories_None _ _ _ Hscan), match_order_all.
Qed.

(** ** Lemmas: [MatchLoaEntry] *)

(** The guards of lines 17-20 pass. *)
Definition guards_pass (fp : FlightPlan) : Prop :=
  fp_IsValid fp = true /\ IsLOARelevantState (fp_GetState fp) = true /\
  stricmp_eq (fp_GetPlanType fp) "I" = true.

(** The scan [MatchLoaEntry] runs on a miss. *)
Definition engine_scan (st : RuleStore) (fp : FlightPlan) (online : gset string) (route : list string)
  : option LoaRef :=
  to_ref (rules_generation st) <$>
    scan_categories (category_accepts online (fp_GetOrigin fp) (fp_GetDestination fp)
      (fp_GetTrackingControllerId fp) (fp_GetClearedAltitude fp) route) (rules st) match_order.

Lemma MatchLoaEntry_miss st fp online tick rc mc :
  guards_pass fp -> cached_match (fp_GetCallsign fp) (to_DWORD tick) mc = None ->
  MatchLoaEntry st fp online tick rc mc =
    (engine_scan st fp online (GetCachedRoutePoints fp tick rc).1, (GetCachedRoutePoints fp tick rc).2,
     store_match (fp_GetCallsign fp) (engine_scan st fp online (GetCachedRoutePoints fp tick rc).1)
       (to_DWORD tick) mc).
Proof.
  intros (Hv & Hr & Hi) Hmiss. unfold MatchLoaEntry. rewrite Hv, Hr, ?Hi, Hmiss. simpl.
  by destruct (GetCachedRoutePoints fp tick rc).
Qed.

Lemma MatchLoaEntry_hit st fp online tick rc mc r :
  guards_pass fp -> cached_match (fp_GetCallsign fp) (to_DWORD tick) mc = Some r ->
  MatchLoaEntry st fp online tick rc mc = (r, rc, mc).
Proof. intros (Hv & Hr & Hi) Hhit. unfold MatchLoaEntry. by rewrite Hv, Hr, ?Hi, Hhit. Qed.

(** The answer of a hit alone: the cached result, whatever the call does
    to the caches. *)
Lemma MatchLoaEntry_hit_result st fp online tick rc mc r :
  guards_pass fp -> cached_match (fp_GetCallsign fp) (to_DWORD tick) mc = Some r ->
  (MatchLoaEntry st fp online tick rc mc).1.1 = r.
Proof.
  intros (Hv & Hr & Hi) Hhit. unfold MatchLoaEntry. rewrite Hv, Hr, ?Hi, Hhit.
  by destruct (GetCachedRoutePoints fp tick rc).
Qed.

(** The freshness test of the cache on [DWORD] values, without the
    64-bit subtraction: an answer is fresh when it was stored at most 4999
    ms before; once the [DWORD] tick wraps below the stored one, the
    difference wraps to nearly 2^64 and the answer is stale. *)
Lemma cached_match_window cs now mc :
  0 <= now < DWORD_MAX_P1 ->
  (forall ts, matchTimestamps mc !! cs = Some ts -> 0 <= ts < DWORD_MAX_P1) ->
  cached_match cs now mc =
    match matchTimestamps mc !! cs with
    | Some ts => if (ts <=? now) && (now - ts <? 5000) then matchedLOACache mc !! cs else None
    | None => None
    end.
Proof.
  intros Hnow Hts. unfold cached_match.
  destruct (matchTimestamps mc !! cs) as [ts|] eqn:E; [|done].
  specialize (Hts ts eq_refl). unfold DWORD_MAX_P1 in *.
  destruct (Z.leb_spec ts now) as [Hle|Hgt]; simpl.
  - rewrite sub_u64_exact by (unfold ULONGLONG_MAX_P1; lia). done.
  - rewrite sub_u64_backwards by (unfold is_u64, ULONGLONG_MAX_P1; lia).
    unfold ULONGLONG_MAX_P1. by rewrite (proj2 (Z.ltb_ge _ _)) by lia.
Qed.

Lemma ref_pos_to_ref g (o : option (LoaCategory * nat)) : ref_pos <$> (to_ref g <$> o) = o.
Proof. by destruct o as [[c i]|]. Qed.

Lemma engine_scan_governs st fp online route :
  ruleset_wf (rules st) ->
  Spec.governs (rules st) (flight_context fp online route) (ref_pos <$> engine_scan st fp online route).
Proof.
  intros Hwf. pose proof (scan_governs (rules st) (flight_context fp online route) Hwf) as H.
  unfold engine_scan. rewrite ref_pos_to_ref. exact H.
Qed.

Lemma engine_scan_deref st fp online route ref :
  engine_scan st fp online route = Some ref -> deref st ref <> None.
Proof.
  unfold engine_scan, deref. destruct (scan_categories _ _ _) as [[c i]|] eqn:Hs; [|discriminate].
  intros [= <-]. simpl. rewrite decide_True by done.
  destruct (scan_categories_Some _ _ _ _ _ Hs) as (_ & _ & _ & Hfind & _).
  destruct (find_index_lookup _ _ _ Hfind) as [e [He _]]. by rewrite He.
Qed.

(** After a miss at [t1], a call at [t2] whose [DWORD] tick is less than
    5000 after [to_DWORD t1] replays the stored answer and changes nothing,
    whatever the rules, the online set and the flight's other fields. *)
Lemma MatchLoaEntry_replay st st' fp fp' online online' t1 t2 rc mc :
  guards_pass fp -> guards_pass fp' -> fp_GetCallsign fp' = fp_GetCallsign fp ->
  cached_match (fp_GetCallsign fp) (to_DWORD t1) mc = None ->
  0 <= to_DWORD t2 - to_DWORD t1 < 5000 ->
  let '(r1, rc1, mc1) := MatchLoaEntry st fp online t1 rc mc in
  MatchLoaEntry st' fp' online' t2 rc1 mc1 = (r1, rc1, mc1).
Proof.
  intros Hg Hg' Hcs Hmiss Hwin. rewrite (MatchLoaEntry_miss _ _ _ _ _ _ Hg Hmiss).
  apply MatchLoaEntry_hit; [done|]. unfold cached_match, store_match; simpl.
  rewrite Hcs, !lookup_insert_eq, sub_u64_exact;
    [|pose proof (to_DWORD_range t1); pose proof (to_DWORD_range t2); lia
     |pose proof (to_DWORD_range t2); unfold DWORD_MAX_P1, ULONGLONG_MAX_P1 in *; lia].
  by rewrite (proj2 (Z.ltb_lt _ _)) by lia.
Qed.

(** The scan sees the route only up to the case of its points. *)
Lemma engine_scan_route_ieq st fp online r r' :
  route_ieq r r' -> engine_scan st fp online r = engine_scan st fp online r'.
Proof.
  intros Hr. unfold engine_scan. f_equal. apply scan_categories_ext. intros c e.
  by apply category_accepts_route_ieq.
Qed.

Lemma category_rank_inj c c' : Spec.category_rank c = Spec.category_rank c' -> c = c'.
Proof. destruct c, c'; simpl; congruence. Qed.

(** ** The match cache invariant

    A cached pointer was taken either from an earlier generation of the
    rule vectors (it dangles: the vectors it points into were cleared by a
    reload) or from the current one, and then designates a live entry;
    every cached answer has a timestamp, and timestamps are [DWORD]s. *)
Definition ref_ok (st : RuleStore) (r : LoaRef) : Prop :=
  (ref_generation r < rules_generation st)%nat \/ deref st r <> None.

Definition match_cache_inv (st : RuleStore) (mc : MatchCache) : Prop :=
  (forall cs r, matchedLOACache mc !! cs = Some (Some r) -> ref_ok st r) /\
  (forall cs, is_Some (matchedLOACache mc !! cs) -> is_Some (matchTimestamps mc !! cs)) /\
  (forall cs t, matchTimestamps mc !! cs = Some t -> 0 <= t < DWORD_MAX_P1).

Lemma ref_ok_generation st r : ref_ok st r -> (ref_generation r <= rules_generation st)%nat.
Proof. unfold ref_ok, deref. intros [H|H]; [lia|]. by case_decide; [lia|]. Qed.

Lemma ref_ok_newer st st' r :
  ref_ok st r -> (rules_generation st < rules_generation st')%nat -> ref_ok st' r.
Proof. intros H Hlt. left. pose proof (ref_ok_generation _ _ H) as Hle. lia. Qed.

Lemma match_cache_inv_newer st st' mc :
  match_cache_inv st mc -> (rules_generation st < rules_generation st')%nat -> match_cache_inv st' mc.
Proof. intros (Hr & Hk & Ht) Hlt. split_and!; eauto using ref_ok_newer. Qed.

Lemma match_cache_inv_empty st : match_cache_inv st (mkMatchCache ∅ ∅).
Proof. split_and!; simpl; intros *; rewrite ?lookup_empty; [discriminate|by intros []|discriminate]. Qed.

Lemma store_match_inv st cs r now mc :
  match_cache_inv st mc -> (forall ref, r = Some ref -> ref_ok st ref) -> 0 <= now < DWORD_MAX_P1 ->
  match_cache_inv st (store_match cs r now mc).
Proof.
  intros (Hr & Hk & Ht) Href Hnow. unfold store_match. split_and!; simpl; intros cs'.
  - destruct (decide (cs = cs')) as [->|?]; [rewrite lookup_insert_eq; intros ? [= ->]; auto|].
    rewrite lookup_insert_ne by done. apply Hr.
  - destruct (decide (cs = cs')) as [->|?]; [rewrite !lookup_insert_eq; eauto|].
    rewrite !lookup_insert_ne by done. apply Hk.
  - destruct (decide (cs = cs')) as [->|?]; [rewrite lookup_insert_eq; by intros ? [= <-]|].
    rewrite lookup_insert_ne by done. apply Ht.
Qed.

Lemma cached_match_ok st cs now mc r :
  match_cache_inv st mc -> cached_match cs now mc = Some (Some r) -> ref_ok st r.
Proof.
  intros (Hr & _ & _). unfold cached_match.
  destruct (matchedLOACache mc !! cs) as [o|] eqn:Hm; repeat case_match; simpl in *; intros; simplify_eq; eauto.
Qed.

(** [MatchLoaEntry] keeps both cache invariants, and what it returns is a
    pointer the cache invariant allows. *)
Lemma MatchLoaEntry_inv st fp online tick rc mc :
  route_cache_inv rc -> match_cache_inv st mc ->
  let '(r, rc', mc') := MatchLoaEntry st fp online tick rc mc in
  route_cache_inv rc' /\ match_cache_inv st mc' /\ (forall ref, r = Some ref -> ref_ok st ref).
Proof.
  intros Hrc Hmc. unfold MatchLoaEntry.
  pose proof (GetCachedRoutePoints_inv fp tick rc Hrc) as Hrc'.
  assert (Hscan : forall route ref, engine_scan st fp online route = Some ref -> ref_ok st ref)
    by (intros route ref Hs; right; by eapply engine_scan_deref).
  destruct (GetCachedRoutePoints fp tick rc) as [route rc'].
  repeat case_match; simplify_eq; split_and!; try done;
    try (apply store_match_inv; [done| |apply to_DWORD_range]);
    intros ref Href; subst; first [by eapply Hscan | by eapply cached_match_ok].
Qed.

Lemma CleanupCache_match_inv st cs rc mc :
  match_cache_inv st mc -> match_cache_inv st (CleanupCache cs rc mc).2.
Proof.
  intros (Hr & Hk & Ht). split_and!; simpl; [intros cs' r|intros cs'|exact Ht];
    (destruct (decide (cs = cs')) as [->|?];
     [rewrite lookup_delete_eq; first [discriminate|by intros []]|rewrite lookup_delete_ne by done; eauto]).
Qed.

Lemma OnFlightPlanStateChange_match_inv st fp rc mc :
  match_cache_inv st mc -> match_cache_inv st (OnFlightPlanStateChange fp rc mc).2.
Proof.
  intros H. unfold OnFlightPlanStateChange. destruct (negb (fp_IsValid fp)); [done|].
  destruct (fp_GetState fp); auto using CleanupCache_match_inv.
Qed.

#[export] Hint Resolve match_cache_inv_empty store_match_inv CleanupCache_match_inv
  OnFlightPlanStateChange_match_inv : loa.

(** ** Scenario data *)

(** The fallback rule of spec 8: no waypoints, minimum altitude 24500 ft. *)
Definition fl245_fallback : LOAEntry :=
  {| sectors := []; waypoints := []; originAirports := []; destinationAirports := [];
     nextSectors := []; xfl := 0; copText := "COPX"; requireNextSectorOnline := false;
     minAltitudeFt := 24500; originAirportSet := ∅; originAirportPrefixes := [];
     destinationAirportSet := ∅; destinationAirportPrefixes := [] |}.

(** A rule through KONAN, whatever the airports. *)
Definition sample_konan_rule : LOAEntry :=
  {| sectors := []; waypoints := ["KONAN"]; originAirports := []; destinationAirports := [];
     nextSectors := []; xfl := 140; copText := "KONAN"; requireNextSectorOnline := false;
     minAltitudeFt := 0; originAirportSet := ∅; originAirportPrefixes := [];
     destinationAirportSet := ∅; destinationAirportPrefixes := [] |}.

Definition cleared_flight (cleared : Z) : FlightPlan :=
  mkFlightPlan true "BAW1" FLIGHT_PLAN_STATE_ASSUMED "I" "EGLL" "EDDF" cleared 35000
    ["DVR"; "KONAN"] "LON_S" 0 COORDINATION_STATE_NONE "" COORDINATION_STATE_NONE.

(** ** Theorems *)

(** C1: refinement of spec 4.4.  On a cache miss, for a rule set the
    loader keeps well formed, [MatchLoaEntry] returns the governing rule of
    the flight (the first accepted entry of the first category that has
    one, with the route the route cache returns), or null when no entry of
    any category is accepted; the pointer designates a live entry; the
    route cache is updated by [GetCachedRoutePoints]; and the answer,
    null included, is cached with the [DWORD] tick. *)
Theorem MatchLoaEntry_miss_governs st fp online tick rc mc :
  ruleset_wf (rules st) -> guards_pass fp ->
  cached_match (fp_GetCallsign fp) (to_DWORD tick) mc = None ->
  let route := (GetCachedRoutePoints fp tick rc).1 in
  let '(r, rc', mc') := MatchLoaEntry st fp online tick rc mc in
  Spec.governs (rules st) (flight_context fp online route) (ref_pos <$> r) /\
  (forall ref, r = Some ref -> deref st ref <> None) /\
  rc' = (GetCachedRoutePoints fp tick rc).2 /\
  matchedLOACache mc' !! fp_GetCallsign fp = Some r /\
  matchTimestamps mc' !! fp_GetCallsign fp = Some (to_DWORD tick).
Proof.
  intros Hwf Hg Hmiss route. rewrite (MatchLoaEntry_miss _ _ _ _ _ _ Hg Hmiss).
  unfold store_match; simpl. rewrite !lookup_insert_eq.
  split_and!; [by apply engine_scan_governs|intros ref; apply engine_scan_deref|done|done|done].
Qed.

Lemma MatchLoaEntry_miss_governs_witness :
  let st := mkRuleStore (mkRuleSet [] [] [] [] [default_LOAEntry]) 0 in
  let fp := mkFlightPlan true "BAW1" FLIGHT_PLAN_STATE_ASSUMED "I" "EGLL" "KJFK" 16000 35000
              ["LENDY"] "LON_S" 0 COORDINATION_STATE_NONE "" COORDINATION_STATE_NONE in
  ruleset_wf (rules st) /\ guards_pass fp /\ cached_match "BAW1" (to_DWORD 1000) (mkMatchCache ∅ ∅) = None /\
  (let '(r, rc', mc') := MatchLoaEntry st fp ∅ 1000 (mkRouteCache ∅ ∅) (mkMatchCache ∅ ∅) in
   Spec.governs (rules st) (flight_context fp ∅ (GetCachedRoutePoints fp 1000 (mkRouteCache ∅ ∅)).1) (ref_pos <$> r) /\
   (forall ref, r = Some ref -> deref st ref <> None) /\
   rc' = (GetCachedRoutePoints fp 1000 (mkRouteCache ∅ ∅)).2 /\
   matchedLOACache mc' !! "BAW1" = Some r /\ matchTimestamps mc' !! "BAW1" = Some (to_DWORD 1000)).
Proof.
  assert (Hwf : ruleset_wf (mkRuleSet [] [] [] [] [default_LOAEntry])).
  { intros [] e He; simpl in He; try by apply elem_of_nil in He.
    apply list_elem_of_singleton in He as ->. split; reflexivity. }
  assert (Hg : guards_pass (mkFlightPlan true "BAW1" FLIGHT_PLAN_STATE_ASSUMED "I" "EGLL" "KJFK" 16000 35000
              ["LENDY"] "LON_S" 0 COORDINATION_STATE_NONE "" COORDINATION_STATE_NONE)) by (split_and!; reflexivity).
  split_and!; [exact Hwf|exact Hg|reflexivity|].
  exact (MatchLoaEntry_miss_governs (mkRuleStore (mkRuleSet [] [] [] [] [default_LOAEntry]) 0) _ ∅ 1000
           (mkRouteCache ∅ ∅) (mkMatchCache ∅ ∅) Hwf Hg eq_refl).
Defined.

(** C4: a cached answer less than 5000 ms old (in [DWORD] ticks) is
    returned without a scan: the route cache is not consulted and no state
    changes. *)
Theorem MatchLoaEntry_cache_hit st fp online tick rc mc ts r :
  guards_pass fp ->
  matchTimestamps mc !! fp_GetCallsign fp = Some ts -> to_DWORD tick ⊖ ts < 5000 ->
  matchedLOACache mc !! fp_GetCallsign fp = Some r ->
  MatchLoaEntry st fp online tick rc mc = (r, rc, mc).
Proof.
  intros Hg Hts Hfresh Hr. apply MatchLoaEntry_hit; [done|].
  unfold cached_match. rewrite Hts, Hr. by rewrite (proj2 (Z.ltb_lt _ _) Hfresh).
Qed.

Lemma MatchLoaEntry_cache_hit_witness :
  let fp := mkFlightPlan true "BAW1" FLIGHT_PLAN_STATE_ASSUMED "I" "EGLL" "KJFK" 16000 35000
              ["LENDY"] "LON_S" 0 COORDINATION_STATE_NONE "" COORDINATION_STATE_NONE in
  let mc := mkMatchCache {[ "BAW1" := None ]} {[ "BAW1" := 1000 ]} in
  guards_pass fp /\ matchTimestamps mc !! "BAW1" = Some 1000 /\ to_DWORD 3000 ⊖ 1000 < 5000 /\
  matchedLOACache mc !! "BAW1" = Some None /\
  MatchLoaEntry (mkRuleStore empty_RuleSet 0) fp ∅ 3000 (mkRouteCache ∅ ∅) mc = (None, mkRouteCache ∅ ∅, mc).
Proof.
  assert (Hg : guards_pass (mkFlightPlan true "BAW1" FLIGHT_PLAN_STATE_ASSUMED "I" "EGLL" "KJFK" 16000 35000
              ["LENDY"] "LON_S" 0 COORDINATION_STATE_NONE "" COORDINATION_STATE_NONE)) by (split_and!; reflexivity).
  assert (Hf : to_DWORD 3000 ⊖ 1000 < 5000) by (vm_compute; reflexivity).
  split_and!; [exact Hg|reflexivity|exact Hf|reflexivity|].
  exact (MatchLoaEntry_cache_hit _ _ ∅ 3000 (mkRouteCache ∅ ∅)
           (mkMatchCache {[ "BAW1" := None ]} {[ "BAW1" := 1000 ]}) 1000 None Hg eq_refl Hf eq_refl).
Defined.

(** C11: an invalid flight plan, a state outside the LOA-relevant ones, or
    a plan type other than "I" (ignoring case) gets no rule, and nothing is
    cached. *)
Theorem MatchLoaEntry_guards st fp online tick rc mc :
  ~ guards_pass fp -> MatchLoaEntry st fp online tick rc mc = (None, rc, mc).
Proof.
  intros Hg. unfold MatchLoaEntry, guards_pass in *.
  destruct (fp_IsValid fp), (IsLOARelevantState (fp_GetState fp)), (stricmp_eq (fp_GetPlanType fp) "I");
    simpl; try done. exfalso. by apply Hg.
Qed.

Lemma MatchLoaEntry_guards_witness :
  let fp := mkFlightPlan true "BAW1" FLIGHT_PLAN_STATE_ASSUMED "V" "EGLL" "KJFK" 16000 35000
              ["LENDY"] "LON_S" 0 COORDINATION_STATE_NONE "" COORDINATION_STATE_NONE in
  ~ guards_pass fp /\
  MatchLoaEntry (mkRuleStore (mkRuleSet [] [] [] [] [default_LOAEntry]) 0) fp ∅ 0 (mkRouteCache ∅ ∅) (mkMatchCache ∅ ∅)
    = (None, mkRouteCache ∅ ∅, mkMatchCache ∅ ∅).
Proof.
  assert (Hg : ~ guards_pass (mkFlightPlan true "BAW1" FLIGHT_PLAN_STATE_ASSUMED "V" "EGLL" "KJFK" 16000 35000
              ["LENDY"] "LON_S" 0 COORDINATION_STATE_NONE "" COORDINATION_STATE_NONE))
    by (intros (_ & _ & H); discriminate H).
  split; [exact Hg|]. exact (MatchLoaEntry_guards _ _ ∅ 0 _ _ Hg).
Defined.

(** C5: idempotence (spec 8): a second call for the same flight less than
    5000 ms after the call that scanned returns the identical pointer, and
    neither scans again nor changes any cache. *)
Theorem MatchLoaEntry_idempotent st fp online t1 t2 rc mc :
  guards_pass fp -> cached_match (fp_GetCallsign fp) (to_DWORD t1) mc = None ->
  0 <= to_DWORD t2 - to_DWORD t1 < 5000 ->
  let '(r1, rc1, mc1) := MatchLoaEntry st fp online t1 rc mc in
  MatchLoaEntry st fp online t2 rc1 mc1 = (r1, rc1, mc1).
Proof. intros Hg Hmiss Hwin. by apply MatchLoaEntry_replay. Qed.

Lemma MatchLoaEntry_idempotent_witness :
  let st := mkRuleStore (mkRuleSet [] [] [] [] [default_LOAEntry]) 0 in
  let fp := mkFlightPlan true "BAW1" FLIGHT_PLAN_STATE_ASSUMED "I" "EGLL" "KJFK" 16000 35000
              ["LENDY"] "LON_S" 0 COORDINATION_STATE_NONE "" COORDINATION_STATE_NONE in
  guards_pass fp /\ cached_match "BAW1" (to_DWORD 1000) (mkMatchCache ∅ ∅) = None /\
  0 <= to_DWORD 4000 - to_DWORD 1000 < 5000 /\
  (let '(r1, rc1, mc1) := MatchLoaEntry st fp ∅ 1000 (mkRouteCache ∅ ∅) (mkMatchCache ∅ ∅) in
   MatchLoaEntry st fp ∅ 4000 rc1 mc1 = (r1, rc1, mc1)).
Proof.
  assert (Hg : guards_pass (mkFlightPlan true "BAW1" FLIGHT_PLAN_STATE_ASSUMED "I" "EGLL" "KJFK" 16000 35000
              ["LENDY"] "LON_S" 0 COORDINATION_STATE_NONE "" COORDINATION_STATE_NONE)) by (split_and!; reflexivity).
  assert (Hw : 0 <= to_DWORD 4000 - to_DWORD 1000 < 5000)
    by (rewrite !to_DWORD_small by (unfold DWORD_MAX_P1; lia); lia).
  split; [exact Hg|]. split; [reflexivity|]. split; [exact Hw|].
  exact (MatchLoaEntry_idempotent (mkRuleStore (mkRuleSet [] [] [] [] [default_LOAEntry]) 0) _ ∅ 1000 4000
           (mkRouteCache ∅ ∅) (mkMatchCache ∅ ∅) Hg eq_refl Hw).
Defined.

(** C22: the cache is keyed on the tick truncated to 32 bits: an answer
    stored at tick [t] and not refreshed since is served again at tick
    [t + 2^32] (49.7 days later), whatever the rule set and the online
    controllers are by then. *)
Theorem MatchLoaEntry_dword_alias st st' fp online online' t rc mc :
  guards_pass fp -> cached_match (fp_GetCallsign fp) (to_DWORD t) mc = None ->
  let '(r1, rc1, mc1) := MatchLoaEntry st fp online t rc mc in
  MatchLoaEntry st' fp online' (t + DWORD_MAX_P1) rc1 mc1 = (r1, rc1, mc1).
Proof.
  intros Hg Hmiss. apply MatchLoaEntry_replay; try done.
  unfold to_DWORD. rewrite Z.add_mod, Z.mod_same, Z.add_0_r, Z.mod_mod by (unfold DWORD_MAX_P1; lia).
  lia.
Qed.

Lemma MatchLoaEntry_dword_alias_witness :
  let fp := mkFlightPlan true "BAW1" FLIGHT_PLAN_STATE_ASSUMED "I" "EGLL" "KJFK" 16000 35000
              ["LENDY"] "LON_S" 0 COORDINATION_STATE_NONE "" COORDINATION_STATE_NONE in
  guards_pass fp /\ cached_match "BAW1" (to_DWORD 1000) (mkMatchCache ∅ ∅) = None /\
  (let '(r1, rc1, mc1) := MatchLoaEntry (mkRuleStore empty_RuleSet 0) fp ∅ 1000 (mkRouteCache ∅ ∅) (mkMatchCache ∅ ∅) in
   MatchLoaEntry (mkRuleStore (mkRuleSet [] [] [] [] [default_LOAEntry]) 1) fp ∅ (1000 + DWORD_MAX_P1) rc1 mc1
   = (r1, rc1, mc1)).
Proof.
  assert (Hg : guards_pass (mkFlightPlan true "BAW1" FLIGHT_PLAN_STATE_ASSUMED "I" "EGLL" "KJFK" 16000 35000
              ["LENDY"] "LON_S" 0 COORDINATION_STATE_NONE "" COORDINATION_STATE_NONE)) by (split_and!; reflexivity).
  split_and!; [exact Hg|reflexivity|].
  exact (MatchLoaEntry_dword_alias _ (mkRuleStore (mkRuleSet [] [] [] [] [default_LOAEntry]) 1) _ ∅ ∅ 1000
           (mkRouteCache ∅ ∅) (mkMatchCache ∅ ∅) Hg eq_refl).
Defined.

(** C6: priority (spec 8): on a cache miss, when an entry of category [c]
    at index [i] is accepted, the selected rule is that entry, an earlier
    entry of [c], or an entry of a category scanned before [c]. *)
Theorem MatchLoaEntry_priority st fp online tick rc mc c i e :
  ruleset_wf (rules st) -> guards_pass fp ->
  cached_match (fp_GetCallsign fp) (to_DWORD tick) mc = None ->
  category_entries (rules st) c !! i = Some e ->
  Spec.category_ok c (flight_context fp online (GetCachedRoutePoints fp tick rc).1) e ->
  exists ref, (MatchLoaEntry st fp online tick rc mc).1.1 = Some ref /\
    ((ref_category ref = c /\ (ref_index ref <= i)%nat) \/
     (Spec.category_rank (ref_category ref) < Spec.category_rank c)%nat).
Proof.
  intros Hwf Hg Hmiss He Hok. rewrite (MatchLoaEntry_miss _ _ _ _ _ _ Hg Hmiss). simpl.
  pose proof (engine_scan_governs st fp online (GetCachedRoutePoints fp tick rc).1 Hwf) as Hgov.
  destruct (engine_scan _ _ _ _) as [ref|]; simpl in Hgov; [|exfalso; by eapply Hgov].
  exists ref. split; [done|]. destruct Hgov as [_ Hfirst]. unfold ref_pos in Hfirst.
  destruct (Nat.lt_trichotomy (Spec.category_rank (ref_category ref)) (Spec.category_rank c))
    as [Hlt|[Heq|Hgt]]; [by right| |].
  - apply category_rank_inj in Heq. left. split; [done|].
    destruct (Nat.le_gt_cases (ref_index ref) i) as [|Hgt]; [done|].
    exfalso. apply (Hfirst c i e); [right; split; [congruence|done]|done|done].
  - exfalso. apply (Hfirst c i e); [by left|done|done].
Qed.

Lemma MatchLoaEntry_priority_witness :
  let e1 := default_LOAEntry in
  let st := mkRuleStore (mkRuleSet [e1; e1] [] [] [] []) 0 in
  let fp := mkFlightPlan true "BAW1" FLIGHT_PLAN_STATE_ASSUMED "I" "EGLL" "KJFK" 16000 35000
              ["LENDY"] "LON_S" 0 COORDINATION_STATE_NONE "" COORDINATION_STATE_NONE in
  ruleset_wf (rules st) /\ guards_pass fp /\ cached_match "BAW1" (to_DWORD 7) (mkMatchCache ∅ ∅) = None /\
  category_entries (rules st) DestinationLoas !! 1%nat = Some e1 /\
  Spec.category_ok DestinationLoas (flight_context fp ∅ (GetCachedRoutePoints fp 7 (mkRouteCache ∅ ∅)).1) e1 /\
  exists ref, (MatchLoaEntry st fp ∅ 7 (mkRouteCache ∅ ∅) (mkMatchCache ∅ ∅)).1.1 = Some ref /\
    ((ref_category ref = DestinationLoas /\ (ref_index ref <= 1)%nat) \/
     (Spec.category_rank (ref_category ref) < Spec.category_rank DestinationLoas)%nat).
Proof.
  assert (Hwf : ruleset_wf (mkRuleSet [default_LOAEntry; default_LOAEntry] [] [] [] [])).
  { intros [] e He; simpl in He; try by apply elem_of_nil in He.
    repeat (apply elem_of_cons in He as [->|He]; [split; reflexivity|]). by apply elem_of_nil in He. }
  assert (Hg : guards_pass (mkFlightPlan true "BAW1" FLIGHT_PLAN_STATE_ASSUMED "I" "EGLL" "KJFK" 16000 35000
              ["LENDY"] "LON_S" 0 COORDINATION_STATE_NONE "" COORDINATION_STATE_NONE)) by (split_and!; reflexivity).
  assert (Hok : Spec.category_ok DestinationLoas (flight_context (mkFlightPlan true "BAW1" FLIGHT_PLAN_STATE_ASSUMED
     "I" "EGLL" "KJFK" 16000 35000 ["LENDY"] "LON_S" 0 COORDINATION_STATE_NONE "" COORDINATION_STATE_NONE) ∅
     (GetCachedRoutePoints (mkFlightPlan true "BAW1" FLIGHT_PLAN_STATE_ASSUMED "I" "EGLL" "KJFK" 16000 35000
              ["LENDY"] "LON_S" 0 COORDINATION_STATE_NONE "" COORDINATION_STATE_NONE) 7 (mkRouteCache ∅ ∅)).1)
     default_LOAEntry).
  { apply (matchIn_accepts_spec (flight_context _ _ _)); [split; reflexivity|reflexivity]. }
  split; [exact Hwf|]. split; [exact Hg|]. split; [reflexivity|]. split; [reflexivity|]. split; [exact Hok|].
  exact (MatchLoaEntry_priority (mkRuleStore (mkRuleSet [default_LOAEntry; default_LOAEntry] [] [] [] []) 0)
           _ ∅ 7 (mkRouteCache ∅ ∅) (mkMatchCache ∅ ∅) DestinationLoas 1 default_LOAEntry Hwf Hg eq_refl eq_refl Hok).
Defined.

(** waypoint matching (spec 8): an entry's waypoints pass exactly
    when each of them equals some route point after lowering both, so an
    empty waypoint list always passes. *)
Theorem wpMatch_case_insensitive route wps :
  wpMatch route wps = true <-> forall wp, wp ∈ wps -> exists r, r ∈ route /\ lower r = lower wp.
Proof.
  rewrite wpMatch_spec. unfold Spec.waypoints_ok, ieq. setoid_rewrite EqualsIgnoreCase_lower. done.
Qed.

(** the fallback loop reads only the altitude threshold, the
    destination airports and the waypoints of an entry: two fallback
    entries that agree on those are accepted alike, whatever their origin
    lists, next sectors and online requirement (spec 8). *)
Theorem fallback_accepts_ignores_gates cleared destination route e1 e2 :
  minAltitudeFt e1 = minAltitudeFt e2 -> waypoints e1 = waypoints e2 ->
  destinationAirports e1 = destinationAirports e2 ->
  destinationAirportSet e1 = destinationAirportSet e2 ->
  destinationAirportPrefixes e1 = destinationAirportPrefixes e2 ->
  fallback_accepts cleared destination route e1 = fallback_accepts cleared destination route e2.
Proof. intros Hm Hw Hd Hs Hp. unfold fallback_accepts. by rewrite Hm, Hw, Hd, Hs, Hp. Qed.

Lemma fallback_accepts_ignores_gates_witness :
  let gated := {| sectors := []; waypoints := []; originAirports := ["EDDF"]; destinationAirports := [];
                  nextSectors := ["LON_N"]; xfl := 0; copText := "COPX"; requireNextSectorOnline := true;
                  minAltitudeFt := 24500; originAirportSet := {[ "EDDF" ]}; originAirportPrefixes := [];
                  destinationAirportSet := ∅; destinationAirportPrefixes := [] |} in
  let plain := {| sectors := []; waypoints := []; originAirports := []; destinationAirports := [];
                  nextSectors := []; xfl := 0; copText := "COPX"; requireNextSectorOnline := false;
                  minAltitudeFt := 24500; originAirportSet := ∅; originAirportPrefixes := [];
                  destinationAirportSet := ∅; destinationAirportPrefixes := [] |} in
  fallback_accepts 25000 "KJFK" ["DVR"] gated = fallback_accepts 25000 "KJFK" ["DVR"] plain /\
  fallback_accepts 25000 "KJFK" ["DVR"] gated = true.
Proof.
  split; [|reflexivity].
  apply fallback_accepts_ignores_gates; reflexivity.
Defined.

(** the fallback scenario of spec 8: with the single fallback rule
    {minAltitudeFt: 24500, waypoints: []}, a flight cleared to 23000 ft
    gets no rule and one cleared to 25000 ft gets the fallback rule (the
    empty waypoint list passes). *)
Theorem MatchLoaEntry_fallback_threshold :
  let st := mkRuleStore (mkRuleSet [] [] [] [] [fl245_fallback]) 0 in
  (MatchLoaEntry st (cleared_flight 23000) ∅ 1000 (mkRouteCache ∅ ∅) (mkMatchCache ∅ ∅)).1.1 = None /\
  (MatchLoaEntry st (cleared_flight 25000) ∅ 1000 (mkRouteCache ∅ ∅) (mkMatchCache ∅ ∅)).1.1 =
    Some (mkLoaRef 0 FallbackLoas 0).
Proof. split; vm_compute; reflexivity. Qed.

(** C12: after a flight plan turns non-concerned or redundant, the next
    match for its callsign is cold (spec 8): whatever was cached, it
    re-extracts the route and returns the governing rule for it. *)
Theorem MatchLoaEntry_after_cleanup st fp fp' online tick rc mc :
  ruleset_wf (rules st) -> fp_IsValid fp = true -> IsLOARelevantState (fp_GetState fp) = false ->
  guards_pass fp' -> fp_GetCallsign fp' = fp_GetCallsign fp ->
  let '(rc1, mc1) := OnFlightPlanStateChange fp rc mc in
  Spec.governs (rules st) (flight_context fp' online (fp_GetExtractedRoute fp'))
    (ref_pos <$> (MatchLoaEntry st fp' online tick rc1 mc1).1.1).
Proof.
  intros Hwf Hv Hrel Hg Hcs. unfold OnFlightPlanStateChange. rewrite Hv. simpl.
  destruct (fp_GetState fp) eqn:Hs; try discriminate; simpl;
    (rewrite MatchLoaEntry_miss;
     [unfold GetCachedRoutePoints; rewrite Hcs; simpl; rewrite lookup_delete_eq; simpl;
      by apply engine_scan_governs
     |done
     |unfold cached_match; simpl; rewrite Hcs, lookup_delete_eq; by destruct (_ !! _); [case_match|]]).
Qed.

Lemma MatchLoaEntry_after_cleanup_witness :
  let st := mkRuleStore (mkRuleSet [] [] [] [] [fl245_fallback]) 0 in
  let gone := mkFlightPlan true "BAW1" FLIGHT_PLAN_STATE_NON_CONCERNED "I" "EGLL" "EDDF" 25000 35000
                ["DVR"] "LON_S" 0 COORDINATION_STATE_NONE "" COORDINATION_STATE_NONE in
  ruleset_wf (rules st) /\ fp_IsValid gone = true /\ IsLOARelevantState (fp_GetState gone) = false /\
  guards_pass (cleared_flight 25000) /\ fp_GetCallsign (cleared_flight 25000) = fp_GetCallsign gone /\
  (let '(rc1, mc1) := OnFlightPlanStateChange gone (mkRouteCache ∅ ∅) (mkMatchCache {[ "BAW1" := None ]} {[ "BAW1" := 990 ]}) in
   Spec.governs (rules st) (flight_context (cleared_flight 25000) ∅ (fp_GetExtractedRoute (cleared_flight 25000)))
     (ref_pos <$> (MatchLoaEntry st (cleared_flight 25000) ∅ 1000 rc1 mc1).1.1)).
Proof.
  assert (Hwf : ruleset_wf (mkRuleSet [] [] [] [] [fl245_fallback])).
  { intros [] e He; simpl in He; try by apply elem_of_nil in He.
    apply list_elem_of_singleton in He as ->. split; reflexivity. }
  assert (Hg : guards_pass (cleared_flight 25000)) by (split_and!; reflexivity).
  split; [exact Hwf|]. split; [reflexivity|]. split; [reflexivity|]. split; [exact Hg|]. split; [reflexivity|].
  exact (MatchLoaEntry_after_cleanup (mkRuleStore (mkRuleSet [] [] [] [] [fl245_fallback]) 0)
           (mkFlightPlan true "BAW1" FLIGHT_PLAN_STATE_NON_CONCERNED "I" "EGLL" "EDDF" 25000 35000
              ["DVR"] "LON_S" 0 COORDINATION_STATE_NONE "" COORDINATION_STATE_NONE)
           (cleared_flight 25000) ∅ 1000
           (mkRouteCache ∅ ∅) (mkMatchCache {[ "BAW1" := None ]} {[ "BAW1" := 990 ]}) Hwf eq_refl eq_refl Hg eq_refl).
Defined.

(** C13: Liveness of the cache: an answer is served for at most 5000 ms.  When
    the stored timestamp is not within the 5000 ms before the current
    [DWORD] tick (it is older, or the 32-bit tick has wrapped below it),
    [MatchLoaEntry] scans again and returns the governing rule of the
    current rules, stamping it with the current tick. *)
Theorem MatchLoaEntry_expiry st fp online tick rc mc ts :
  ruleset_wf (rules st) -> guards_pass fp ->
  matchTimestamps mc !! fp_GetCallsign fp = Some ts -> 0 <= ts < DWORD_MAX_P1 ->
  ~ (ts <= to_DWORD tick < ts + 5000) ->
  let '(r, rc', mc') := MatchLoaEntry st fp online tick rc mc in
  Spec.governs (rules st) (flight_context fp online (GetCachedRoutePoints fp tick rc).1) (ref_pos <$> r) /\
  matchTimestamps mc' !! fp_GetCallsign fp = Some (to_DWORD tick).
Proof.
  intros Hwf Hg Hts Hrange Hold.
  assert (Hmiss : cached_match (fp_GetCallsign fp) (to_DWORD tick) mc = None).
  { rewrite cached_match_window; [|apply to_DWORD_range|by rewrite Hts; intros ? [= <-]].
    rewrite Hts. destruct (Z.leb_spec ts (to_DWORD tick)), (Z.ltb_spec (to_DWORD tick - ts) 5000);
      simpl; try done; lia. }
  rewrite (MatchLoaEntry_miss _ _ _ _ _ _ Hg Hmiss). split; [by apply engine_scan_governs|].
  apply lookup_insert_eq.
Qed.

Lemma MatchLoaEntry_expiry_witness :
  let st := mkRuleStore (mkRuleSet [] [] [] [] [fl245_fallback]) 1 in
  let mc := mkMatchCache {["BAW1" := Some (mkLoaRef 0 DestinationLoas 3)]} {["BAW1" := 1000]} in
  (ruleset_wf (rules st) /\ guards_pass (cleared_flight 25000) /\
   matchTimestamps mc !! "BAW1" = Some 1000 /\ 0 <= 1000 < DWORD_MAX_P1 /\
   ~ (1000 <= to_DWORD (DWORD_MAX_P1 + 500) < 1000 + 5000)) /\
  let '(r, rc', mc') := MatchLoaEntry st (cleared_flight 25000) ∅ (DWORD_MAX_P1 + 500) (mkRouteCache ∅ ∅) mc in
  Spec.governs (rules st) (flight_context (cleared_flight 25000) ∅
    (GetCachedRoutePoints (cleared_flight 25000) (DWORD_MAX_P1 + 500) (mkRouteCache ∅ ∅)).1) (ref_pos <$> r) /\
  matchTimestamps mc' !! "BAW1" = Some (to_DWORD (DWORD_MAX_P1 + 500)).
Proof.
  intros st mc.
  assert (Hwf : ruleset_wf (rules st)).
  { intros [] e He; simpl in He; try by apply elem_of_nil in He.
    apply list_elem_of_singleton in He as ->. split; reflexivity. }
  assert (Hg : guards_pass (cleared_flight 25000)) by (split_and!; reflexivity).
  assert (Hts : matchTimestamps mc !! "BAW1" = Some 1000) by reflexivity.
  assert (Hr : 0 <= 1000 < DWORD_MAX_P1) by (unfold DWORD_MAX_P1; lia).
  assert (Hold : ~ (1000 <= to_DWORD (DWORD_MAX_P1 + 500) < 1000 + 5000)).
  { assert (E : to_DWORD (DWORD_MAX_P1 + 500) = 500) by reflexivity. rewrite E. lia. }
  split; [exact (conj Hwf (conj Hg (conj Hts (conj Hr Hold))))|].
  exact (MatchLoaEntry_expiry st (cleared_flight 25000) ∅ (DWORD_MAX_P1 + 500) (mkRouteCache ∅ ∅) mc 1000
           Hwf Hg Hts Hr Hold).
Defined.

End Matcher.
