(* ===== verification/Coordination.v ===== *)
(** * The coordination tracker: [coordinationStates]

    [CoordinationInfo] (LOAPlugin.h) per callsign, written by
    [LOAPlugin::OnFlightPlanCoordinationStateChange] (LOAPlugin.cpp) and by
    the renderers: the exit-altitude track by [RenderXFLTagItem] and
    [RenderXFLDetailedTagItem] (TagXFL.cpp), the exit-point track by
    [RenderCOPTagItem] (TagCOP.cpp).  [operator[]] on the map creates a
    default entry, which the model writes out.  The renderers use the
    functions of this file for the lines that touch the tracker; the
    theorems of this file are about the tracker alone (what each writer
    stores); the rendered values are in TagXFL.v and TagCOP.v, and the
    comparison with the negotiation machine of spec 4.6 in Negotiation.v. *)

From stdpp Require Import base gmap strings list.
From Stdlib Require Import ZArith String Bool Lia.
From S2P Require Import Prelude Host.
Import Host.

Module Coordination.

Local Open Scope Z_scope.

Record CoordinationInfo := mkCoordinationInfo {
  exitAltitude : Z;
  exitAltitudeState : CoordinationState;
  exitPoint : string;
  exitPointState : CoordinationState
}.

(** The member initialisers: 0 is [COORDINATION_STATE_NONE]. *)
Definition default_CoordinationInfo : CoordinationInfo :=
  mkCoordinationInfo 0 COORDINATION_STATE_NONE "" COORDINATION_STATE_NONE.

Definition with_altitude (alt : Z) (s : CoordinationState) (i : CoordinationInfo) : CoordinationInfo :=
  mkCoordinationInfo alt s (exitPoint i) (exitPointState i).

Definition with_point (p : string) (s : CoordinationState) (i : CoordinationInfo) : CoordinationInfo :=
  mkCoordinationInfo (exitAltitude i) (exitAltitudeState i) p s.

Notation CoordinationStates := (gmap string CoordinationInfo).

(** [coordinationStates[callsign]]: the entry, default-constructed (and
    inserted) when missing. *)
Definition coord_get (callsign : string) (m : CoordinationStates) : CoordinationInfo :=
  default default_CoordinationInfo (m !! callsign).

Definition coord_update (callsign : string) (f : CoordinationInfo -> CoordinationInfo)
    (m : CoordinationStates) : CoordinationStates :=
  <[callsign := f (coord_get callsign m)]> m.

Definition is_live_request (s : CoordinationState) : bool :=
  bool_decide (s = COORDINATION_STATE_REQUESTED_BY_ME) || bool_decide (s = COORDINATION_STATE_REQUESTED_BY_OTHER).

(** ** [OnFlightPlanCoordinationStateChange] *)

Definition OnFlightPlanCoordinationStateChange (fp : FlightPlan) (coordinationType : CoordinationType)
    (newState : CoordinationState) (m : CoordinationStates) : CoordinationStates :=
  if negb (fp_IsValid fp) then m
  else
    let callsign := fp_GetCallsign fp in
    match coordinationType with
    | TAG_ITEM_TYPE_COPN_COPX_ALTITUDE =>
        coord_update callsign (with_altitude (fp_GetExitCoordinationAltitude fp) newState) m
    | TAG_ITEM_TYPE_COPN_COPX_NAME =>
        coord_update callsign (with_point (fp_GetExitCoordinationPointName fp) newState) m
    | TAG_ITEM_TYPE_OTHER_COORDINATION => m
    end.

(** ** The altitude track (TagXFL.cpp, both renderers) *)

(** [if ((coordState == REQUESTED_BY_ME || coordState == REQUESTED_BY_OTHER)
    && coordXFL >= 500)]: the value is stored and the state recorded as
    [REQUESTED_BY_ME]. *)
Definition record_altitude_request (callsign : string) (coordXFL : Z) (coordState : CoordinationState)
    (m : CoordinationStates) : CoordinationStates :=
  if is_live_request coordState && (500 <=? coordXFL)
  then coord_update callsign (with_altitude coordXFL COORDINATION_STATE_REQUESTED_BY_ME) m
  else m.

(** [if (coordState == NONE)] then the lookup of lines 48-55: the tracker
    holds the value now reported, as requested by me. *)
Definition altitude_accepted (callsign : string) (coordXFL : Z) (coordState : CoordinationState)
    (m : CoordinationStates) : bool :=
  bool_decide (coordState = COORDINATION_STATE_NONE) &&
  match m !! callsign with
  | Some info =>
      (500 <=? exitAltitude info) && (exitAltitude info =? coordXFL) &&
      bool_decide (exitAltitudeState info = COORDINATION_STATE_REQUESTED_BY_ME)
  | None => false
  end.

(** ** The point track (TagCOP.cpp) *)

(** Lines 52-55. *)
Definition record_point_request (callsign coordCOP : string) (coordState : CoordinationState)
    (m : CoordinationStates) : CoordinationStates :=
  if is_live_request coordState && negb (String.eqb coordCOP "")
  then coord_update callsign (with_point coordCOP COORDINATION_STATE_REQUESTED_BY_ME) m
  else m.

(** Lines 57-64: [auto& info = coordinationStates[callsign]] creates the
    entry; a requested point equal to the reported one is promoted to
    [MANUAL_ACCEPTED]. *)
Definition promote_point_acceptance (callsign coordCOP : string) (coordState : CoordinationState)
    (m : CoordinationStates) : CoordinationStates :=
  if bool_decide (coordState = COORDINATION_STATE_NONE) then
    let info := coord_get callsign m in
    if negb (String.eqb (exitPoint info) "") && String.eqb (exitPoint info) coordCOP &&
       is_live_request (exitPointState info)
    then <[callsign := with_point (exitPoint info) COORDINATION_STATE_MANUAL_ACCEPTED info]> m
    else <[callsign := info]> m
  else m.

(** Lines 66-74: the accepted point to display, if any. *)
Definition accepted_point (callsign : string) (m : CoordinationStates) : option string :=
  match m !! callsign with
  | Some info =>
      if bool_decide (exitPointState info = COORDINATION_STATE_MANUAL_ACCEPTED) && negb (String.eqb (exitPoint info) "")
      then Some (exitPoint info) else None
  | None => None
  end.

(** ** The tracker only grows

    No writer removes a callsign: [coord_mono m m'] says every callsign of
    [m] has an entry in [m']. *)
Definition coord_mono (m m' : CoordinationStates) : Prop :=
  forall cs, is_Some (m !! cs) -> is_Some (m' !! cs).

#[export] Instance coord_mono_preorder : PreOrder coord_mono.
Proof. split; [by intros m cs|intros m1 m2 m3 H12 H23 cs H; auto]. Qed.

Lemma coord_mono_refl m : coord_mono m m.
Proof. reflexivity. Qed.

Lemma coord_mono_insert m m' cs i : coord_mono m m' -> coord_mono m (<[cs := i]> m').
Proof.
  intros H cs' Hs. destruct (decide (cs = cs')) as [->|?];
    [rewrite lookup_insert_eq; eauto|rewrite lookup_insert_ne by done; auto].
Qed.

Lemma coord_update_mono m m' cs f : coord_mono m m' -> coord_mono m (coord_update cs f m').
Proof. apply coord_mono_insert. Qed.

Lemma OnFlightPlanCoordinationStateChange_mono fp t st m m' :
  coord_mono m m' -> coord_mono m (OnFlightPlanCoordinationStateChange fp t st m').
Proof.
  intros H. unfold OnFlightPlanCoordinationStateChange.
  destruct (negb _); [done|]. destruct t; auto using coord_update_mono.
Qed.

Lemma record_altitude_request_mono cs x st m m' :
  coord_mono m m' -> coord_mono m (record_altitude_request cs x st m').
Proof. unfold record_altitude_request. case_match; auto using coord_update_mono. Qed.

Lemma record_point_request_mono cs p st m m' :
  coord_mono m m' -> coord_mono m (record_point_request cs p st m').
Proof. unfold record_point_request. case_match; auto using coord_update_mono. Qed.

Lemma promote_point_acceptance_mono cs p st m m' :
  coord_mono m m' -> coord_mono m (promote_point_acceptance cs p st m').
Proof. unfold promote_point_acceptance. repeat case_match; auto using coord_mono_insert. Qed.

#[export] Hint Resolve coord_mono_refl coord_update_mono OnFlightPlanCoordinationStateChange_mono
  record_altitude_request_mono record_point_request_mono promote_point_acceptance_mono : loa.

Lemma coord_update_lookup cs f m : coord_update cs f m !! cs = Some (f (coord_get cs m)).
Proof. apply lookup_insert_eq. Qed.

Lemma coord_update_lookup_ne cs cs' f m : cs <> cs' -> coord_update cs f m !! cs' = m !! cs'.
Proof. apply lookup_insert_ne. Qed.

#[export] Hint Rewrite coord_update_lookup : loa_simpl.

(** A displayed acceptance survives every render whose negotiation is not
    live: nothing is recorded and the promotion writes the entry back. *)
Lemma accepted_point_stable cs p p' st m :
  accepted_point cs m = Some p -> is_live_request st = false ->
  accepted_point cs (promote_point_acceptance cs p' st (record_point_request cs p' st m)) = Some p.
Proof.
  intros Hacc Hlive.
  assert (Hrec : record_point_request cs p' st m = m) by (destruct st; try discriminate Hlive; reflexivity).
  rewrite Hrec. unfold promote_point_acceptance. case_bool_decide; [|done].
  assert (Hm : exists info, m !! cs = Some info /\ exitPointState info = COORDINATION_STATE_MANUAL_ACCEPTED).
  { unfold accepted_point in Hacc. destruct (m !! cs) as [info|]; [|discriminate].
    exists info. split; [done|].
    destruct (bool_decide (exitPointState info = _)) eqn:E; [by apply bool_decide_eq_true in E|discriminate]. }
  destruct Hm as (info & Hm & Hst). unfold coord_get. rewrite Hm. simpl.
  unfold is_live_request at 1. rewrite Hst. simpl. rewrite andb_false_r.
  rewrite <- Hacc. unfold accepted_point. by rewrite lookup_insert_eq, Hm.
Qed.

(** ** Theorems *)

(** [OnFlightPlanCoordinationStateChange] on a valid flight plan
    stores the reported exit altitude (or exit point) with the new state
    in the callsign's entry, creating it when missing and keeping the other
    track; other coordination types and other callsigns are untouched. *)
Theorem OnFlightPlanCoordinationStateChange_spec fp t newState m cs :
  fp_IsValid fp = true ->
  OnFlightPlanCoordinationStateChange fp t newState m !! cs =
    if decide (cs = fp_GetCallsign fp) then
      match t with
      | TAG_ITEM_TYPE_COPN_COPX_ALTITUDE =>
          Some (mkCoordinationInfo (fp_GetExitCoordinationAltitude fp) newState
                  (exitPoint (coord_get cs m)) (exitPointState (coord_get cs m)))
      | TAG_ITEM_TYPE_COPN_COPX_NAME =>
          Some (mkCoordinationInfo (exitAltitude (coord_get cs m)) (exitAltitudeState (coord_get cs m))
                  (fp_GetExitCoordinationPointName fp) newState)
      | TAG_ITEM_TYPE_OTHER_COORDINATION => m !! cs
      end
    else m !! cs.
Proof.
  intros Hv. unfold OnFlightPlanCoordinationStateChange. rewrite Hv. simpl.
  case_decide as Hcs; [subst cs; destruct t; by rewrite ?coord_update_lookup|].
  destruct t; rewrite ?coord_update_lookup_ne; auto.
Qed.

Lemma OnFlightPlanCoordinationStateChange_spec_witness :
  fp_IsValid (mkFlightPlan true "BAW1" FLIGHT_PLAN_STATE_ASSUMED "I" "EGLL" "KJFK" 30000 37000 [] "LON_S"
    35000 COORDINATION_STATE_NONE "" COORDINATION_STATE_NONE) = true /\
  OnFlightPlanCoordinationStateChange
    (mkFlightPlan true "BAW1" FLIGHT_PLAN_STATE_ASSUMED "I" "EGLL" "KJFK" 30000 37000 [] "LON_S"
       35000 COORDINATION_STATE_NONE "" COORDINATION_STATE_NONE)
    TAG_ITEM_TYPE_COPN_COPX_ALTITUDE COORDINATION_STATE_ACCEPTED ∅ !! "BAW1" =
  Some (mkCoordinationInfo 35000 COORDINATION_STATE_ACCEPTED "" COORDINATION_STATE_NONE).
Proof.
  split; [reflexivity|].
  exact (OnFlightPlanCoordinationStateChange_spec
    (mkFlightPlan true "BAW1" FLIGHT_PLAN_STATE_ASSUMED "I" "EGLL" "KJFK" 30000 37000 [] "LON_S"
       35000 COORDINATION_STATE_NONE "" COORDINATION_STATE_NONE)
    TAG_ITEM_TYPE_COPN_COPX_ALTITUDE COORDINATION_STATE_ACCEPTED ∅ "BAW1" eq_refl).
Defined.

(** the altitude track of a negotiation: a live request (by me or
    by the other side) for a level [x] of at least 500 ft is recorded as
    requested by me, so that once the negotiation ends (state none) with
    [x] still reported the level counts as accepted, any other reported
    level does not, and the ended negotiation records nothing more. *)
Theorem altitude_request_then_accepted cs x st m :
  is_live_request st = true -> 500 <= x ->
  let m' := record_altitude_request cs x st m in
  altitude_accepted cs x COORDINATION_STATE_NONE m' = true /\
  (forall x', x' <> x -> altitude_accepted cs x' COORDINATION_STATE_NONE m' = false) /\
  record_altitude_request cs x COORDINATION_STATE_NONE m' = m'.
Proof.
  intros Hlive Hx m'.
  assert (Hm : m' = coord_update cs (with_altitude x COORDINATION_STATE_REQUESTED_BY_ME) m).
  { subst m'. unfold record_altitude_request. by rewrite Hlive, (proj2 (Z.leb_le _ _) Hx). }
  rewrite Hm. unfold altitude_accepted. rewrite coord_update_lookup. simpl.
  rewrite (proj2 (Z.leb_le _ _) Hx), Z.eqb_refl. split_and!; [done| |done].
  intros x' Hne. rewrite (proj2 (Z.eqb_neq x x')) by congruence. by rewrite andb_false_r.
Qed.

Lemma altitude_request_then_accepted_witness :
  (is_live_request COORDINATION_STATE_REQUESTED_BY_OTHER = true /\ 500 <= 35000) /\
  altitude_accepted "BAW1" 35000 COORDINATION_STATE_NONE
    (record_altitude_request "BAW1" 35000 COORDINATION_STATE_REQUESTED_BY_OTHER ∅) = true.
Proof.
  split; [split; [reflexivity|lia]|].
  exact (proj1 (altitude_request_then_accepted "BAW1" 35000 COORDINATION_STATE_REQUESTED_BY_OTHER ∅
                  eq_refl ltac:(lia))).
Defined.

(** the point track of a negotiation: a live request for a named
    point, followed by a render where the negotiation has ended with the
    same point reported, promotes the point to manually accepted, and the
    acceptance is never re-triggered: every later render whose negotiation
    is not live (none, accepted, refused, manual) keeps displaying it,
    whatever point it reports. *)
Theorem point_request_then_promoted cs p st m :
  is_live_request st = true -> p <> "" ->
  let m' := promote_point_acceptance cs p COORDINATION_STATE_NONE (record_point_request cs p st m) in
  accepted_point cs m' = Some p /\
  (forall p' st', is_live_request st' = false ->
     accepted_point cs (promote_point_acceptance cs p' st' (record_point_request cs p' st' m')) = Some p).
Proof.
  intros Hlive Hp m'.
  assert (Hacc : accepted_point cs m' = Some p).
  { subst m'. unfold record_point_request, promote_point_acceptance, coord_get.
    rewrite Hlive, (proj2 (String.eqb_neq p "") Hp). simpl.
    rewrite coord_update_lookup. simpl. rewrite (proj2 (String.eqb_neq p "") Hp), String.eqb_refl. simpl.
    unfold accepted_point. rewrite lookup_insert_eq. simpl.
    by rewrite (proj2 (String.eqb_neq p "") Hp). }
  split; [exact Hacc|]. intros p' st' Hst'. by apply accepted_point_stable.
Qed.

Lemma point_request_then_promoted_witness :
  (is_live_request COORDINATION_STATE_REQUESTED_BY_ME = true /\ "LENDY" <> "") /\
  accepted_point "BAW1" (promote_point_acceptance "BAW1" "LENDY" COORDINATION_STATE_NONE
    (record_point_request "BAW1" "LENDY" COORDINATION_STATE_REQUESTED_BY_ME ∅)) = Some "LENDY".
Proof.
  split; [split; [reflexivity|discriminate]|].
  exact (proj1 (point_request_then_promoted "BAW1" "LENDY" COORDINATION_STATE_REQUESTED_BY_ME ∅
                  eq_refl ltac:(discriminate))).
Defined.

End Coordination.
