(* ===== verification/State.v ===== *)
(** * The plugin object and what the renderers share

    [PluginState] gathers the members of [LOAPlugin] (LOAPlugin.h) with the
    global rule vectors: the loader's state, the three caches, the
    per-frame snapshot of [OnGetTagItem], [lastTagData] and the
    coordination tracker.  [HostEnv] is what the host supplies to one
    handler call: the tick of [GetTickCount64()] and the controller roster.
    [TagOutput] is what a renderer leaves in [sItemString] and
    [*pColorCode] ([None] when it does not write them).

    The [matches] lambda and the fallback test that the three renderers
    each define (TagXFL.cpp twice, TagCOP.cpp once, with the same code)
    are [resolver_matches] and [resolver_fallback_accepts]; they compare
    waypoints with [_stricmp] on C strings.  The theorems of this file
    compare that lambda with the engine's [matchIn]; [label_ok] (at most 15
    characters) and [renderer_step] (what a renderer may change) are the
    facts the renderer files prove of each renderer. *)

From stdpp Require Import base gmap strings list.
From Stdlib Require Import ZArith String Bool Lia.
From S2P Require Import Prelude Host Airport Rules Loader Caches Matcher Coordination.
Import Host AirportMatcher Rules Loader Caches Matcher Coordination.

Module State.

Local Open Scope Z_scope.

(** [CachedTagData] *)
Record CachedTagData := mkCachedTagData {
  td_callsign : string;
  td_clearedAltitude : Z;
  td_finalAltitude : Z;
  td_origin : string;
  td_destination : string
}.

Definition empty_CachedTagData : CachedTagData := mkCachedTagData "" 0 0 "" "".

(** The [currentFrame*] members. *)
Record FrameState := mkFrameState {
  currentFrameOnlineControllers : gset string;
  currentFrameRoutePoints : list string;
  currentFrameCallsign : string;
  currentFrameTimestamp : Z;
  currentFrameMatchedLOA : option LoaRef
}.

Record PluginState := mkPluginState {
  ps_loader : LoaderState;
  ps_online : OnlineCache;
  ps_routes : RouteCache;
  ps_matches : MatchCache;
  lastTagData : CachedTagData;
  ps_frame : FrameState;
  coordinationStates : CoordinationStates
}.

(** [int nextFunctionId = 1000;] (LOAPlugin.cpp), a global no function
    reads or writes, so it is a constant of the model and not part of the
    state.  [controllerFrequencies] and [handoffTargets] are declared
    [extern] in LOAPlugin.h and defined in no source file: they denote no
    object. *)
Definition nextFunctionId : Z := 1000.

Definition ps_store (ps : PluginState) : RuleStore := store (ps_loader ps).
Definition ps_rules (ps : PluginState) : RuleSet := rules (ps_store ps).

Definition set_coord (m : CoordinationStates) (ps : PluginState) : PluginState :=
  mkPluginState (ps_loader ps) (ps_online ps) (ps_routes ps) (ps_matches ps) (lastTagData ps) (ps_frame ps) m.

Definition set_online_routes (oc : OnlineCache) (rc : RouteCache) (ps : PluginState) : PluginState :=
  mkPluginState (ps_loader ps) oc rc (ps_matches ps) (lastTagData ps) (ps_frame ps) (coordinationStates ps).

(** What the host supplies to a handler call. *)
Record HostEnv := mkHostEnv {
  env_tick : Z;                        (* GetTickCount64() *)
  env_roster : list Controller         (* ControllerSelectFirst/Next *)
}.

(** [sItemString] and [*pColorCode] after a renderer. *)
Record TagOutput := mkTagOutput {
  sItemString : option string;
  pColorCode : option TagColor
}.

Definition untouched : TagOutput := mkTagOutput None None.

(** [strncpy_s(sItemString, 16, s, _TRUNCATE)] or [snprintf(sItemString, 16, ...)]. *)
Definition tag_text (s : string) : TagOutput := mkTagOutput (Some (tag_copy s)) None.

Definition tag_colored (s : string) (c : TagColor) : TagOutput := mkTagOutput (Some (tag_copy s)) (Some c).

(** [sItemString[0] = 0]. *)
Definition tag_blank : TagOutput := mkTagOutput (Some "") None.

(** ** The renderers' [matches] lambda *)

(** [_stricmp(r.c_str(), wp.c_str()) == 0] for all waypoints. *)
Definition stricmp_wpMatch (routePoints waypoints : list string) : bool :=
  forallb (fun wp => existsb (fun r => stricmp_eq r wp) routePoints) waypoints.

Definition resolver_matches (onlineControllers : gset string) (origin destination : string)
    (routePoints : list string) (entry : LOAEntry) : bool :=
  if requireNextSectorOnline entry &&
     negb (existsb (fun s => bool_decide (s ∈ onlineControllers)) (nextSectors entry))
  then false
  else
    let originMatch := is_nil (originAirports entry) ||
      MatchesAirport (originAirportSet entry) (originAirportPrefixes entry) origin in
    let destMatch := is_nil (destinationAirports entry) ||
      MatchesAirport (destinationAirportSet entry) (destinationAirportPrefixes entry) destination in
    originMatch && destMatch && stricmp_wpMatch routePoints (waypoints entry).

(** The body of the renderers' fallback loops. *)
Definition resolver_fallback_accepts (clearedAltitude : Z) (destination : string) (routePoints : list string)
    (entry : LOAEntry) : bool :=
  if clearedAltitude <? minAltitudeFt entry then false
  else if airport_rejects (destinationAirports entry) (destinationAirportSet entry)
            (destinationAirportPrefixes entry) destination
  then false
  else stricmp_wpMatch routePoints (waypoints entry).

(** The first entry of a list accepted by a test. *)
Fixpoint first_entry (p : LOAEntry -> bool) (l : list LOAEntry) : option LOAEntry :=
  match l with
  | [] => None
  | e :: l' => if p e then Some e else first_entry p l'
  end.

(** The plugin state with other rule vectors of the same generation. *)
Definition with_rules (rs : RuleSet) (ps : PluginState) : PluginState :=
  mkPluginState (mkLoaderState (loadedSector (ps_loader ps)) (mkRuleStore rs (rules_generation (ps_store ps))))
    (ps_online ps) (ps_routes ps) (ps_matches ps) (lastTagData ps) (ps_frame ps) (coordinationStates ps).

(** A rule for sector handover to LON_N, to be applied only when LON_N is
    online, without waypoints or airports. *)
Definition handover_rule (require : bool) (next : list string) : LOAEntry :=
  {| sectors := []; waypoints := []; originAirports := []; destinationAirports := [];
     nextSectors := next; xfl := 240; copText := "COPX"; requireNextSectorOnline := require;
     minAltitudeFt := 0; originAirportSet := ∅; originAirportPrefixes := [];
     destinationAirportSet := ∅; destinationAirportPrefixes := [] |}.

(** ** Labels: at most 15 characters in [sItemString[16]] *)
Definition label_ok (o : TagOutput) : Prop :=
  forall s, sItemString o = Some s -> (String.length s <= 15)%nat.

Lemma untouched_label : label_ok untouched.
Proof. discriminate. Qed.

Lemma tag_text_label s : label_ok (tag_text s).
Proof. intros ? [= <-]. apply tag_copy_length. Qed.

Lemma tag_colored_label s c : label_ok (tag_colored s c).
Proof. intros ? [= <-]. apply tag_copy_length. Qed.

Lemma tag_blank_label : label_ok tag_blank.
Proof. intros ? [= <-]. simpl. lia. Qed.

#[export] Hint Resolve untouched_label tag_text_label tag_colored_label tag_blank_label : loa.

(** A renderer's exits: each output is one of the four above. *)
Ltac label_tac :=
  repeat (case_match || match goal with |- context [let '(_, _) := ?p in _] => destruct p end);
  simpl; eauto with loa.

(** ** What a renderer changes

    A renderer writes the coordination tracker, and the simple XFL
    renderer refreshes the online and route caches through their getters;
    the rules, the match cache, the frame snapshot and [lastTagData] are
    only read. *)
Definition renderer_step (ps ps' : PluginState) : Prop :=
  ps_loader ps' = ps_loader ps /\ ps_matches ps' = ps_matches ps /\ ps_frame ps' = ps_frame ps /\
  lastTagData ps' = lastTagData ps /\ (route_cache_inv (ps_routes ps) -> route_cache_inv (ps_routes ps')) /\
  coord_mono (coordinationStates ps) (coordinationStates ps').

Lemma renderer_step_refl ps : renderer_step ps ps.
Proof. intros; unfold renderer_step; simpl; split_and!; auto with loa. Qed.

Lemma renderer_step_coord ps m : coord_mono (coordinationStates ps) m -> renderer_step ps (set_coord m ps).
Proof. intros; unfold renderer_step; simpl; split_and!; auto with loa. Qed.

Lemma renderer_step_caches ps m oc rc :
  coord_mono (coordinationStates ps) m -> (route_cache_inv (ps_routes ps) -> route_cache_inv rc) ->
  renderer_step ps (set_coord m (set_online_routes oc rc ps)).
Proof. intros; unfold renderer_step; simpl; split_and!; auto with loa. Qed.

#[export] Hint Resolve renderer_step_refl : loa.

(** The renderers' bodies: every exit returns the state unchanged or one
    of the updated states above. *)
Ltac renderer_step_tac :=
  repeat (case_match || match goal with |- context [let '(_, _) := ?p in _] => destruct p end);
  simpl; first [apply renderer_step_refl | apply renderer_step_coord; auto with loa
               | apply renderer_step_caches; auto with loa].

(** ** Theorems *)

(** C28: the renderers' [matches] lambda and the engine's [matchIn]
    disagree on the next-sector gate: for an entry that requires its next
    sector online but lists no next sector, the renderers always reject
    it (none of no sector is online) while the engine skips the gate and
    decides on the airports and waypoints alone. *)
Theorem resolver_rejects_required_without_sectors online origin destination controller route e :
  requireNextSectorOnline e = true -> nextSectors e = [] ->
  resolver_matches online origin destination route e = false /\
  matchIn_accepts online origin destination controller route e =
    negb (airport_rejects (originAirports e) (originAirportSet e) (originAirportPrefixes e) origin) &&
    negb (airport_rejects (destinationAirports e) (destinationAirportSet e)
            (destinationAirportPrefixes e) destination) &&
    wpMatch route (waypoints e).
Proof.
  intros Hreq Hns. unfold resolver_matches, matchIn_accepts. rewrite Hreq, Hns. simpl.
  split; [done|]. rewrite andb_true_r. by repeat case_match.
Qed.

Lemma resolver_rejects_required_without_sectors_witness :
  (requireNextSectorOnline (handover_rule true []) = true /\ nextSectors (handover_rule true []) = []) /\
  resolver_matches ∅ "EGLL" "KJFK" [] (handover_rule true []) = false /\
  matchIn_accepts ∅ "EGLL" "KJFK" "LON_S" [] (handover_rule true []) = true.
Proof.
  split; [split; reflexivity|].
  pose proof (resolver_rejects_required_without_sectors ∅ "EGLL" "KJFK" "LON_S" [] (handover_rule true [])
                eq_refl eq_refl) as [H1 H2].
  split; [exact H1|]. rewrite H2. reflexivity.
Defined.

(** the renderers ignore which controller tracks the flight: a rule
    whose next sector LON_N does not name the tracking controller LON_S is
    rejected by the engine and accepted by the renderers' [matches]. *)
Theorem resolver_ignores_tracking_controller :
  matchIn_accepts ∅ "EGLL" "KJFK" "LON_S" [] (handover_rule false ["LON_N"]) = false /\
  resolver_matches ∅ "EGLL" "KJFK" [] (handover_rule false ["LON_N"]) = true.
Proof. split; vm_compute; reflexivity. Qed.

End State.
