(* ===== verification/TagXFL.v ===== *)
(** * The exit-flight-level renderers (TagXFL.cpp)

    [RenderXFLTagItem] (tag item 1996) and [RenderXFLDetailedTagItem]
    (tag item 2000).  Both first update the altitude track of the
    coordination tracker and render a live or accepted negotiation; else
    they scan the rule lists with the renderers' [matches] lambda, in the
    order departure, destination, LOR departure, LOR arrival, and print a
    flight level.  The simple renderer fetches the online set and the
    route itself (through the caches), the detailed one reads the frame
    snapshot of [OnGetTagItem]. *)

From stdpp Require Import base gmap strings list.
From Stdlib Require Import ZArith String Bool Lia.
From S2P Require Import Prelude Host Airport Rules Loader Caches Matcher Coordination State.
Import Host AirportMatcher Rules Loader Caches Matcher Coordination State.

Module TagXFL.

Local Open Scope Z_scope.

(** [snprintf(sItemString, 16, "%03d", coordXFL / 100)] *)
Definition coord_level_text (coordXFL : Z) : string := pad3 (Z.quot coordXFL 100).

(** Lines 58-72 (and 200-214): a live or refused negotiation. *)
Definition xfl_negotiation_output (coordXFL : Z) (coordState : CoordinationState) : option TagOutput :=
  if (500 <=? coordXFL) && bool_decide (coordState = COORDINATION_STATE_REQUESTED_BY_ME)
  then Some (tag_colored (coord_level_text coordXFL) TAG_COLOR_ONGOING_REQUEST_FROM_ME)
  else if (500 <=? coordXFL) && bool_decide (coordState = COORDINATION_STATE_REQUESTED_BY_OTHER)
  then Some (tag_colored (coord_level_text coordXFL) TAG_COLOR_ONGOING_REQUEST_TO_ME)
  else if (500 <=? coordXFL) && bool_decide (coordState = COORDINATION_STATE_REFUSED)
  then Some (tag_colored (coord_level_text coordXFL) TAG_COLOR_ONGOING_REQUEST_REFUSED)
  else None.

(** ** [RenderXFLTagItem] *)

(** The body of the [tryLOA] loop for a matching entry: [None] is the
    [continue] after the last [else if]. *)
Definition tryLOA_entry (clearedAltitude finalAltitude : Z) (belowXFL : bool) (entry : LOAEntry)
  : option TagOutput :=
  if belowXFL && (clearedAltitude <? xfl entry * 100) && (finalAltitude >? xfl entry * 100)
  then Some (tag_text (int_to_string (xfl entry)))
  else if negb belowXFL && (clearedAltitude >? xfl entry * 100)
  then Some (tag_text (int_to_string (xfl entry)))
  else if (clearedAltitude =? xfl entry * 100) || (clearedAltitude =? finalAltitude)
  then Some tag_blank
  else if negb (clearedAltitude =? finalAltitude)
  then Some (tag_text (int_to_string (Z.quot finalAltitude 100)))
  else None.

Fixpoint tryLOA (matches : LOAEntry -> bool) (clearedAltitude finalAltitude : Z) (belowXFL : bool)
    (l : list LOAEntry) : option TagOutput :=
  match l with
  | [] => None
  | entry :: l' =>
      if matches entry then
        match tryLOA_entry clearedAltitude finalAltitude belowXFL entry with
        | Some o => Some o
        | None => tryLOA matches clearedAltitude finalAltitude belowXFL l'
        end
      else tryLOA matches clearedAltitude finalAltitude belowXFL l'
  end.

(** Lines 122-127. *)
Definition xfl_default (clearedAltitude finalAltitude : Z) : TagOutput :=
  if clearedAltitude =? finalAltitude then tag_blank
  else tag_text (int_to_string (Z.quot finalAltitude 100)).

Definition RenderXFLTagItem (env : HostEnv) (fp : FlightPlan) (rt : RadarTarget) (ps : PluginState)
  : TagOutput * PluginState :=
  if negb (rt_IsValid rt) then (untouched, ps)
  else if negb (rt_CorrelatedIsValid rt) then (untouched, ps)
  else if negb (bool_decide (fp_GetState fp = FLIGHT_PLAN_STATE_ASSUMED)) then (untouched, ps)
  else if negb (stricmp_eq (fp_GetPlanType fp) "I") then (untouched, ps)
  else
    let data := lastTagData ps in
    let '(onlineControllers, oc') := GetOnlineControllersCached (env_roster env) (env_tick env) (ps_online ps) in
    let '(routePoints, rc') := GetCachedRoutePoints fp (env_tick env) (ps_routes ps) in
    let callsign := fp_GetCallsign fp in
    let coordXFL := fp_GetExitCoordinationAltitude fp in
    let coordState := fp_GetExitCoordinationAltitudeState fp in
    let m := record_altitude_request callsign coordXFL coordState (coordinationStates ps) in
    let ps' := set_coord m (set_online_routes oc' rc' ps) in
    if altitude_accepted callsign coordXFL coordState m
    then (tag_text (coord_level_text coordXFL), ps')
    else match xfl_negotiation_output coordXFL coordState with
    | Some o => (o, ps')
    | None =>
        let matches := resolver_matches onlineControllers (td_origin data) (td_destination data) routePoints in
        let cl := td_clearedAltitude data in
        let fin := td_finalAltitude data in
        let rs := ps_rules ps in
        match first_some [tryLOA matches cl fin true (departureLoas rs);
                          tryLOA matches cl fin false (destinationLoas rs);
                          tryLOA matches cl fin true (lorDepartures rs);
                          tryLOA matches cl fin false (lorArrivals rs)] with
        | Some o => (o, ps')
        | None => (xfl_default cl fin, ps')
        end
    end.

(** ** [RenderXFLDetailedTagItem] *)

(** Lines 239-246: a departure or LOR departure rule. *)
Definition departure_xfl_text (clearedAltitude finalAltitude : Z) (entry : LOAEntry) : string :=
  if (clearedAltitude <=? xfl entry * 100) && (finalAltitude >? xfl entry * 100)
  then int_to_string (xfl entry)
  else int_to_string (Z.quot finalAltitude 100).

(** Lines 252-259: a destination or LOR arrival rule. *)
Definition arrival_xfl_text (clearedAltitude : Z) (entry : LOAEntry) : string :=
  if clearedAltitude <? xfl entry * 100 then "XFL" else int_to_string (xfl entry).

Definition RenderXFLDetailedTagItem (fp : FlightPlan) (rt : RadarTarget) (ps : PluginState)
  : TagOutput * PluginState :=
  if negb (rt_IsValid rt) then (untouched, ps)
  else if negb (rt_CorrelatedIsValid rt) then (untouched, ps)
  else if negb (fp_IsValid fp) || negb (IsLOARelevantState (fp_GetState fp)) then (tag_text "XFL", ps)
  else if negb (stricmp_eq (fp_GetPlanType fp) "I") then (tag_text "XFL", ps)
  else
    let data := lastTagData ps in
    let callsign := td_callsign data in
    let cl := td_clearedAltitude data in
    let fin := td_finalAltitude data in
    let onlineControllers := currentFrameOnlineControllers (ps_frame ps) in
    let routePoints := currentFrameRoutePoints (ps_frame ps) in
    let coordXFL := fp_GetExitCoordinationAltitude fp in
    let coordState := fp_GetExitCoordinationAltitudeState fp in
    let m := record_altitude_request callsign coordXFL coordState (coordinationStates ps) in
    let ps' := set_coord m ps in
    if altitude_accepted callsign coordXFL coordState m
    then (tag_colored (coord_level_text coordXFL) TAG_COLOR_ONGOING_REQUEST_ACCEPTED, ps')
    else match xfl_negotiation_output coordXFL coordState with
    | Some o => (o, ps')
    | None =>
        let matches := resolver_matches onlineControllers (td_origin data) (td_destination data) routePoints in
        let rs := ps_rules ps in
        let text :=
          first_some [departure_xfl_text cl fin <$> first_entry matches (departureLoas rs);
                      arrival_xfl_text cl <$> first_entry matches (destinationLoas rs);
                      departure_xfl_text cl fin <$> first_entry matches (lorDepartures rs);
                      arrival_xfl_text cl <$> first_entry matches (lorArrivals rs);
                      (fun _ => int_to_string (Z.quot fin 100)) <$>
                        first_entry (resolver_fallback_accepts cl (td_destination data) routePoints)
                          (fallbackLoas rs)] in
        (tag_text (default (int_to_string (Z.quot fin 100)) text), ps')
    end.

(** ** Scenario data *)

(** A rule whose [xfl] is 30000000: the loader reads it as an [int]. *)
Definition xfl_overflow_item : json := JObject [("xfl", JNumber 30000000)].

(** ** Lemmas *)

Lemma RenderXFLTagItem_step env fp rt ps : renderer_step ps (RenderXFLTagItem env fp rt ps).2.
Proof.
  unfold RenderXFLTagItem.
  destruct (GetOnlineControllersCached _ _ _) as [online oc'].
  pose proof (GetCachedRoutePoints_inv fp (env_tick env) (ps_routes ps)) as Hinv.
  destruct (GetCachedRoutePoints fp (env_tick env) (ps_routes ps)) as [route rc'].
  renderer_step_tac.
Qed.

Lemma RenderXFLDetailedTagItem_step fp rt ps : renderer_step ps (RenderXFLDetailedTagItem fp rt ps).2.
Proof. unfold RenderXFLDetailedTagItem. renderer_step_tac. Qed.

Lemma xfl_negotiation_output_label coordXFL coordState o :
  xfl_negotiation_output coordXFL coordState = Some o -> label_ok o.
Proof. unfold xfl_negotiation_output. repeat case_match; intros [= <-]; auto with loa. Qed.

Lemma tryLOA_entry_label cl fin b e o : tryLOA_entry cl fin b e = Some o -> label_ok o.
Proof. unfold tryLOA_entry. repeat case_match; intros [= <-]; auto with loa. Qed.

Lemma tryLOA_label matches cl fin b l o : tryLOA matches cl fin b l = Some o -> label_ok o.
Proof.
  induction l as [|e l IH]; simpl; [discriminate|].
  destruct (matches e); [|exact IH]. destruct (tryLOA_entry cl fin b e) eqn:E; [|exact IH].
  intros [= <-]. eauto using tryLOA_entry_label.
Qed.

Lemma xfl_default_label cl fin : label_ok (xfl_default cl fin).
Proof. unfold xfl_default. case_match; auto with loa. Qed.

#[export] Hint Resolve xfl_negotiation_output_label tryLOA_label xfl_default_label : loa.

Lemma RenderXFLTagItem_label env fp rt ps : label_ok (RenderXFLTagItem env fp rt ps).1.
Proof.
  unfold RenderXFLTagItem. label_tac.
  eapply first_some_Forall; [|eassumption]. repeat apply Forall_cons_2; try apply Forall_nil_2; intros ? ?; by eapply tryLOA_label.
Qed.

Lemma RenderXFLDetailedTagItem_label fp rt ps : label_ok (RenderXFLDetailedTagItem fp rt ps).1.
Proof. unfold RenderXFLDetailedTagItem. label_tac. Qed.

(** The body of the loop always answers: its last [else if] tests the
    negation of a disjunct of the one before, so the [continue] after it is
    never reached. *)
Lemma tryLOA_entry_total cl fin b e : is_Some (tryLOA_entry cl fin b e).
Proof.
  unfold tryLOA_entry. repeat case_match; eauto.
  bool_props. congruence.
Qed.

(** ** Theorems *)

(** C29: neither exit-level item depends on the fallback rules: the
    simple item never reads them, and the detailed item's fallback loop
    prints the filed final level, which is what it prints when no rule
    applies; the label and colour are the same for any fallback vector. *)
Theorem xfl_items_ignore_fallback env fp rt ps l :
  (RenderXFLTagItem env fp rt (with_rules (set_category FallbackLoas l (ps_rules ps)) ps)).1 =
    (RenderXFLTagItem env fp rt ps).1 /\
  (RenderXFLDetailedTagItem fp rt (with_rules (set_category FallbackLoas l (ps_rules ps)) ps)).1 =
    (RenderXFLDetailedTagItem fp rt ps).1.
Proof.
  split; [unfold RenderXFLTagItem|unfold RenderXFLDetailedTagItem];
    unfold with_rules, ps_rules, ps_store; simpl; repeat case_match; simpl; try reflexivity;
    repeat match goal with H : _ <$> _ = Some _ |- _ => apply fmap_Some in H as (? & ? & ->) end;
    reflexivity.
Qed.

(** C27: the simple item's [tryLOA] loop is "the first matching entry
    decides": it returns the answer of the loop body on the first entry
    the [matches] lambda accepts, and nothing when no entry matches. *)
Theorem tryLOA_first_match matches cl fin belowXFL l :
  tryLOA matches cl fin belowXFL l = first_entry matches l ≫= tryLOA_entry cl fin belowXFL.
Proof.
  induction l as [|e l IH]; simpl; [done|].
  destruct (matches e); [|exact IH]. simpl.
  by destruct (tryLOA_entry_total cl fin belowXFL e) as [o ->].
Qed.

End TagXFL.
