(* ===== verification/TagCOP.v ===== *)
(** * The coordination-point renderer (TagCOP.cpp)

    [RenderCOPTagItem] (tag item 1997) updates the point track of the
    coordination tracker (record a live request, promote it to
    [MANUAL_ACCEPTED] when the negotiation ends on the same point),
    renders an accepted or live negotiation, and otherwise scans the rule
    lists: in each list the first matching entry decides, by its altitude
    test, between returning its [copText] and [break]ing to the next list. *)

From stdpp Require Import base gmap strings list.
From Stdlib Require Import ZArith String Bool Lia.
From S2P Require Import Prelude Host Airport Rules Loader Caches Matcher Coordination State.
Import Host AirportMatcher Rules Loader Caches Matcher Coordination State.

Module TagCOP.

Local Open Scope Z_scope.

(** Lines 76-90: a live or refused negotiation. *)
Definition cop_negotiation_output (coordCOP : string) (coordState : CoordinationState) : option TagOutput :=
  if negb (String.eqb coordCOP "") && bool_decide (coordState = COORDINATION_STATE_REQUESTED_BY_ME)
  then Some (tag_colored coordCOP TAG_COLOR_ONGOING_REQUEST_FROM_ME)
  else if negb (String.eqb coordCOP "") && bool_decide (coordState = COORDINATION_STATE_REQUESTED_BY_OTHER)
  then Some (tag_colored coordCOP TAG_COLOR_ONGOING_REQUEST_TO_ME)
  else if negb (String.eqb coordCOP "") && bool_decide (coordState = COORDINATION_STATE_REFUSED)
  then Some (tag_colored "COPX" TAG_COLOR_ONGOING_REQUEST_REFUSED)
  else None.

(** One of the loops of lines 111-157: the first matching entry returns
    its [copText] when the altitude test holds ([<=] for departures, [>=]
    for arrivals) and [break]s otherwise. *)
Definition cop_category (matches : LOAEntry -> bool) (clearedAltitude : Z) (departure : bool)
    (l : list LOAEntry) : option string :=
  match first_entry matches l with
  | Some entry =>
      if (if departure then clearedAltitude <=? xfl entry * 100 else clearedAltitude >=? xfl entry * 100)
      then Some (copText entry) else None
  | None => None
  end.

Definition RenderCOPTagItem (fp : FlightPlan) (rt : RadarTarget) (ps : PluginState) : TagOutput * PluginState :=
  if negb (rt_IsValid rt) then (untouched, ps)
  else if negb (rt_CorrelatedIsValid rt) then (untouched, ps)
  else if negb (IsLOARelevantState (fp_GetState fp)) then (tag_text "COPX", ps)
  else if negb (stricmp_eq (fp_GetPlanType fp) "I") then (tag_text "COPX", ps)
  else
    let data := lastTagData ps in
    let callsign := td_callsign data in
    let cl := td_clearedAltitude data in
    let onlineControllers := currentFrameOnlineControllers (ps_frame ps) in
    let routePoints := currentFrameRoutePoints (ps_frame ps) in
    let coordCOP := fp_GetExitCoordinationPointName fp in
    let coordState := fp_GetExitCoordinationNameState fp in
    let m := promote_point_acceptance callsign coordCOP coordState
               (record_point_request callsign coordCOP coordState (coordinationStates ps)) in
    let ps' := set_coord m ps in
    match accepted_point callsign m with
    | Some p => (tag_colored p TAG_COLOR_ONGOING_REQUEST_ACCEPTED, ps')
    | None =>
        match cop_negotiation_output coordCOP coordState with
        | Some o => (o, ps')
        | None =>
            let matches := resolver_matches onlineControllers (td_origin data) (td_destination data) routePoints in
            let rs := ps_rules ps in
            let text :=
              first_some [cop_category matches cl true (departureLoas rs);
                          cop_category matches cl false (destinationLoas rs);
                          cop_category matches cl true (lorDepartures rs);
                          cop_category matches cl false (lorArrivals rs);
                          copText <$> first_entry (resolver_fallback_accepts cl (td_destination data) routePoints)
                                        (fallbackLoas rs)] in
            (tag_text (default "COPX" text), ps')
        end
    end.

(** ** Lemmas *)

Lemma RenderCOPTagItem_step fp rt ps : renderer_step ps (RenderCOPTagItem fp rt ps).2.
Proof. unfold RenderCOPTagItem. renderer_step_tac. Qed.

Lemma cop_negotiation_output_label coordCOP coordState o :
  cop_negotiation_output coordCOP coordState = Some o -> label_ok o.
Proof. unfold cop_negotiation_output. repeat case_match; intros [= <-]; auto with loa. Qed.

#[export] Hint Resolve cop_negotiation_output_label : loa.

Lemma RenderCOPTagItem_label fp rt ps : label_ok (RenderCOPTagItem fp rt ps).1.
Proof. unfold RenderCOPTagItem. label_tac. Qed.

End TagCOP.
