(* ===== verification/Negotiation.v ===== *)
(** * The negotiation machine of spec 4.6 and the tracker's two tracks

    Spec 4.6 describes one per-flight negotiation machine, "identical in
    shape for altitude and point, parametrized by field": a live request
    with a non-trivial value is recorded as requested, and a negotiation
    that drops to none while the same value is reported is promoted to a
    terminal accepted state.  [spec_observe] is that machine, over the
    abstract states [NegIdle], [NegRequested v] and [NegAccepted v].

    The tracker stores both tracks in one [CoordinationInfo]; a [Track] is
    the field of one of them (value, state, and what counts as a
    non-trivial value), [track_abs] reads an entry as an abstract state.
    The renderers observe the host's negotiation once per call:
    [RenderCOPTagItem] records and promotes the point ([point_observe]),
    the two XFL renderers only record the altitude ([altitude_observe]) and
    recompute the acceptance at each call.  The theorems: the point track
    refines the machine on every sequence of observations, and its
    accepted display is the machine's; the altitude track refines it only
    up to acceptance: read by [altitude_abs] (a stored [REQUESTED_BY_ME]
    is a request for the stored level, anything else is idle), the stored
    track is the machine's state with acceptance forgotten, the XFL items
    display as accepted exactly the level the machine holds requested or
    accepted, and no other state is ever stored; so an accepted level
    stops being displayed as soon as the host reports another value. *)

From stdpp Require Import base gmap strings list.
From Stdlib Require Import ZArith String Bool Lia.
From S2P Require Import Prelude Host Airport Rules Loader Caches Matcher Coordination State TagXFL TagCOP.
Import Host Caches Coordination State TagXFL TagCOP.

Module Negotiation.

Local Open Scope Z_scope.

(** ** The abstract machine *)

Inductive Negotiation (V : Type) :=
| NegIdle
| NegRequested (v : V)
| NegAccepted (v : V).
Arguments NegIdle {V}.
Arguments NegRequested {V} v.
Arguments NegAccepted {V} v.

#[export] Instance Negotiation_eq_dec {V} `{!EqDecision V} : EqDecision (Negotiation V).
Proof. solve_decision. Defined.

Section Spec.
Context {V : Type} `{!EqDecision V} (nontrivial : V -> bool).

(** One observation: the negotiation state the host reports, and its value. *)
Definition spec_observe (n : Negotiation V) (o : CoordinationState * V) : Negotiation V :=
  let '(st, v) := o in
  if is_live_request st && nontrivial v then NegRequested v
  else if bool_decide (st = COORDINATION_STATE_NONE) then
    match n with
    | NegRequested w => if bool_decide (w = v) then NegAccepted v else n
    | _ => n
    end
  else n.

Definition spec_run (n : Negotiation V) (os : list (CoordinationState * V)) : Negotiation V :=
  fold_left spec_observe os n.

(** The value a resolver shows as accepted. *)
Definition spec_accepted (n : Negotiation V) : option V :=
  match n with NegAccepted v => Some v | _ => None end.

(** The machine with acceptance forgotten: an accepted value reads as a
    request for it. *)
Definition forget_acceptance (n : Negotiation V) : Negotiation V :=
  match n with NegAccepted v => NegRequested v | _ => n end.

End Spec.

(** ** The two tracks of a [CoordinationInfo] *)

Record Track (V : Type) := mkTrack {
  trk_value : CoordinationInfo -> V;
  trk_state : CoordinationInfo -> CoordinationState;
  trk_nontrivial : V -> bool
}.
Arguments trk_value {V} t i.
Arguments trk_state {V} t i.
Arguments trk_nontrivial {V} t v.

(** [coordXFL >= 500] and [!coordCOP.empty()]. *)
Definition altitude_track : Track Z := mkTrack Z exitAltitude exitAltitudeState (fun x => 500 <=? x).
Definition point_track : Track string :=
  mkTrack string exitPoint exitPointState (fun p => negb (String.eqb p "")).

(** An entry as an abstract state: a live stored state is a request, a
    stored [MANUAL_ACCEPTED] an acceptance. *)
Definition track_abs {V} (T : Track V) (info : CoordinationInfo) : Negotiation V :=
  let s := trk_state T info in
  if is_live_request s then NegRequested (trk_value T info)
  else if bool_decide (s = COORDINATION_STATE_MANUAL_ACCEPTED) then NegAccepted (trk_value T info)
  else NegIdle.

(** A requested or accepted entry holds a non-trivial value. *)
Definition track_wf {V} (T : Track V) (info : CoordinationInfo) : Prop :=
  is_live_request (trk_state T info) || bool_decide (trk_state T info = COORDINATION_STATE_MANUAL_ACCEPTED)
  = true -> trk_nontrivial T (trk_value T info) = true.

(** The altitude track as the XFL renderers read it: [altitude_accepted]
    only counts a stored [REQUESTED_BY_ME], so only that state is a
    request; the track holds no other. *)
Definition altitude_abs (info : CoordinationInfo) : Negotiation Z :=
  if bool_decide (exitAltitudeState info = COORDINATION_STATE_REQUESTED_BY_ME)
  then NegRequested (exitAltitude info) else NegIdle.

Definition altitude_wf (info : CoordinationInfo) : Prop :=
  exitAltitudeState info = COORDINATION_STATE_REQUESTED_BY_ME -> 500 <= exitAltitude info.

(** ** The renderers' observations *)

(** TagCOP.cpp lines 49-64: record a live request, then promote. *)
Definition point_observe (callsign : string) (m : CoordinationStates) (o : CoordinationState * string)
  : CoordinationStates :=
  let '(st, p) := o in promote_point_acceptance callsign p st (record_point_request callsign p st m).

(** TagXFL.cpp lines 38-45 (and 179-186): record a live request. *)
Definition altitude_observe (callsign : string) (m : CoordinationStates) (o : CoordinationState * Z)
  : CoordinationStates :=
  let '(st, x) := o in record_altitude_request callsign x st m.

Definition point_run (callsign : string) (m : CoordinationStates) (os : list (CoordinationState * string))
  : CoordinationStates := fold_left (point_observe callsign) os m.

Definition altitude_run (callsign : string) (m : CoordinationStates) (os : list (CoordinationState * Z))
  : CoordinationStates := fold_left (altitude_observe callsign) os m.

(** ** Simulation of one step *)

(** The diagram of a simulation, over a fold: if one concrete step
    preserves [wf] and maps to the abstract step through [abs], so does
    every sequence of steps (Simulation.v's [simulation_star] for a
    deterministic machine). *)
Lemma fold_simulation {C A O} (cstep : C -> O -> C) (astep : A -> O -> A) (abs : C -> A) (wf : C -> Prop) :
  (forall c o, wf c -> wf (cstep c o) /\ abs (cstep c o) = astep (abs c) o) ->
  forall os c, wf c -> wf (fold_left cstep os c) /\ abs (fold_left cstep os c) = fold_left astep os (abs c).
Proof.
  intros Hstep os. induction os as [|o os IH]; intros c Hc; simpl; [done|].
  destruct (Hstep c o Hc) as [Hc' Habs]. rewrite <- Habs. by apply IH.
Qed.

Lemma coord_get_insert cs i m : coord_get cs (<[cs := i]> m) = i.
Proof. unfold coord_get. by rewrite lookup_insert_eq. Qed.

Lemma coord_get_update cs f m : coord_get cs (coord_update cs f m) = f (coord_get cs m).
Proof. unfold coord_update. apply coord_get_insert. Qed.

Lemma live_not_none st : is_live_request st = true -> bool_decide (st = COORDINATION_STATE_NONE) = false.
Proof. destruct st; done. Qed.

Lemma point_observe_sim cs m o :
  track_wf point_track (coord_get cs m) ->
  track_wf point_track (coord_get cs (point_observe cs m o)) /\
  track_abs point_track (coord_get cs (point_observe cs m o)) =
    spec_observe (trk_nontrivial point_track) (track_abs point_track (coord_get cs m)) o.
Proof.
  destruct o as [st p]. unfold track_wf, track_abs, spec_observe, point_observe, record_point_request,
    promote_point_acceptance; simpl. intros Hwf.
  destruct (is_live_request st && negb (String.eqb p "")) eqn:Hreq.
  - apply andb_true_iff in Hreq as [Hlive Hp]. rewrite live_not_none by done.
    rewrite coord_get_update. simpl. by rewrite Hp.
  - destruct (decide (st = COORDINATION_STATE_NONE)) as [->|Hnone];
      [rewrite !(bool_decide_true (COORDINATION_STATE_NONE = _)) by done
      |by rewrite !(bool_decide_false (st = _)) by done].
    set (info := coord_get cs m) in *.
    destruct (is_live_request (exitPointState info)) eqn:Hl; simpl in *.
    + specialize (Hwf eq_refl). rewrite Hwf. simpl.
      destruct (String.eqb_spec (exitPoint info) p) as [Heq|Hne]; simpl.
      * rewrite coord_get_insert. simpl. rewrite bool_decide_true by done.
        split; [done|by rewrite Heq].
      * rewrite coord_get_insert, Hl. by rewrite (bool_decide_false (exitPoint info = p)) by done.
    + rewrite andb_false_r, coord_get_insert, Hl. simpl. split; [exact Hwf|]. by case_bool_decide.
Qed.

Lemma altitude_observe_sim cs m o :
  altitude_wf (coord_get cs m) ->
  altitude_wf (coord_get cs (altitude_observe cs m o)) /\
  altitude_abs (coord_get cs (altitude_observe cs m o)) =
    forget_acceptance (spec_observe (trk_nontrivial altitude_track) (altitude_abs (coord_get cs m)) o) /\
  (exitAltitudeState (coord_get cs (altitude_observe cs m o)) = COORDINATION_STATE_REQUESTED_BY_ME \/
   coord_get cs (altitude_observe cs m o) = coord_get cs m).
Proof.
  destruct o as [st x]. unfold altitude_wf, altitude_abs, spec_observe, altitude_observe,
    record_altitude_request; simpl. intros Hwf.
  destruct (is_live_request st && (500 <=? x)) eqn:Hreq.
  - apply andb_true_iff in Hreq as [_ Hx]. apply Z.leb_le in Hx.
    rewrite coord_get_update. simpl. auto.
  - split_and!; [done| |by right].
    destruct (bool_decide (st = COORDINATION_STATE_NONE)); [|by case_bool_decide].
    case_bool_decide; [|done]. simpl. case_bool_decide as Heq; by subst.
Qed.

(** Other callsigns are untouched. *)
Lemma point_observe_other cs cs' m o : cs <> cs' -> point_observe cs m o !! cs' = m !! cs'.
Proof.
  destruct o as [st p]. intros Hne. unfold point_observe, promote_point_acceptance, record_point_request.
  repeat case_match; rewrite ?lookup_insert_ne, ?coord_update_lookup_ne by done; done.
Qed.

(** The COP item shows an accepted point exactly when the entry is
    abstractly accepted. *)
Lemma accepted_point_abs cs m :
  track_wf point_track (coord_get cs m) ->
  accepted_point cs m = spec_accepted (track_abs point_track (coord_get cs m)).
Proof.
  unfold accepted_point, track_wf, track_abs, coord_get; simpl.
  destruct (m !! cs) as [info|]; simpl; [|done]. intros Hwf.
  destruct (is_live_request (exitPointState info)) eqn:Hl.
  - destruct (exitPointState info); try discriminate; done.
  - simpl in Hwf. case_bool_decide; simpl; [|done]. by rewrite Hwf.
Qed.

Lemma point_run_sim cs m os :
  track_wf point_track (coord_get cs m) ->
  track_wf point_track (coord_get cs (point_run cs m os)) /\
  track_abs point_track (coord_get cs (point_run cs m os)) =
    spec_run (trk_nontrivial point_track) (track_abs point_track (coord_get cs m)) os.
Proof.
  apply (fold_simulation (point_observe cs) (spec_observe (trk_nontrivial point_track))
           (fun m => track_abs point_track (coord_get cs m)) (fun m => track_wf point_track (coord_get cs m))).
  intros c o. apply point_observe_sim.
Qed.

Lemma forget_spec_observe {V} `{!EqDecision V} (nt : V -> bool) n o :
  forget_acceptance (spec_observe nt (forget_acceptance n) o) = forget_acceptance (spec_observe nt n o).
Proof.
  destruct o as [st v]. unfold spec_observe.
  destruct (is_live_request st && nt v); [done|]. case_bool_decide; [|by destruct n].
  destruct n as [|w|w]; simpl; [done|done|case_bool_decide; by subst].
Qed.

(** Forgetting acceptance commutes with the machine: the forgetful
    machine steps on forgotten states. *)
Lemma forget_spec_run {V} `{!EqDecision V} (nt : V -> bool) os n :
  forget_acceptance (spec_run nt n os) =
    fold_left (fun n o => forget_acceptance (spec_observe nt n o)) os (forget_acceptance n).
Proof.
  unfold spec_run. revert n. induction os as [|o os IH]; intros n; simpl; [done|].
  by rewrite forget_spec_observe, IH.
Qed.

(** Other callsigns are untouched by a run. *)
Lemma point_run_other cs cs' m os : cs <> cs' -> point_run cs m os !! cs' = m !! cs'.
Proof.
  intros Hne. unfold point_run. revert m. induction os as [|o os IH]; intros m; simpl; [done|].
  by rewrite IH, point_observe_other.
Qed.

(** The renderers' tracker updates are these observations. *)
Lemma RenderCOPTagItem_observe fp rt ps :
  rt_IsValid rt = true -> rt_CorrelatedIsValid rt = true ->
  IsLOARelevantState (fp_GetState fp) = true -> stricmp_eq (fp_GetPlanType fp) "I" = true ->
  coordinationStates (RenderCOPTagItem fp rt ps).2 =
    point_observe (td_callsign (lastTagData ps)) (coordinationStates ps)
      (fp_GetExitCoordinationNameState fp, fp_GetExitCoordinationPointName fp).
Proof.
  intros Hv Hc Hr Hi. unfold RenderCOPTagItem. rewrite Hv, Hc, Hr, Hi. simpl.
  by repeat case_match.
Qed.

Lemma RenderXFLTagItem_observe env fp rt ps :
  rt_IsValid rt = true -> rt_CorrelatedIsValid rt = true ->
  fp_GetState fp = FLIGHT_PLAN_STATE_ASSUMED -> stricmp_eq (fp_GetPlanType fp) "I" = true ->
  coordinationStates (RenderXFLTagItem env fp rt ps).2 =
    altitude_observe (fp_GetCallsign fp) (coordinationStates ps)
      (fp_GetExitCoordinationAltitudeState fp, fp_GetExitCoordinationAltitude fp).
Proof.
  intros Hv Hc Hs Hi. unfold RenderXFLTagItem. rewrite Hv, Hc, Hs, Hi. simpl.
  by repeat case_match.
Qed.

(** The XFL items show [x] as accepted, when the host reports [x] with no
    negotiation, exactly when the track holds a request for [x]. *)
Lemma altitude_accepted_abs cs x m :
  altitude_wf (coord_get cs m) ->
  altitude_accepted cs x COORDINATION_STATE_NONE m = bool_decide (altitude_abs (coord_get cs m) = NegRequested x).
Proof.
  unfold altitude_accepted, altitude_wf, altitude_abs, coord_get. rewrite bool_decide_true by done. simpl.
  destruct (m !! cs) as [info|]; simpl; intros Hwf; [|done].
  destruct (decide (exitAltitudeState info = COORDINATION_STATE_REQUESTED_BY_ME)) as [Hst|Hst].
  - rewrite !(bool_decide_true (exitAltitudeState info = _)) by done.
    rewrite (proj2 (Z.leb_le _ _) (Hwf Hst)), andb_true_r. simpl.
    destruct (Z.eqb_spec (exitAltitude info) x) as [->|Hne].
    + by rewrite bool_decide_true.
    + rewrite bool_decide_false; [done|congruence].
  - rewrite !(bool_decide_false (exitAltitudeState info = _)) by done.
    rewrite andb_false_r. by rewrite bool_decide_false.
Qed.

Lemma forget_run_forget {V} `{!EqDecision V} (nt : V -> bool) n os :
  forget_acceptance (spec_run nt (forget_acceptance n) os) = forget_acceptance (spec_run nt n os).
Proof. rewrite !forget_spec_run. by destruct n. Qed.

Lemma altitude_run_sim cs m os :
  altitude_wf (coord_get cs m) ->
  altitude_wf (coord_get cs (altitude_run cs m os)) /\
  altitude_abs (coord_get cs (altitude_run cs m os)) =
    forget_acceptance (spec_run (trk_nontrivial altitude_track) (altitude_abs (coord_get cs m)) os) /\
  (exitAltitudeState (coord_get cs (altitude_run cs m os)) = COORDINATION_STATE_REQUESTED_BY_ME \/
   coord_get cs (altitude_run cs m os) = coord_get cs m).
Proof.
  unfold altitude_run. revert m. induction os as [|o os IH]; intros m Hwf; simpl.
  - split_and!; [done| |by right]. unfold altitude_abs. by case_bool_decide.
  - destruct (altitude_observe_sim cs m o Hwf) as (Hwf1 & Habs1 & Hw1).
    destruct (IH _ Hwf1) as (Hwf2 & Habs2 & Hw2). split_and!; [done| |].
    + rewrite Habs2, Habs1. exact (forget_run_forget _ _ _).
    + destruct Hw2 as [Hw2|Hw2]; [by left|rewrite Hw2]. destruct Hw1 as [Hw1|Hw1]; [by left|by right].
Qed.

(** ** Theorems *)

(** C9: the point track refines the negotiation machine of spec 4.6: from
    a well-formed entry, after any sequence of observations of COP renders
    the entry reads as the machine's state after the same observations,
    the COP item shows as accepted exactly the machine's accepted point,
    and the entries of other callsigns are untouched. *)
Theorem point_track_refines cs m os :
  track_wf point_track (coord_get cs m) ->
  let m' := point_run cs m os in
  track_abs point_track (coord_get cs m') =
    spec_run (trk_nontrivial point_track) (track_abs point_track (coord_get cs m)) os /\
  accepted_point cs m' =
    spec_accepted (spec_run (trk_nontrivial point_track) (track_abs point_track (coord_get cs m)) os) /\
  (forall cs', cs' <> cs -> m' !! cs' = m !! cs').
Proof.
  intros Hwf m'. destruct (point_run_sim cs m os Hwf) as [Hwf' Habs].
  split_and!; [done| |intros cs' Hne; by apply point_run_other].
  rewrite <- Habs. by apply accepted_point_abs.
Qed.

Lemma point_track_refines_witness :
  let os := [(COORDINATION_STATE_REQUESTED_BY_OTHER, "LENDY"); (COORDINATION_STATE_NONE, "LENDY");
             (COORDINATION_STATE_NONE, "KONAN")] in
  track_wf point_track (coord_get "BAW1" ∅) /\
  (let m' := point_run "BAW1" ∅ os in
   track_abs point_track (coord_get "BAW1" m') =
     spec_run (trk_nontrivial point_track) (track_abs point_track (coord_get "BAW1" ∅)) os /\
   accepted_point "BAW1" m' =
     spec_accepted (spec_run (trk_nontrivial point_track) (track_abs point_track (coord_get "BAW1" ∅)) os) /\
   (forall cs', cs' <> "BAW1" -> m' !! cs' = (∅ : CoordinationStates) !! cs')).
Proof.
  intros os. assert (Hwf : track_wf point_track (coord_get "BAW1" ∅)) by (intros H; discriminate H).
  split; [exact Hwf|]. exact (point_track_refines "BAW1" ∅ os Hwf).
Defined.

(** C10: the altitude track refines the machine of spec 4.6 without its
    accepted state: from a well-formed entry, after any sequence of
    observations of XFL renders, the entry holds a request (a stored
    [REQUESTED_BY_ME]) for the level the machine has requested or
    accepted, and nothing otherwise; so when the host reports a level with
    no negotiation the XFL items show it as accepted exactly when the
    machine is requesting or has accepted that level; and the renders only
    ever write [REQUESTED_BY_ME], never an acceptance. *)
Theorem altitude_track_refines cs m os :
  altitude_wf (coord_get cs m) ->
  let m' := altitude_run cs m os in
  let n := spec_run (trk_nontrivial altitude_track) (altitude_abs (coord_get cs m)) os in
  altitude_abs (coord_get cs m') = forget_acceptance n /\
  (forall x, altitude_accepted cs x COORDINATION_STATE_NONE m' =
             bool_decide (n = NegRequested x \/ n = NegAccepted x)) /\
  (exitAltitudeState (coord_get cs m') = COORDINATION_STATE_REQUESTED_BY_ME \/ coord_get cs m' = coord_get cs m).
Proof.
  intros Hwf m' n. destruct (altitude_run_sim cs m os Hwf) as (Hwf' & Habs & Hw). subst m' n.
  split_and!; [done| |done]. intros x. rewrite altitude_accepted_abs by done. rewrite Habs.
  apply bool_decide_ext. destruct (spec_run _ _ _); simpl; naive_solver.
Qed.

Lemma altitude_track_refines_witness :
  let os := [(COORDINATION_STATE_REQUESTED_BY_OTHER, 35000); (COORDINATION_STATE_NONE, 35000)] in
  altitude_wf (coord_get "BAW1" ∅) /\
  (let m' := altitude_run "BAW1" ∅ os in
   let n := spec_run (trk_nontrivial altitude_track) (altitude_abs (coord_get "BAW1" ∅)) os in
   altitude_abs (coord_get "BAW1" m') = forget_acceptance n /\
   (forall x, altitude_accepted "BAW1" x COORDINATION_STATE_NONE m' =
              bool_decide (n = NegRequested x \/ n = NegAccepted x)) /\
   (exitAltitudeState (coord_get "BAW1" m') = COORDINATION_STATE_REQUESTED_BY_ME \/
    coord_get "BAW1" m' = coord_get "BAW1" ∅)).
Proof.
  intros os. assert (Hwf : altitude_wf (coord_get "BAW1" ∅)) by (intros H; discriminate H).
  split; [exact Hwf|]. exact (altitude_track_refines "BAW1" ∅ os Hwf).
Defined.

(** C25: the altitude acceptance is not terminal: after a live request for
    a level [x] and a render where the negotiation has ended on [x], the
    XFL items show [x] as accepted; as soon as the host reports another
    level with no negotiation, nothing is accepted any more, while the
    machine of spec 4.6 stays in its terminal accepted state for [x]. *)
Theorem altitude_acceptance_not_terminal cs m st x x' :
  is_live_request st = true -> 500 <= x -> x' <> x ->
  let os := [(st, x); (COORDINATION_STATE_NONE, x)] in
  let m1 := altitude_run cs m os in
  altitude_accepted cs x COORDINATION_STATE_NONE m1 = true /\
  altitude_accepted cs x' COORDINATION_STATE_NONE (altitude_observe cs m1 (COORDINATION_STATE_NONE, x')) = false /\
  spec_run (trk_nontrivial altitude_track) (track_abs altitude_track (coord_get cs m))
    (os ++ [(COORDINATION_STATE_NONE, x')]) = NegAccepted x.
Proof.
  intros Hlive Hx Hne os m1.
  assert (Hm1 : m1 = coord_update cs (with_altitude x COORDINATION_STATE_REQUESTED_BY_ME) m).
  { subst m1 os. unfold altitude_run, altitude_observe, record_altitude_request; simpl.
    by rewrite Hlive, (proj2 (Z.leb_le _ _) Hx). }
  unfold altitude_observe, record_altitude_request at 1. simpl. rewrite Hm1.
  unfold altitude_accepted. rewrite coord_update_lookup. simpl.
  rewrite (proj2 (Z.leb_le _ _) Hx), Z.eqb_refl, (proj2 (Z.eqb_neq x x')) by congruence.
  split_and!; [done|by rewrite andb_false_r|].
  subst os. unfold spec_run, spec_observe. simpl.
  rewrite Hlive. simpl. by rewrite bool_decide_true.
Qed.

Lemma altitude_acceptance_not_terminal_witness :
  (is_live_request COORDINATION_STATE_REQUESTED_BY_OTHER = true /\ 500 <= 35000 /\ 24000 <> 35000) /\
  altitude_accepted "BAW1" 24000 COORDINATION_STATE_NONE
    (altitude_observe "BAW1" (altitude_run "BAW1" ∅ [(COORDINATION_STATE_REQUESTED_BY_OTHER, 35000);
                                                    (COORDINATION_STATE_NONE, 35000)])
       (COORDINATION_STATE_NONE, 24000)) = false.
Proof.
  assert (H1 : is_live_request COORDINATION_STATE_REQUESTED_BY_OTHER = true) by reflexivity.
  assert (H2 : 500 <= 35000) by lia. assert (H3 : 24000 <> 35000) by lia.
  split; [split_and!; assumption|].
  exact (proj1 (proj2 (altitude_acceptance_not_terminal "BAW1" ∅ _ 35000 24000 H1 H2 H3))).
Defined.

End Negotiation.
