(* ===== verification/Plugin.v ===== *)
(** * The plugin: handlers, events and the reachable states

    [OnGetTagItem] (LOAPlugin.cpp) records [lastTagData], refreshes the
    frame snapshot (online set, route, matched rule) when the callsign
    changed or more than 100 ms passed, and dispatches on the item code to
    the renderers of TagXFL.v and TagCOP.v.  The constructor and
    [OnControllerPositionUpdate] load the rules; [OnFlightPlanStateChange]
    and [OnFlightPlanCoordinationStateChange] update the caches and the
    tracker.  The host calls these handlers one at a time (spec 5): the
    plugin is a state machine over [Event]s, [handle] is its step, and
    [reachable] the states a run from the constructor reaches.
    [plugin_inv] holds in every reachable state; a refresh of the frame
    snapshot on a cache miss stores the governing rule of [Spec.governs];
    the scenarios run the handlers on the sample configuration of
    Loader.v. *)

From stdpp Require Import base gmap strings list.
From Stdlib Require Import ZArith String Bool Lia.
From S2P Require Import Prelude Host Airport Rules Loader Caches Matcher Coordination State TagXFL TagCOP Negotiation.
Import Host AirportMatcher Rules Loader Caches Matcher Coordination State TagXFL TagCOP Negotiation.

Module Plugin.

Local Open Scope Z_scope.

(** [ItemCodes] *)
Definition CUSTOM_TAG_ID : Z := 1996.
Definition CUSTOM_TAG_ID_COP : Z := 1997.
Definition CUSTOM_TAG_XFL_DETAILED : Z := 2000.

Definition set_lastTagData (td : CachedTagData) (ps : PluginState) : PluginState :=
  mkPluginState (ps_loader ps) (ps_online ps) (ps_routes ps) (ps_matches ps) td (ps_frame ps)
    (coordinationStates ps).

(** Line 284: [callsign != plugin.currentFrameCallsign ||
    now - plugin.currentFrameTimestamp > 100]. *)
Definition frame_expired (callsign : string) (now : Z) (fr : FrameState) : bool :=
  negb (String.eqb callsign (currentFrameCallsign fr)) || (100 <? now ⊖ currentFrameTimestamp fr).

(** Lines 283-292: the frame snapshot, refreshed when the callsign
    changed or more than 100 ms passed. *)
Definition refresh_frame (env : HostEnv) (fp : FlightPlan) (ps : PluginState) : PluginState :=
  let callsign := fp_GetCallsign fp in
  let now := env_tick env in
  let fr := ps_frame ps in
  if frame_expired callsign now fr then
    let '(online, oc') := GetOnlineControllersCached (env_roster env) now (ps_online ps) in
    let '(route, rc1) := GetCachedRoutePoints fp now (ps_routes ps) in
    let '(matched, rc2, mc') := MatchLoaEntry (ps_store ps) fp online now rc1 (ps_matches ps) in
    mkPluginState (ps_loader ps) oc' rc2 mc' (lastTagData ps)
      (mkFrameState online route callsign now matched) (coordinationStates ps)
  else ps.

Definition OnGetTagItem (env : HostEnv) (fp : FlightPlan) (rt : RadarTarget) (itemCode : Z)
    (ps : PluginState) : TagOutput * PluginState :=
  let td := mkCachedTagData (fp_GetCallsign fp) (fp_GetClearedAltitude fp) (fp_GetFinalAltitude fp)
              (fp_GetOrigin fp) (fp_GetDestination fp) in
  let ps' := refresh_frame env fp (set_lastTagData td ps) in
  if itemCode =? CUSTOM_TAG_ID then RenderXFLTagItem env fp rt ps'
  else if itemCode =? CUSTOM_TAG_XFL_DETAILED then RenderXFLDetailedTagItem fp rt ps'
  else if itemCode =? CUSTOM_TAG_ID_COP then RenderCOPTagItem fp rt ps'
  else (untouched, ps').

Definition set_loader (ls : LoaderState) (ps : PluginState) : PluginState :=
  mkPluginState ls (ps_online ps) (ps_routes ps) (ps_matches ps) (lastTagData ps) (ps_frame ps)
    (coordinationStates ps).

(** [LoadLOAsFromJSON] on the plugin: [mySector] is
    [ControllerMyself().GetPositionId()]. *)
Definition load (dllPath mySector : string) (file : ConfigFile) (ps : PluginState) : PluginState :=
  set_loader (LoadLOAsFromJSON dllPath mySector file (ps_loader ps)).1.1 ps.

(** [OnControllerPositionUpdate(controller)]: a reload when the updated
    controller's position is not empty and differs from [loadedSector]. *)
Definition OnControllerPositionUpdate (dllPath mySector : string) (file : ConfigFile)
    (controller : Controller) (ps : PluginState) : PluginState :=
  let sector := ctr_GetPositionId controller in
  if negb (String.eqb sector "") && negb (String.eqb sector (loadedSector (ps_loader ps)))
  then load dllPath mySector file ps
  else ps.

(** The members' initial values. *)
Definition initial_state : PluginState :=
  mkPluginState (mkLoaderState "" (mkRuleStore empty_RuleSet 0)) (mkOnlineCache ∅ 0 0)
    (mkRouteCache ∅ ∅) (mkMatchCache ∅ ∅) empty_CachedTagData
    (mkFrameState ∅ [] "" 0 None) ∅.

(** [LOAPlugin::LOAPlugin()]: the tag items are registered with the host,
    then the rules of the controller's sector are loaded.  The constructor
    of the global [plugin] runs at load time, where a [type_error] thrown
    by the loader would end the program; the model keeps the state the
    loader leaves, an over-approximation of the reachable states. *)
Definition LOAPlugin_init (dllPath mySector : string) (file : ConfigFile) : PluginState :=
  if negb (String.eqb mySector "") then load dllPath mySector file initial_state else initial_state.

Definition OnFlightPlanStateChange_plugin (fp : FlightPlan) (ps : PluginState) : PluginState :=
  let '(rc, mc) := OnFlightPlanStateChange fp (ps_routes ps) (ps_matches ps) in
  mkPluginState (ps_loader ps) (ps_online ps) rc mc (lastTagData ps) (ps_frame ps) (coordinationStates ps).

(** ** Events *)

Inductive Event :=
| EvControllerPositionUpdate (dllPath mySector : string) (file : ConfigFile) (controller : Controller)
| EvFlightPlanStateChange (fp : FlightPlan)
| EvCoordinationStateChange (fp : FlightPlan) (coordinationType : CoordinationType) (newState : CoordinationState)
| EvGetTagItem (env : HostEnv) (fp : FlightPlan) (rt : RadarTarget) (itemCode : Z).

Definition handle (ev : Event) (ps : PluginState) : option TagOutput * PluginState :=
  match ev with
  | EvControllerPositionUpdate dll me file c => (None, OnControllerPositionUpdate dll me file c ps)
  | EvFlightPlanStateChange fp => (None, OnFlightPlanStateChange_plugin fp ps)
  | EvCoordinationStateChange fp t s =>
      (None, set_coord (OnFlightPlanCoordinationStateChange fp t s (coordinationStates ps)) ps)
  | EvGetTagItem env fp rt code => let '(o, ps') := OnGetTagItem env fp rt code ps in (Some o, ps')
  end.

(** A run of events from a state; the outputs of the tag requests. *)
Fixpoint run (evs : list Event) (ps : PluginState) : list (option TagOutput) * PluginState :=
  match evs with
  | [] => ([], ps)
  | ev :: evs' =>
      let '(o, ps1) := handle ev ps in
      let '(os, ps2) := run evs' ps1 in
      (o :: os, ps2)
  end.

(** The events that ask the plugin for a label. *)
Definition is_tag_request (ev : Event) : bool :=
  match ev with EvGetTagItem _ _ _ _ => true | _ => false end.

Inductive reachable : PluginState -> Prop :=
| reachable_init dllPath mySector file : reachable (LOAPlugin_init dllPath mySector file)
| reachable_step ev ps : reachable ps -> reachable (handle ev ps).2.

(** ** The plugin invariant

    Every rule is one the loader can produce (well formed, 32-bit [int]
    fields); every cached route has its time; every
    cached or snapshotted rule pointer is of an earlier generation or
    designates a live entry of the current rules (it never points past the
    end of a vector it was taken from); every cached answer has a [DWORD]
    timestamp. *)
Definition plugin_inv (ps : PluginState) : Prop :=
  ruleset_loadable (ps_rules ps) /\ route_cache_inv (ps_routes ps) /\
  match_cache_inv (ps_store ps) (ps_matches ps) /\
  (forall r, currentFrameMatchedLOA (ps_frame ps) = Some r -> ref_ok (ps_store ps) r).

Lemma initial_state_inv : plugin_inv initial_state.
Proof.
  split_and!; [intros c e; destruct c; simpl; by rewrite elem_of_nil| |apply match_cache_inv_empty|done].
  intros cs; simpl; rewrite !lookup_empty; split; by intros [].
Qed.

Lemma load_inv dllPath mySector file ps : plugin_inv ps -> plugin_inv (load dllPath mySector file ps).
Proof.
  intros (Hwf & Hrc & Hmc & Hfr). unfold load, plugin_inv, ps_rules, ps_store in *; simpl.
  destruct (LoadLOAsFromJSON_store dllPath mySector file (ps_loader ps)) as [Heq|[Hgen Hwf']];
    [rewrite Heq; by split_and!|].
  assert (Hlt : (rules_generation (store (ps_loader ps)) <
                 rules_generation (store (LoadLOAsFromJSON dllPath mySector file (ps_loader ps)).1.1))%nat) by lia.
  split_and!; [done|done|eauto using match_cache_inv_newer|eauto using ref_ok_newer].
Qed.

Lemma refresh_frame_inv env fp ps : plugin_inv ps -> plugin_inv (refresh_frame env fp ps).
Proof.
  intros (Hwf & Hrc & Hmc & Hfr). unfold refresh_frame.
  destruct (frame_expired _ _ _); [|by split_and!].
  destruct (GetOnlineControllersCached _ _ _) as [online oc'].
  pose proof (GetCachedRoutePoints_inv fp (env_tick env) (ps_routes ps) Hrc) as Hrc1.
  destruct (GetCachedRoutePoints fp (env_tick env) (ps_routes ps)) as [route rc1].
  pose proof (MatchLoaEntry_inv (ps_store ps) fp online (env_tick env) rc1 (ps_matches ps) Hrc1 Hmc) as H.
  destruct (MatchLoaEntry _ _ _ _ _ _) as [[matched rc2] mc']. destruct H as (? & ? & ?).
  by split_and!.
Qed.

Lemma renderer_step_inv ps ps' : renderer_step ps ps' -> plugin_inv ps -> plugin_inv ps'.
Proof.
  intros (Hl & Hm & Hf & _ & Hr & _) (Hwf & Hrc & Hmc & Hfr).
  unfold plugin_inv, ps_rules, ps_store in *. rewrite Hl, Hm, Hf. auto.
Qed.

(** The tag data [OnGetTagItem] records first. *)
Definition tag_data_of (fp : FlightPlan) : CachedTagData :=
  mkCachedTagData (fp_GetCallsign fp) (fp_GetClearedAltitude fp) (fp_GetFinalAltitude fp)
    (fp_GetOrigin fp) (fp_GetDestination fp).

(** After the snapshot, [OnGetTagItem] runs at most one renderer. *)
Lemma OnGetTagItem_renderer env fp rt code ps :
  renderer_step (refresh_frame env fp (set_lastTagData (tag_data_of fp) ps)) (OnGetTagItem env fp rt code ps).2.
Proof.
  unfold OnGetTagItem. fold (tag_data_of fp).
  repeat case_match; auto using RenderXFLTagItem_step, RenderXFLDetailedTagItem_step,
    RenderCOPTagItem_step with loa.
Qed.

Lemma OnGetTagItem_inv env fp rt code ps : plugin_inv ps -> plugin_inv (OnGetTagItem env fp rt code ps).2.
Proof.
  intros H. eapply renderer_step_inv; [apply OnGetTagItem_renderer|]. by apply refresh_frame_inv.
Qed.

Lemma handle_inv ev ps : plugin_inv ps -> plugin_inv (handle ev ps).2.
Proof.
  intros H. destruct ev as [dll me file c|fp|fp t st|env fp rt code]; simpl.
  - unfold OnControllerPositionUpdate. case_match; auto using load_inv.
  - destruct H as (Hwf & Hrc & Hmc & Hfr). unfold OnFlightPlanStateChange_plugin.
    pose proof (OnFlightPlanStateChange_inv fp _ (ps_matches ps) Hrc) as Hrc'.
    pose proof (OnFlightPlanStateChange_match_inv (ps_store ps) fp (ps_routes ps) _ Hmc) as Hmc'.
    destruct (OnFlightPlanStateChange fp _ _). by split_and!.
  - exact H.
  - pose proof (OnGetTagItem_inv env fp rt code ps H) as H'.
    destruct (OnGetTagItem env fp rt code ps). exact H'.
Qed.

Lemma refresh_frame_coord env fp ps : coordinationStates (refresh_frame env fp ps) = coordinationStates ps.
Proof.
  unfold refresh_frame. destruct (frame_expired _ _ _); [|done].
  destruct (GetOnlineControllersCached _ _ _), (GetCachedRoutePoints _ _ _).
  by destruct (MatchLoaEntry _ _ _ _ _ _) as [[? ?] ?].
Qed.

Lemma OnGetTagItem_step env fp rt code ps :
  coord_mono (coordinationStates ps) (coordinationStates (OnGetTagItem env fp rt code ps).2).
Proof.
  unfold OnGetTagItem. set (ps' := refresh_frame env fp _).
  assert (E : coordinationStates ps' = coordinationStates ps) by (unfold ps'; by rewrite refresh_frame_coord).
  rewrite <- E.
  repeat case_match; [apply RenderXFLTagItem_step|apply RenderXFLDetailedTagItem_step
                     |apply RenderCOPTagItem_step|reflexivity].
Qed.

Lemma LOAPlugin_init_inv dllPath mySector file : plugin_inv (LOAPlugin_init dllPath mySector file).
Proof. unfold LOAPlugin_init. case_match; auto using load_inv, initial_state_inv. Qed.

(** A refresh on a flight with no fresh answer: the snapshot takes the
    online set and the route of the caches and the engine's scan of the
    current rules on them (the engine's own route lookup hits the entry
    the snapshot's lookup left). *)
Lemma refresh_frame_miss env fp ps :
  route_cache_inv (ps_routes ps) -> guards_pass fp ->
  frame_expired (fp_GetCallsign fp) (env_tick env) (ps_frame ps) = true ->
  cached_match (fp_GetCallsign fp) (to_DWORD (env_tick env)) (ps_matches ps) = None ->
  let online := (GetOnlineControllersCached (env_roster env) (env_tick env) (ps_online ps)).1 in
  let route := (GetCachedRoutePoints fp (env_tick env) (ps_routes ps)).1 in
  ps_loader (refresh_frame env fp ps) = ps_loader ps /\
  ps_frame (refresh_frame env fp ps) =
    mkFrameState online route (fp_GetCallsign fp) (env_tick env) (engine_scan (ps_store ps) fp online route).
Proof.
  intros Hrc Hg Hexp Hmiss online route. unfold refresh_frame. rewrite Hexp.
  subst online route. destruct (GetOnlineControllersCached _ _ _) as [online oc'].
  pose proof (GetCachedRoutePoints_twice fp (env_tick env) (ps_routes ps) Hrc) as Htwice.
  destruct (GetCachedRoutePoints fp (env_tick env) (ps_routes ps)) as [route rc1] eqn:Hroute.
  rewrite (MatchLoaEntry_miss _ _ _ _ _ _ Hg Hmiss), Htwice. done.
Qed.

(** After a tag request the snapshot is labelled with the flight's
    callsign: either it was refreshed for it, or it was not expired, which
    needs the same callsign. *)
Lemma OnGetTagItem_frame_callsign env fp rt code ps :
  currentFrameCallsign (ps_frame (OnGetTagItem env fp rt code ps).2) = fp_GetCallsign fp.
Proof.
  destruct (OnGetTagItem_renderer env fp rt code ps) as (_ & _ & -> & _).
  unfold refresh_frame, frame_expired. simpl.
  destruct (String.eqb (fp_GetCallsign fp) _) eqn:Heq; simpl.
  - destruct (_ <? _); [|apply String.eqb_eq in Heq; by rewrite Heq].
    destruct (GetOnlineControllersCached _ _ _), (GetCachedRoutePoints _ _ _).
    by destruct (MatchLoaEntry _ _ _ _ _ _) as [[? ?] ?].
  - destruct (GetOnlineControllersCached _ _ _), (GetCachedRoutePoints _ _ _).
    by destruct (MatchLoaEntry _ _ _ _ _ _) as [[? ?] ?].
Qed.

(** What the renderers of a tag request see: the recorded tag data and
    the tracker as it was. *)
Lemma OnGetTagItem_input env fp ps :
  let ps' := refresh_frame env fp (set_lastTagData (tag_data_of fp) ps) in
  coordinationStates ps' = coordinationStates ps /\ lastTagData ps' = tag_data_of fp.
Proof.
  simpl. unfold refresh_frame. destruct (frame_expired _ _ _); [|done].
  destruct (GetOnlineControllersCached _ _ _), (GetCachedRoutePoints _ _ _).
  by destruct (MatchLoaEntry _ _ _ _ _ _) as [[? ?] ?].
Qed.

(** A detailed XFL request on a flight past the guards: the tracker takes
    the altitude request the flight reports; an accepted level is written
    in the accepted colour, and with no accepted level and no live
    negotiation the label comes from the rules, uncoloured. *)
Lemma OnGetTagItem_detailed env fp rt ps :
  rt_IsValid rt = true -> rt_CorrelatedIsValid rt = true -> fp_IsValid fp = true ->
  IsLOARelevantState (fp_GetState fp) = true -> stricmp_eq (fp_GetPlanType fp) "I" = true ->
  let cs := fp_GetCallsign fp in
  let x := fp_GetExitCoordinationAltitude fp in
  let st := fp_GetExitCoordinationAltitudeState fp in
  let m := record_altitude_request cs x st (coordinationStates ps) in
  let r := OnGetTagItem env fp rt CUSTOM_TAG_XFL_DETAILED ps in
  coordinationStates r.2 = m /\
  (altitude_accepted cs x st m = true -> r.1 = tag_colored (coord_level_text x) TAG_COLOR_ONGOING_REQUEST_ACCEPTED) /\
  (altitude_accepted cs x st m = false -> xfl_negotiation_output x st = None -> pColorCode r.1 = None).
Proof.
  intros Hv Hc Hfv Hrel Hi cs x st m r. subst cs x st m r.
  destruct (OnGetTagItem_input env fp ps) as [Hcoord Htd].
  unfold OnGetTagItem. fold (tag_data_of fp).
  set (ps' := refresh_frame env fp (set_lastTagData (tag_data_of fp) ps)) in *.
  replace (CUSTOM_TAG_XFL_DETAILED =? CUSTOM_TAG_ID) with false by reflexivity. rewrite Z.eqb_refl.
  unfold RenderXFLDetailedTagItem. rewrite Hv, Hc, Hfv, Hrel, Hi. cbn [negb orb].
  rewrite Htd. cbn [td_callsign tag_data_of]. rewrite Hcoord.
  destruct (altitude_accepted _ _ _ _); [split_and!; done|].
  destruct (xfl_negotiation_output _ _); split_and!; done.
Qed.

(** A COP request on a flight past the guards: the tracker takes the
    point request and the promotion the flight reports, and an accepted
    point is written in the accepted colour. *)
Lemma OnGetTagItem_cop env fp rt ps :
  rt_IsValid rt = true -> rt_CorrelatedIsValid rt = true ->
  IsLOARelevantState (fp_GetState fp) = true -> stricmp_eq (fp_GetPlanType fp) "I" = true ->
  let cs := fp_GetCallsign fp in
  let p := fp_GetExitCoordinationPointName fp in
  let st := fp_GetExitCoordinationNameState fp in
  let m := promote_point_acceptance cs p st (record_point_request cs p st (coordinationStates ps)) in
  let r := OnGetTagItem env fp rt CUSTOM_TAG_ID_COP ps in
  coordinationStates r.2 = m /\
  (forall q, accepted_point cs m = Some q -> r.1 = tag_colored q TAG_COLOR_ONGOING_REQUEST_ACCEPTED).
Proof.
  intros Hv Hc Hrel Hi cs p st m r. subst cs p st m r.
  destruct (OnGetTagItem_input env fp ps) as [Hcoord Htd].
  unfold OnGetTagItem. fold (tag_data_of fp).
  set (ps' := refresh_frame env fp (set_lastTagData (tag_data_of fp) ps)) in *.
  replace (CUSTOM_TAG_ID_COP =? CUSTOM_TAG_ID) with false by reflexivity.
  replace (CUSTOM_TAG_ID_COP =? CUSTOM_TAG_XFL_DETAILED) with false by reflexivity. rewrite Z.eqb_refl.
  unfold RenderCOPTagItem. rewrite Hv, Hc, Hrel, Hi. cbn [negb].
  rewrite Htd. cbn [td_callsign tag_data_of]. rewrite Hcoord.
  destruct (accepted_point _ _) as [q|]; [split; [done|by intros ? [= <-]]|].
  destruct (cop_negotiation_output _ _); split; done.
Qed.

(** ** Scenarios *)

(** The plugin after its constructor loaded [sample_config] for sector
    LON_S: destination rule {KJFK, LENDY, xfl 140, "LENDY"} and the
    FL245 fallback rule. *)
Definition loaded_plugin : PluginState :=
  LOAPlugin_init "C:\es\LOA.dll" "LON_S" (FileJson sample_config).

Definition env_at (tick : Z) : HostEnv := mkHostEnv tick [mkController "LON_CTR" "L"].

Definition radar : RadarTarget := mkRadarTarget true true.

(** BAW1, EGLL to KJFK via LENDY, filed at 37000 ft. *)
Definition baw1 (cleared coordAlt : Z) (altState : CoordinationState) (coordPoint : string)
    (pointState : CoordinationState) : FlightPlan :=
  mkFlightPlan true "BAW1" FLIGHT_PLAN_STATE_ASSUMED "I" "EGLL" "KJFK" cleared 37000
    ["DVR"; "LENDY"] "LON_S" coordAlt altState coordPoint pointState.

Definition no_coordination (cleared : Z) : FlightPlan :=
  baw1 cleared 0 COORDINATION_STATE_NONE "" COORDINATION_STATE_NONE.

(** ** Theorems *)

(** the coordination-point scenario of spec 8: with the LENDY
    destination rule (xfl 140), a flight to KJFK via LENDY shows "LENDY"
    when cleared to 16000 ft, and "COPX" when cleared to 12000 ft (the rule
    matches, its altitude test fails, the loop breaks and nothing else
    applies). *)
Theorem cop_lendy_scenario :
  sItemString (OnGetTagItem (env_at 1000) (no_coordination 16000) radar CUSTOM_TAG_ID_COP loaded_plugin).1
    = Some "LENDY" /\
  sItemString (OnGetTagItem (env_at 1000) (no_coordination 12000) radar CUSTOM_TAG_ID_COP loaded_plugin).1
    = Some "COPX".
Proof. split; vm_compute; reflexivity. Qed.

(** coordination promotion (spec 8): after a request by me for
    35000 ft, the detailed XFL item shows "350" in the request colour; when
    the negotiation drops to none with 35000 ft still reported, it shows
    "350" in the accepted colour. *)
Theorem xfl_detailed_promotion :
  (run [EvGetTagItem (env_at 1000) (baw1 30000 35000 COORDINATION_STATE_REQUESTED_BY_ME "" COORDINATION_STATE_NONE)
          radar CUSTOM_TAG_XFL_DETAILED;
        EvGetTagItem (env_at 1200) (baw1 30000 35000 COORDINATION_STATE_NONE "" COORDINATION_STATE_NONE)
          radar CUSTOM_TAG_XFL_DETAILED] loaded_plugin).1 =
  [Some (mkTagOutput (Some "350") (Some TAG_COLOR_ONGOING_REQUEST_FROM_ME));
   Some (mkTagOutput (Some "350") (Some TAG_COLOR_ONGOING_REQUEST_ACCEPTED))].
Proof. vm_compute. reflexivity. Qed.

(** C31: the simple XFL item renders an accepted level without the
    accepted colour: on any state and flight whose tracker holds the
    level the host reports with no negotiation (an accepted level), the
    simple item writes the level and leaves the colour untouched, while
    the detailed item writes it in the accepted colour (spec 4.6 and 8
    expect the accepted colour). *)
Theorem xfl_simple_accepted_without_colour env fp rt ps :
  rt_IsValid rt = true -> rt_CorrelatedIsValid rt = true -> fp_IsValid fp = true ->
  fp_GetState fp = FLIGHT_PLAN_STATE_ASSUMED -> stricmp_eq (fp_GetPlanType fp) "I" = true ->
  altitude_accepted (fp_GetCallsign fp) (fp_GetExitCoordinationAltitude fp)
    (fp_GetExitCoordinationAltitudeState fp) (coordinationStates ps) = true ->
  let lvl := coord_level_text (fp_GetExitCoordinationAltitude fp) in
  (OnGetTagItem env fp rt CUSTOM_TAG_ID ps).1 = tag_text lvl /\
  (OnGetTagItem env fp rt CUSTOM_TAG_XFL_DETAILED ps).1 = tag_colored lvl TAG_COLOR_ONGOING_REQUEST_ACCEPTED.
Proof.
  intros Hv Hc Hfv Hs Hi Hacc lvl.
  assert (Hrec : forall m, record_altitude_request (fp_GetCallsign fp) (fp_GetExitCoordinationAltitude fp)
                   (fp_GetExitCoordinationAltitudeState fp) m = m).
  { intros m. unfold altitude_accepted in Hacc. apply andb_true_iff in Hacc as [H _].
    apply bool_decide_eq_true in H. by rewrite H. }
  destruct (OnGetTagItem_input env fp ps) as [Hcoord Htd].
  unfold OnGetTagItem. fold (tag_data_of fp).
  set (ps' := refresh_frame env fp (set_lastTagData (tag_data_of fp) ps)) in *.
  split.
  - rewrite Z.eqb_refl. unfold RenderXFLTagItem. rewrite Hv, Hc, Hi, bool_decide_true by exact Hs. cbn [negb].
    destruct (GetOnlineControllersCached _ _ _), (GetCachedRoutePoints _ _ _).
    by rewrite Hrec, Hcoord, Hacc.
  - refine (proj1 (proj2 (OnGetTagItem_detailed env fp rt ps Hv Hc Hfv _ Hi)) _); [by rewrite Hs|].
    by rewrite Hrec.
Qed.

Lemma xfl_simple_accepted_without_colour_witness :
  let ps := set_coord {[ "BAW1" := mkCoordinationInfo 35000 COORDINATION_STATE_REQUESTED_BY_ME "" COORDINATION_STATE_NONE ]}
              loaded_plugin in
  let fp := baw1 30000 35000 COORDINATION_STATE_NONE "" COORDINATION_STATE_NONE in
  (rt_IsValid radar = true /\ rt_CorrelatedIsValid radar = true /\ fp_IsValid fp = true /\
   fp_GetState fp = FLIGHT_PLAN_STATE_ASSUMED /\ stricmp_eq (fp_GetPlanType fp) "I" = true /\
   altitude_accepted (fp_GetCallsign fp) (fp_GetExitCoordinationAltitude fp)
     (fp_GetExitCoordinationAltitudeState fp) (coordinationStates ps) = true) /\
  (OnGetTagItem (env_at 1000) fp radar CUSTOM_TAG_ID ps).1 = tag_text (coord_level_text 35000).
Proof.
  intros ps fp.
  assert (H1 : rt_IsValid radar = true) by reflexivity. assert (H2 : rt_CorrelatedIsValid radar = true) by reflexivity.
  assert (H3 : fp_IsValid fp = true) by reflexivity. assert (H4 : fp_GetState fp = FLIGHT_PLAN_STATE_ASSUMED) by reflexivity.
  assert (H5 : stricmp_eq (fp_GetPlanType fp) "I" = true) by reflexivity.
  assert (H6 : altitude_accepted (fp_GetCallsign fp) (fp_GetExitCoordinationAltitude fp)
     (fp_GetExitCoordinationAltitudeState fp) (coordinationStates ps) = true) by reflexivity.
  split; [split_and!; assumption|].
  exact (proj1 (xfl_simple_accepted_without_colour (env_at 1000) fp radar ps H1 H2 H3 H4 H5 H6)).
Defined.

(** C30: the two writers of the altitude track interfere: after a
    detailed XFL render of a live request for a level of at least 500 ft
    (the tracker records it as [REQUESTED_BY_ME]), the next render of the
    flight reporting that level with no negotiation shows it in the
    accepted colour (the promotion of spec 4.6); but if the host first
    reports the end of the negotiation through
    [OnFlightPlanCoordinationStateChange] with any state other than
    [REQUESTED_BY_ME] (ACCEPTED, say), the tracker loses
    [REQUESTED_BY_ME], the promotion never happens and the label comes
    from the rules, uncoloured. *)
Theorem coordination_callback_defeats_promotion env env' fp fp' rt ps newState :
  rt_IsValid rt = true -> rt_CorrelatedIsValid rt = true ->
  fp_IsValid fp = true -> IsLOARelevantState (fp_GetState fp) = true -> stricmp_eq (fp_GetPlanType fp) "I" = true ->
  fp_IsValid fp' = true -> IsLOARelevantState (fp_GetState fp') = true -> stricmp_eq (fp_GetPlanType fp') "I" = true ->
  is_live_request (fp_GetExitCoordinationAltitudeState fp) = true -> 500 <= fp_GetExitCoordinationAltitude fp ->
  fp_GetCallsign fp' = fp_GetCallsign fp ->
  fp_GetExitCoordinationAltitude fp' = fp_GetExitCoordinationAltitude fp ->
  fp_GetExitCoordinationAltitudeState fp' = COORDINATION_STATE_NONE ->
  newState <> COORDINATION_STATE_REQUESTED_BY_ME ->
  let ps1 := (OnGetTagItem env fp rt CUSTOM_TAG_XFL_DETAILED ps).2 in
  let ps2 := (handle (EvCoordinationStateChange fp' TAG_ITEM_TYPE_COPN_COPX_ALTITUDE newState) ps1).2 in
  (OnGetTagItem env' fp' rt CUSTOM_TAG_XFL_DETAILED ps1).1 =
    tag_colored (coord_level_text (fp_GetExitCoordinationAltitude fp)) TAG_COLOR_ONGOING_REQUEST_ACCEPTED /\
  pColorCode (OnGetTagItem env' fp' rt CUSTOM_TAG_XFL_DETAILED ps2).1 = None.
Proof.
  intros Hv Hc Hfv Hrel Hi Hfv' Hrel' Hi' Hlive Hx Hcs Hx' Hst' Hnew ps1 ps2.
  destruct (OnGetTagItem_detailed env fp rt ps Hv Hc Hfv Hrel Hi) as [H1 _].
  destruct (OnGetTagItem_detailed env' fp' rt ps1 Hv Hc Hfv' Hrel' Hi') as (_ & Hacc & _).
  destruct (OnGetTagItem_detailed env' fp' rt ps2 Hv Hc Hfv' Hrel' Hi') as (_ & _ & Hrej).
  rewrite Hcs, Hx', Hst' in Hacc, Hrej.
  assert (Hrec : forall m, record_altitude_request (fp_GetCallsign fp) (fp_GetExitCoordinationAltitude fp)
                   COORDINATION_STATE_NONE m = m) by done.
  rewrite Hrec in Hacc, Hrej. split.
  - apply Hacc. fold ps1 in H1. rewrite H1. unfold altitude_accepted, record_altitude_request.
    rewrite Hlive. apply Z.leb_le in Hx as Hx0. rewrite Hx0. cbn [andb]. rewrite coord_update_lookup. simpl.
    by rewrite Hx0, Z.eqb_refl.
  - apply Hrej; [|unfold xfl_negotiation_output; by repeat rewrite bool_decide_false by done; rewrite !andb_false_r].
    subst ps2. simpl. unfold OnFlightPlanCoordinationStateChange. rewrite Hfv'. simpl.
    unfold altitude_accepted. rewrite Hcs, coord_update_lookup. simpl.
    rewrite (bool_decide_false (newState = _)) by done. by rewrite !andb_false_r.
Qed.

Lemma coordination_callback_defeats_promotion_witness :
  (OnGetTagItem (env_at 1200) (baw1 30000 35000 COORDINATION_STATE_NONE "" COORDINATION_STATE_NONE) radar
     CUSTOM_TAG_XFL_DETAILED
     (OnGetTagItem (env_at 1000) (baw1 30000 35000 COORDINATION_STATE_REQUESTED_BY_ME "" COORDINATION_STATE_NONE)
        radar CUSTOM_TAG_XFL_DETAILED loaded_plugin).2).1 =
    tag_colored (coord_level_text 35000) TAG_COLOR_ONGOING_REQUEST_ACCEPTED /\
  pColorCode (OnGetTagItem (env_at 1200) (baw1 30000 35000 COORDINATION_STATE_NONE "" COORDINATION_STATE_NONE) radar
     CUSTOM_TAG_XFL_DETAILED
     (handle (EvCoordinationStateChange (baw1 30000 35000 COORDINATION_STATE_NONE "" COORDINATION_STATE_NONE)
                TAG_ITEM_TYPE_COPN_COPX_ALTITUDE COORDINATION_STATE_ACCEPTED)
        (OnGetTagItem (env_at 1000) (baw1 30000 35000 COORDINATION_STATE_REQUESTED_BY_ME "" COORDINATION_STATE_NONE)
           radar CUSTOM_TAG_XFL_DETAILED loaded_plugin).2).2).1 = None.
Proof.
  exact (coordination_callback_defeats_promotion (env_at 1000) (env_at 1200)
    (baw1 30000 35000 COORDINATION_STATE_REQUESTED_BY_ME "" COORDINATION_STATE_NONE)
    (baw1 30000 35000 COORDINATION_STATE_NONE "" COORDINATION_STATE_NONE) radar loaded_plugin
    COORDINATION_STATE_ACCEPTED eq_refl eq_refl eq_refl eq_refl eq_refl eq_refl eq_refl eq_refl eq_refl
    ltac:(simpl; lia) eq_refl eq_refl eq_refl ltac:(discriminate)).
Defined.

(** C32: once a point is accepted, a later refusal of a request for the
    same flight is not shown: on any state whose tracker holds an accepted
    point for the flight, a COP request while the host reports a refused
    negotiation for a named point writes the accepted point in the
    accepted colour and keeps the tracker as it was, where the live
    negotiation alone would show "COPX" in the refused colour (spec 4.6
    gives the live negotiation the highest precedence). *)
Theorem cop_refusal_after_acceptance_hidden env fp rt ps p :
  rt_IsValid rt = true -> rt_CorrelatedIsValid rt = true ->
  IsLOARelevantState (fp_GetState fp) = true -> stricmp_eq (fp_GetPlanType fp) "I" = true ->
  fp_GetExitCoordinationNameState fp = COORDINATION_STATE_REFUSED ->
  fp_GetExitCoordinationPointName fp <> ""%string ->
  accepted_point (fp_GetCallsign fp) (coordinationStates ps) = Some p ->
  (OnGetTagItem env fp rt CUSTOM_TAG_ID_COP ps).1 = tag_colored p TAG_COLOR_ONGOING_REQUEST_ACCEPTED /\
  coordinationStates (OnGetTagItem env fp rt CUSTOM_TAG_ID_COP ps).2 = coordinationStates ps /\
  cop_negotiation_output (fp_GetExitCoordinationPointName fp) (fp_GetExitCoordinationNameState fp) =
    Some (tag_colored "COPX" TAG_COLOR_ONGOING_REQUEST_REFUSED).
Proof.
  intros Hv Hc Hrel Hi Hst Hne Hacc.
  destruct (OnGetTagItem_cop env fp rt ps Hv Hc Hrel Hi) as [Hm Hout].
  assert (Hid : forall cs q m, promote_point_acceptance cs q (fp_GetExitCoordinationNameState fp)
                  (record_point_request cs q (fp_GetExitCoordinationNameState fp) m) = m)
    by (intros; by rewrite Hst).
  rewrite Hid in Hm, Hout. split_and!; [by apply Hout|done|].
  unfold cop_negotiation_output. rewrite Hst, (proj2 (String.eqb_neq _ _) Hne). done.
Qed.

Lemma cop_refusal_after_acceptance_hidden_witness :
  let ps := set_coord {[ "BAW1" := mkCoordinationInfo 0 COORDINATION_STATE_NONE "LENDY"
                                     COORDINATION_STATE_MANUAL_ACCEPTED ]} loaded_plugin in
  let fp := baw1 30000 0 COORDINATION_STATE_NONE "LENDY" COORDINATION_STATE_REFUSED in
  (OnGetTagItem (env_at 1300) fp radar CUSTOM_TAG_ID_COP ps).1 =
    tag_colored "LENDY" TAG_COLOR_ONGOING_REQUEST_ACCEPTED.
Proof.
  intros ps fp.
  exact (proj1 (cop_refusal_after_acceptance_hidden (env_at 1300) fp radar ps "LENDY"
    eq_refl eq_refl eq_refl eq_refl eq_refl ltac:(discriminate) eq_refl)).
Defined.

(** C2: the plugin invariant holds in every state the plugin reaches
    from its constructor through any sequence of host callbacks: every
    rule one the loader can produce (split airport sets, no sectors, 32-bit
    [int] fields), routes cached with their times, answers cached with
    [DWORD] timestamps, and every cached or snapshotted rule pointer
    either from an earlier generation or designating a live entry of the
    current rules. *)
Theorem reachable_plugin_inv ps : reachable ps -> plugin_inv ps.
Proof.
  induction 1 as [dll me file|ev ps _ IH]; [apply LOAPlugin_init_inv|by apply handle_inv].
Qed.

Lemma reachable_plugin_inv_witness : reachable loaded_plugin /\ plugin_inv loaded_plugin.
Proof.
  assert (H : reachable loaded_plugin) by apply reachable_init.
  exact (conj H (reachable_plugin_inv loaded_plugin H)).
Defined.

(** C7: a reload does not clear the match cache (spec 5 asks that cached
    rule pointers be treated as stale after a reload, the safest way being
    to clear the match results): on any state of the invariant, a
    position update that reloads the rules from a configuration file ends
    the lifetime of the old rules (the generation moves on) but keeps the
    match cache and the frame snapshot; every fresh cached match is then
    served by [MatchLoaEntry] as it was, and designates no entry of the
    current rules, as does the pointer of the snapshot. *)
Theorem reload_serves_stale_match dllPath me config c ps :
  plugin_inv ps ->
  ctr_GetPositionId c <> ""%string -> ctr_GetPositionId c <> loadedSector (ps_loader ps) ->
  me <> ""%string -> me <> loadedSector (ps_loader ps) ->
  let ps' := OnControllerPositionUpdate dllPath me (FileJson config) c ps in
  rules_generation (ps_store ps') = S (rules_generation (ps_store ps)) /\
  ps_matches ps' = ps_matches ps /\ ps_frame ps' = ps_frame ps /\
  (forall fp online tick rc r, guards_pass fp ->
     cached_match (fp_GetCallsign fp) (to_DWORD tick) (ps_matches ps) = Some (Some r) ->
     (MatchLoaEntry (ps_store ps') fp online tick rc (ps_matches ps')).1.1 = Some r /\
     deref (ps_store ps') r = None) /\
  (forall r, currentFrameMatchedLOA (ps_frame ps') = Some r -> deref (ps_store ps') r = None).
Proof.
  intros (_ & _ & Hmc & Hfr) Hc1 Hc2 Hme1 Hme2 ps'.
  assert (Hps' : ps' = load dllPath me (FileJson config) ps).
  { subst ps'. unfold OnControllerPositionUpdate.
    by rewrite (proj2 (String.eqb_neq _ _) Hc1), (proj2 (String.eqb_neq _ _) Hc2). }
  assert (Hgen : rules_generation (ps_store ps') = S (rules_generation (ps_store ps))).
  { rewrite Hps'. unfold load, ps_store. simpl. by apply LoadLOAsFromJSON_json_generation. }
  assert (Hstale : forall r, ref_ok (ps_store ps) r -> deref (ps_store ps') r = None).
  { intros r Hr%ref_ok_generation. unfold deref. rewrite decide_False by lia. done. }
  rewrite Hps' in Hgen, Hstale |- *. split_and!; [done|done|done| |].
  - intros fp online tick rc r Hg Hhit. simpl.
    rewrite (MatchLoaEntry_hit_result _ _ _ _ _ _ _ Hg Hhit). split; [done|].
    apply Hstale. by eapply cached_match_ok.
  - intros r Hr. apply Hstale, Hfr, Hr.
Qed.

Lemma reload_serves_stale_match_witness :
  let ps1 := (OnGetTagItem (env_at 1000) (no_coordination 16000) radar CUSTOM_TAG_ID_COP loaded_plugin).2 in
  let ps' := OnControllerPositionUpdate "C:\es\LOA.dll" "LON_N" (FileJson sample_config)
               (mkController "LON_N_CTR" "LON_N") ps1 in
  (MatchLoaEntry (ps_store ps') (no_coordination 16000) ∅ 2000 (ps_routes ps') (ps_matches ps')).1.1 =
    Some (mkLoaRef 1 DestinationLoas 0) /\
  deref (ps_store ps') (mkLoaRef 1 DestinationLoas 0) = None.
Proof.
  intros ps1 ps'.
  assert (Hinv : plugin_inv ps1) by apply OnGetTagItem_inv, LOAPlugin_init_inv.
  assert (Hne : "LON_N"%string <> ""%string) by discriminate.
  assert (Hnl : "LON_N"%string <> loadedSector (ps_loader ps1)) by (vm_compute; discriminate).
  assert (Hg : guards_pass (no_coordination 16000)) by (split_and!; reflexivity).
  assert (Hhit : cached_match (fp_GetCallsign (no_coordination 16000)) (to_DWORD 2000) (ps_matches ps1) =
                   Some (Some (mkLoaRef 1 DestinationLoas 0))) by (vm_compute; reflexivity).
  destruct (reload_serves_stale_match "C:\es\LOA.dll" "LON_N" sample_config (mkController "LON_N_CTR" "LON_N")
              ps1 Hinv Hne Hnl Hne Hnl) as (_ & _ & _ & H & _).
  exact (H (no_coordination 16000) ∅ 2000 (ps_routes ps') _ Hg Hhit).
Defined.

(** C8: every label the plugin writes into [sItemString[16]] has at
    most 15 characters (spec 6), whatever the item code, the flight, the
    rules and the state. *)
Theorem OnGetTagItem_label_bounded env fp rt itemCode ps :
  label_ok (OnGetTagItem env fp rt itemCode ps).1.
Proof.
  unfold OnGetTagItem. repeat case_match;
    auto using RenderXFLTagItem_label, RenderXFLDetailedTagItem_label, RenderCOPTagItem_label with loa.
Qed.

(** C26: no callback ever removes an entry of the coordination tracker:
    the renderers, the coordination callback, the state-change callback
    (which cleans the route and match caches only) and the reload all keep
    every callsign the tracker holds. *)
Theorem coordination_states_never_pruned ev ps :
  coord_mono (coordinationStates ps) (coordinationStates (handle ev ps).2).
Proof.
  destruct ev as [dll me file c|fp|fp t st|env fp rt code]; simpl.
  - unfold OnControllerPositionUpdate. by case_match.
  - unfold OnFlightPlanStateChange_plugin. by destruct (OnFlightPlanStateChange _ _ _).
  - auto with loa.
  - pose proof (OnGetTagItem_step env fp rt code ps) as H.
    destruct (OnGetTagItem env fp rt code ps). exact H.
Qed.

(** C33: rendering the coordination point of a flight that reports no
    point negotiation creates or keeps its tracker entry
    ([coordinationStates[callsign]]), whether or not it had one, and the
    entry survives the flight turning non-concerned, when the route and
    match caches of the flight are cleaned: no callback ever releases it. *)
Theorem coordination_entry_outlives_cleanup env fp fp' rt ps :
  rt_IsValid rt = true -> rt_CorrelatedIsValid rt = true ->
  IsLOARelevantState (fp_GetState fp) = true -> stricmp_eq (fp_GetPlanType fp) "I" = true ->
  fp_GetExitCoordinationNameState fp = COORDINATION_STATE_NONE ->
  fp_IsValid fp' = true -> fp_GetState fp' = FLIGHT_PLAN_STATE_NON_CONCERNED ->
  fp_GetCallsign fp' = fp_GetCallsign fp ->
  let ps2 := OnFlightPlanStateChange_plugin fp' (OnGetTagItem env fp rt CUSTOM_TAG_ID_COP ps).2 in
  is_Some (coordinationStates ps2 !! fp_GetCallsign fp) /\
  routeCache (ps_routes ps2) !! fp_GetCallsign fp = None /\
  matchedLOACache (ps_matches ps2) !! fp_GetCallsign fp = None.
Proof.
  intros Hv Hc Hrel Hi Hst Hfv' Hs' Hcs ps2.
  destruct (OnGetTagItem_cop env fp rt ps Hv Hc Hrel Hi) as [Hm _].
  subst ps2. set (ps1 := (OnGetTagItem env fp rt CUSTOM_TAG_ID_COP ps).2) in *. clearbody ps1.
  unfold OnFlightPlanStateChange_plugin, OnFlightPlanStateChange.
  rewrite Hfv', Hs'. cbn. rewrite Hcs, Hm, Hst, ?lookup_delete, ?decide_True by done.
  split_and!; [|done|done]. unfold promote_point_acceptance.
  rewrite bool_decide_true by done. case_match; apply lookup_insert_is_Some; by left.
Qed.

Lemma coordination_entry_outlives_cleanup_witness :
  let fp' := mkFlightPlan true "BAW1" FLIGHT_PLAN_STATE_NON_CONCERNED "I" "EGLL" "KJFK" 16000 37000
               ["DVR"; "LENDY"] "LON_S" 0 COORDINATION_STATE_NONE "" COORDINATION_STATE_NONE in
  let ps2 := OnFlightPlanStateChange_plugin fp'
               (OnGetTagItem (env_at 1000) (no_coordination 16000) radar CUSTOM_TAG_ID_COP loaded_plugin).2 in
  coordinationStates loaded_plugin !! "BAW1" = None /\
  is_Some (coordinationStates ps2 !! "BAW1") /\
  routeCache (ps_routes ps2) !! "BAW1" = None /\ matchedLOACache (ps_matches ps2) !! "BAW1" = None.
Proof.
  intros fp' ps2. split; [vm_compute; reflexivity|].
  exact (coordination_entry_outlives_cleanup (env_at 1000) (no_coordination 16000) fp' radar loaded_plugin
    eq_refl eq_refl eq_refl eq_refl eq_refl eq_refl eq_refl eq_refl).
Defined.

(** C3: composition of the caches, the engine and the loader's invariant:
    a tag request (any item code) that refreshes the frame snapshot of a
    relevant IFR flight with no fresh cached answer leaves in the snapshot
    the online set and the route the caches return, and a pointer to the
    rule that governs the flight under the current rules in that context
    ([Spec.governs]), which designates a live entry; the renderer that
    runs afterwards changes neither the snapshot nor the rules. *)
Theorem OnGetTagItem_frame_governs env fp rt code ps :
  plugin_inv ps -> guards_pass fp ->
  frame_expired (fp_GetCallsign fp) (env_tick env) (ps_frame ps) = true ->
  cached_match (fp_GetCallsign fp) (to_DWORD (env_tick env)) (ps_matches ps) = None ->
  let ps' := (OnGetTagItem env fp rt code ps).2 in
  let fr := ps_frame ps' in
  currentFrameCallsign fr = fp_GetCallsign fp /\
  currentFrameOnlineControllers fr = (GetOnlineControllersCached (env_roster env) (env_tick env) (ps_online ps)).1 /\
  currentFrameRoutePoints fr = (GetCachedRoutePoints fp (env_tick env) (ps_routes ps)).1 /\
  Spec.governs (ps_rules ps') (flight_context fp (currentFrameOnlineControllers fr) (currentFrameRoutePoints fr))
    (ref_pos <$> currentFrameMatchedLOA fr) /\
  (forall r, currentFrameMatchedLOA fr = Some r -> deref (ps_store ps') r <> None).
Proof.
  intros (Hwf & Hrc & _ & _) Hg Hexp Hmiss ps' fr.
  destruct (OnGetTagItem_renderer env fp rt code ps) as (Hl & _ & Hf & _).
  destruct (refresh_frame_miss env (fp) (set_lastTagData (tag_data_of fp) ps) Hrc Hg Hexp Hmiss) as [Hl' Hf'].
  subst fr ps'. unfold ps_rules, ps_store. rewrite Hf, Hf', Hl, Hl'. simpl.
  split_and!; [done..| |apply engine_scan_deref].
  apply engine_scan_governs, ruleset_loadable_wf, Hwf.
Qed.

Lemma OnGetTagItem_frame_governs_witness :
  let fp := no_coordination 16000 in
  plugin_inv loaded_plugin /\ guards_pass fp /\
  frame_expired (fp_GetCallsign fp) (env_tick (env_at 1000)) (ps_frame loaded_plugin) = true /\
  cached_match (fp_GetCallsign fp) (to_DWORD (env_tick (env_at 1000))) (ps_matches loaded_plugin) = None /\
  (let ps' := (OnGetTagItem (env_at 1000) fp radar CUSTOM_TAG_ID loaded_plugin).2 in
   let fr := ps_frame ps' in
   currentFrameCallsign fr = fp_GetCallsign fp /\
   currentFrameOnlineControllers fr =
     (GetOnlineControllersCached (env_roster (env_at 1000)) (env_tick (env_at 1000)) (ps_online loaded_plugin)).1 /\
   currentFrameRoutePoints fr = (GetCachedRoutePoints fp (env_tick (env_at 1000)) (ps_routes loaded_plugin)).1 /\
   Spec.governs (ps_rules ps') (flight_context fp (currentFrameOnlineControllers fr) (currentFrameRoutePoints fr))
     (ref_pos <$> currentFrameMatchedLOA fr) /\
   (forall r, currentFrameMatchedLOA fr = Some r -> deref (ps_store ps') r <> None)).
Proof.
  intros fp.
  assert (Hinv : plugin_inv loaded_plugin) by apply LOAPlugin_init_inv.
  assert (Hg : guards_pass fp) by (split_and!; reflexivity).
  assert (He : frame_expired (fp_GetCallsign fp) (env_tick (env_at 1000)) (ps_frame loaded_plugin) = true)
    by reflexivity.
  assert (Hm : cached_match (fp_GetCallsign fp) (to_DWORD (env_tick (env_at 1000))) (ps_matches loaded_plugin) = None)
    by reflexivity.
  split_and!; try assumption. exact (OnGetTagItem_frame_governs _ fp radar CUSTOM_TAG_ID _ Hinv Hg He Hm).
Defined.

(** C24: the frame snapshot is one slot keyed by the last callsign: when
    tag requests for two flights alternate, even within one tick, each
    request finds the snapshot expired and recomputes it, although the
    snapshot of the same flight was taken less than 100 ms before (spec 5
    asks for at most one computation per callsign per 100 ms window). *)
Theorem interleaved_requests_refresh env fpA fpB rtA rtB codeA codeB ps :
  fp_GetCallsign fpA <> fp_GetCallsign fpB ->
  let ps1 := (OnGetTagItem env fpA rtA codeA ps).2 in
  let ps2 := (OnGetTagItem env fpB rtB codeB ps1).2 in
  currentFrameCallsign (ps_frame ps1) = fp_GetCallsign fpA /\
  frame_expired (fp_GetCallsign fpB) (env_tick env) (ps_frame ps1) = true /\
  frame_expired (fp_GetCallsign fpA) (env_tick env) (ps_frame ps2) = true.
Proof.
  intros Hne ps1 ps2. unfold frame_expired. subst ps1 ps2. rewrite !OnGetTagItem_frame_callsign.
  split; [done|]. split; apply orb_true_intro; left; apply negb_true_iff, String.eqb_neq; congruence.
Qed.

Lemma interleaved_requests_refresh_witness :
  let fpA := no_coordination 16000 in
  let fpB := mkFlightPlan true "EZY2" FLIGHT_PLAN_STATE_ASSUMED "I" "EGKK" "LFPG" 16000 24000
               ["DVR"] "LON_S" 0 COORDINATION_STATE_NONE "" COORDINATION_STATE_NONE in
  fp_GetCallsign fpA <> fp_GetCallsign fpB /\
  (let ps1 := (OnGetTagItem (env_at 1000) fpA radar CUSTOM_TAG_ID loaded_plugin).2 in
   let ps2 := (OnGetTagItem (env_at 1000) fpB radar CUSTOM_TAG_ID ps1).2 in
   currentFrameCallsign (ps_frame ps1) = fp_GetCallsign fpA /\
   frame_expired (fp_GetCallsign fpB) (env_tick (env_at 1000)) (ps_frame ps1) = true /\
   frame_expired (fp_GetCallsign fpA) (env_tick (env_at 1000)) (ps_frame ps2) = true).
Proof.
  intros fpA fpB. assert (Hne : fp_GetCallsign fpA <> fp_GetCallsign fpB) by discriminate.
  split; [exact Hne|]. exact (interleaved_requests_refresh _ fpA fpB radar radar _ _ loaded_plugin Hne).
Defined.

End Plugin.
